(** * mlog: a leveled logger over a buffered writer

    Shallow embedding of [logger/logger.go] and [mlog/mlog.go].

    The file [logger/logger.go] holds two variants of the same logger:
    - lines 1-202: [SetOutput] replaces the sink by the file, [Flush] only
      flushes the buffer, there is no [Close]  (module [V1] below);
    - lines 202-417: [SetOutput] tees to the file and the console, [Flush]
      also syncs the file, there is a [Close]; this is the variant
      [mlog/mlog.go] is written against  (module [V2] below).

    What the loggers call from Go's standard library ([time], [fmt],
    [bufio], [io], [log], [os], [sync]) is modelled first, then the two
    variants, then the theorems.

    One goroutine is modelled, together with the state of the mutex as it
    sees it.  A lock operation that cannot proceed parks the caller
    ([Blocked]).  No method of the loggers releases a lock it did not
    take, so a goroutine parked on a lock it holds itself stays parked;
    whether the Go run time then aborts the process ("all goroutines are
    asleep") depends on the other goroutines and is outside the model.
    The theorems on single calls start from a logger at rest: the lock is
    free and the invariant [V1_wf] / [V2_wf] holds. *)

From Stdlib Require Import ZArith String Ascii List Bool Lia DecimalString.
From stdpp Require Import base list.
Import ListNotations.

Local Open Scope string_scope.
Local Open Scope Z_scope.

(* ===================================================================== *)
(** * Byte strings *)
(* ===================================================================== *)

(** Go strings and byte slices are both modelled by [string]. *)

Abbreviation len := String.length.

Fixpoint str_take (n : nat) (s : string) : string :=
  match n, s with
  | S n', String c s' => String c (str_take n' s')
  | _, _ => ""
  end.

Fixpoint str_drop (n : nat) (s : string) : string :=
  match n, s with
  | S n', String _ s' => str_drop n' s'
  | _, _ => s
  end.

Definition newline : ascii := "010"%char.
Definition nl : string := String newline "".

Fixpoint count_char (c : ascii) (s : string) : nat :=
  match s with
  | "" => 0%nat
  | String c' s' => ((if Ascii.eqb c c' then 1 else 0) + count_char c s')%nat
  end.

Fixpoint last_char (s : string) : option ascii :=
  match s with
  | "" => None
  | String c "" => Some c
  | String _ s' => last_char s'
  end.

(* ===================================================================== *)
(** * package time *)
(* ===================================================================== *)

Module time.

(** A wall-clock reading, as [time.Now()] returns it, broken into the
    fields the layout uses. *)
Record Time := mkTime {
  Year : nat; Month : nat; Day : nat;
  Hour : nat; Minute : nat; Second : nat }.

Definition valid (t : Time) : Prop :=
  (Year t < 100 * 100 /\ 1 <= Month t <= 12 /\ 1 <= Day t <= 31 /\
   Hour t < 24 /\ Minute t < 60 /\ Second t < 60)%nat.

Definition itoa (n : nat) : string := NilZero.string_of_uint (Nat.to_uint n).

Fixpoint zeros (n : nat) : string :=
  match n with O => "" | S n' => String "0" (zeros n') end.

(** [appendInt]: decimal, zero-padded on the left to [width]. *)
Definition appendInt (n width : nat) : string :=
  zeros (width - len (itoa n)) ++ itoa n.

(** [t.Format("2006-01-02 15:04:05")]. *)
Definition Format (t : Time) : string :=
  appendInt (Year t) 4 ++ "-" ++ appendInt (Month t) 2 ++ "-" ++
  appendInt (Day t) 2 ++ " " ++ appendInt (Hour t) 2 ++ ":" ++
  appendInt (Minute t) 2 ++ ":" ++ appendInt (Second t) 2.

Definition is_digit (c : ascii) : bool :=
  let n := nat_of_ascii c in (48 <=? n)%nat && (n <=? 57)%nat.

(** [matches pat s]: [s] has the shape of [pat], where a ["d"] of the
    pattern stands for any decimal digit and every other character for
    itself. *)
Fixpoint matches (pat s : string) : bool :=
  match pat, s with
  | "", "" => true
  | String p pat', String c s' =>
      (if Ascii.eqb p "d" then is_digit c else Ascii.eqb p c) && matches pat' s'
  | _, _ => false
  end.

Definition layout : string := "dddd-dd-dd dd:dd:dd".

End time.

(* ===================================================================== *)
(** * package fmt (the fragment the logger's callers need) *)
(* ===================================================================== *)

Module fmt.

(** Operands of the variadic [...interface{}] parameters. *)
Inductive value :=
| VString (s : string)
| VInt (z : Z)
| VBool (b : bool).

Definition isString (v : value) : bool :=
  match v with VString _ => true | _ => false end.

Definition typeName (v : value) : string :=
  match v with VString _ => "string" | VInt _ => "int" | VBool _ => "bool" end.

Definition itoa (z : Z) : string := NilZero.string_of_int (Z.to_int z).

(** The default format, verb [%v]. *)
Definition fmt_v (v : value) : string :=
  match v with
  | VString s => s
  | VInt z => itoa z
  | VBool b => if b then "true" else "false"
  end.

(** [Sprint]: operands in their default format; a space is added
    between operands when neither is a string. *)
Fixpoint doPrint (prevString : bool) (first : bool) (a : list value) : string :=
  match a with
  | [] => ""
  | arg :: rest =>
      (if negb first && negb (isString arg) && negb prevString then " " else "")
      ++ fmt_v arg ++ doPrint (isString arg) false rest
  end.

Definition Sprint (a : list value) : string := doPrint false true a.

(** One operand under one verb.  The fragment has the verbs [v], [s],
    [d] and [t], without flags, width or precision; a verb that does not
    fit its operand is rendered the way [fmt] reports it,
    [%!verb(type=value)]. *)
Definition badVerb (verb : ascii) (arg : value) : string :=
  "%!" ++ String verb "" ++ "(" ++ typeName arg ++ "=" ++ fmt_v arg ++ ")".

Definition printArg (arg : value) (verb : ascii) : string :=
  if Ascii.eqb verb "v" then fmt_v arg
  else match arg with
       | VString s => if Ascii.eqb verb "s" then s else badVerb verb arg
       | VInt z => if Ascii.eqb verb "d" then itoa z else badVerb verb arg
       | VBool b => if Ascii.eqb verb "t" then fmt_v arg else badVerb verb arg
       end.

Fixpoint extraArgs (first : bool) (a : list value) : string :=
  match a with
  | [] => ""
  | arg :: rest =>
      (if first then "" else ", ") ++ typeName arg ++ "=" ++ fmt_v arg
      ++ extraArgs false rest
  end.

Definition extra (a : list value) : string :=
  match a with
  | [] => ""
  | _ => "%!(EXTRA " ++ extraArgs true a ++ ")"
  end.

(** [Sprintf]: never fails; missing operands, a dangling [%] and unused
    operands are reported inside the result. *)
Fixpoint doPrintf (format : string) (a : list value) : string :=
  match format with
  | "" => extra a
  | String c rest =>
      if Ascii.eqb c "%" then
        match rest with
        | "" => "%!(NOVERB)" ++ extra a
        | String verb rest' =>
            if Ascii.eqb verb "%" then String "%" (doPrintf rest' a)
            else match a with
                 | [] => "%!" ++ String verb "" ++ "(MISSING)" ++ doPrintf rest' []
                 | arg :: a' => printArg arg verb ++ doPrintf rest' a'
                 end
        end
      else String c (doPrintf rest a)
  end.

Definition Sprintf (format : string) (a : list value) : string :=
  doPrintf format a.

(** [Sprintln] of one string operand, as [log.Println] calls it. *)
Definition Sprintln (s : string) : string := s ++ nl.

End fmt.

(* ===================================================================== *)
(** * The process: console, files, buffered writers, trace *)
(* ===================================================================== *)

Inductive error :=
| PathError (path : string)   (* what [os.OpenFile] returns when it fails *)
| ErrClosed                   (* [os.ErrClosed]: the file is already closed *)
| ErrInvalid                  (* [os.ErrInvalid]: not a file *)
| ErrDevice.                  (* the device rejects the operation *)

(** The two kinds of destination the loggers write to. *)
Inductive Dev :=
| Stdout                      (* [os.Stdout] *)
| FileDev (fd : nat).         (* an [*os.File] returned by [os.OpenFile] *)

(** An [io.Writer] under a [bufio.Writer]: a device, or the
    [io.MultiWriter] of a list of devices. *)
Inductive Sink :=
| Direct (d : Dev)
| MultiWriter (ds : list Dev).

(** An [*os.File]: the path it was opened on, whether [Close] was called,
    and the bytes appended through it. *)
Record File := mkFile {
  f_name : string;
  f_closed : bool;
  f_data : string }.

(** A [bufio.Writer]: its fields [wr], [buf[0:n]] and [err]. *)
Record Writer := mkWriter {
  wr : Sink;
  buf : string;
  err : option error }.

(** What the program asks of the operating system, in order. *)
Inductive event :=
| EvNow
| EvOpen (path : string) (r : option error)
| EvWrite (d : Dev) (p : string) (r : option error)
| EvSync (fd : nat) (r : option error)
| EvClose (fd : nat) (r : option error)
| EvExit (code : Z).

(** The environment ([clock], [can_open], [fails]) is read, never written.
    [can_open path] tells whether [os.OpenFile] succeeds on [path];
    [fails d] tells whether device [d] rejects writes and syncs (a full
    disk, a closed pipe).  A write transfers all of its bytes or none. *)
Record World := mkWorld {
  clock : time.Time;
  can_open : string -> bool;
  fails : Dev -> bool;
  console : string;           (* the bytes written to [os.Stdout] *)
  files : list File;          (* the [*os.File] objects, by handle *)
  writers : list Writer;      (* the [*bufio.Writer] objects, by handle *)
  trace : list event }.

Definition set_console (c : string) (w : World) : World :=
  mkWorld (clock w) (can_open w) (fails w) c (files w) (writers w) (trace w).
Definition set_files (fs : list File) (w : World) : World :=
  mkWorld (clock w) (can_open w) (fails w) (console w) fs (writers w) (trace w).
Definition set_writers (ws : list Writer) (w : World) : World :=
  mkWorld (clock w) (can_open w) (fails w) (console w) (files w) ws (trace w).
Definition emit (e : event) (w : World) : World :=
  mkWorld (clock w) (can_open w) (fails w) (console w) (files w) (writers w)
          (trace w ++ [e]).

(** How a call ends. *)
Inductive outcome (S A : Type) : Type :=
| Returned (a : A) (s : S)    (* the call returns [a] *)
| Exited (code : Z) (s : S)   (* [os.Exit code]: the process is gone *)
| Blocked (s : S)             (* parked on a lock that is never released *)
| Panicked (s : S).           (* a run-time panic or fatal error *)
Arguments Returned {S A} a s.
Arguments Exited {S A} code s.
Arguments Blocked {S A} s.
Arguments Panicked {S A} s.

Definition Prog (S A : Type) : Type := S -> outcome S A.

Definition ret {S A} (a : A) : Prog S A := fun s => Returned a s.

Definition bind {S A B} (m : Prog S A) (k : A -> Prog S B) : Prog S B :=
  fun s =>
    match m s with
    | Returned a s' => k a s'
    | Exited c s' => Exited c s'
    | Blocked s' => Blocked s'
    | Panicked s' => Panicked s'
    end.

Notation "x <- m ;; k" := (bind m (fun x => k))
  (at level 100, m at next level, k at level 200, right associativity).
Notation "'exec' m ;; k" := (bind m (fun _ => k))
  (at level 100, m at next level, k at level 200, right associativity).

(** The state a call is left in, however it ends. *)
Definition final {S A} (o : outcome S A) : S :=
  match o with
  | Returned _ s | Exited _ s | Blocked s | Panicked s => s
  end.

(** [defer d] in front of [body]: [d] runs when [body] returns, not when
    the process exits or the goroutine is parked. *)
Definition defer {S A} (d : Prog S unit) (body : Prog S A) : Prog S A :=
  a <- body ;; exec d ;; ret a.

(** Run a program on the world inside a larger state. *)
Definition lift {L A} (m : Prog World A) : Prog (L * World) A :=
  fun s =>
    match m (snd s) with
    | Returned a w' => Returned a (fst s, w')
    | Exited c w' => Exited c (fst s, w')
    | Blocked w' => Blocked (fst s, w')
    | Panicked w' => Panicked (fst s, w')
    end.

(* ===================================================================== *)
(** * package os *)
(* ===================================================================== *)

Module os.

Definition Now : Prog World time.Time :=
  fun w => Returned (clock w) (emit EvNow w).

(** [os.OpenFile(path, O_CREATE|O_APPEND|..., 0666)]. *)
Definition OpenFile (path : string) : Prog World (nat + error) :=
  fun w =>
    if can_open w path then
      let fd := length (files w) in
      Returned (inl fd)
        (emit (EvOpen path None)
           (set_files (files w ++ [mkFile path false ""]) w))
    else
      Returned (inr (PathError path)) (emit (EvOpen path (Some (PathError path))) w).

(** Why an operation on file [fd] cannot go through, if it cannot. *)
Definition file_error (fd : nat) (w : World) : option error :=
  match files w !! fd with
  | None => Some ErrInvalid
  | Some f => if f_closed f then Some ErrClosed
              else if fails w (FileDev fd) then Some ErrDevice else None
  end.

Definition append_data (p : string) (f : File) : File :=
  mkFile (f_name f) (f_closed f) (f_data f ++ p).

Definition mark_closed (f : File) : File :=
  mkFile (f_name f) true (f_data f).

(** [d.Write(p)] on a device. *)
Definition Write (d : Dev) (p : string) (w : World) : option error * World :=
  match d with
  | Stdout =>
      if fails w Stdout then (Some ErrDevice, emit (EvWrite d p (Some ErrDevice)) w)
      else (None, emit (EvWrite d p None) (set_console (console w ++ p) w))
  | FileDev fd =>
      match file_error fd w with
      | Some e => (Some e, emit (EvWrite d p (Some e)) w)
      | None =>
          (None, emit (EvWrite d p None)
                   (set_files (alter (append_data p) fd (files w)) w))
      end
  end.

(** [f.Sync()]. *)
Definition Sync (fd : nat) : Prog World (option error) :=
  fun w => Returned (file_error fd w) (emit (EvSync fd (file_error fd w)) w).

(** [f.Close()]: a second [Close] reports [ErrClosed]. *)
Definition Close (fd : nat) : Prog World (option error) :=
  fun w =>
    match files w !! fd with
    | None => Returned (Some ErrInvalid) (emit (EvClose fd (Some ErrInvalid)) w)
    | Some f =>
        if f_closed f then Returned (Some ErrClosed) (emit (EvClose fd (Some ErrClosed)) w)
        else Returned None
               (emit (EvClose fd None) (set_files (alter mark_closed fd (files w)) w))
    end.

Definition Exit {A} (code : Z) : Prog World A :=
  fun w => Exited code (emit (EvExit code) w).

End os.

(* ===================================================================== *)
(** * package io *)
(* ===================================================================== *)

Module io.

(** [multiWriter.Write]: the writers in order, stopping at the first
    error. *)
Fixpoint write_all (ds : list Dev) (p : string) (w : World) : option error * World :=
  match ds with
  | [] => (None, w)
  | d :: ds' =>
      match os.Write d p w with
      | (Some e, w') => (Some e, w')
      | (None, w') => write_all ds' p w'
      end
  end.

Definition Write (s : Sink) (p : string) (w : World) : option error * World :=
  match s with
  | Direct d => os.Write d p w
  | MultiWriter ds => write_all ds p w
  end.

End io.

(* ===================================================================== *)
(** * package bufio *)
(* ===================================================================== *)

Module bufio.

Definition defaultBufSize : nat := 4096.

Definition set_writer (h : nat) (b : Writer) (w : World) : World :=
  set_writers (<[h := b]> (writers w)) w.

(** [bufio.NewWriter(wr)]: a fresh writer with an empty buffer. *)
Definition NewWriter (s : Sink) : Prog World nat :=
  fun w =>
    Returned (length (writers w))
             (set_writers (writers w ++ [mkWriter s "" None]) w).

Definition Available (b : Writer) : nat := defaultBufSize - len (buf b).

(** [b.Flush()].  An earlier error sticks: it is returned again and the
    sink is not touched.  On a failed write nothing was transferred, so
    the buffer keeps its bytes. *)
Definition Flush (h : nat) : Prog World (option error) :=
  fun w =>
    match writers w !! h with
    | None => Panicked w
    | Some b =>
        match err b with
        | Some e => Returned (Some e) w
        | None =>
            if (len (buf b) =? 0)%nat then Returned None w
            else
              match io.Write (wr b) (buf b) w with
              | (Some e, w') =>
                  Returned (Some e) (set_writer h (mkWriter (wr b) (buf b) (Some e)) w')
              | (None, w') =>
                  Returned None (set_writer h (mkWriter (wr b) "" None) w')
              end
        end
    end.

(** [b.Write(p)].  The loop of the original,
    [for len(p) > b.Available() && b.err == nil], is unrolled: since a
    write to the sink transfers everything or fails, it runs at most
    twice (fill the buffer and flush it, then write the rest directly
    when it is still larger than the buffer). *)
Definition Write (h : nat) (p : string) : Prog World (option error) :=
  fun w =>
    match writers w !! h with
    | None => Panicked w
    | Some b =>
        match err b with
        | Some e => Returned (Some e) w
        | None =>
            if (len p <=? Available b)%nat then
              (* the bytes fit: they are copied to the buffer *)
              Returned None (set_writer h (mkWriter (wr b) (buf b ++ p) None) w)
            else if (len (buf b) =? 0)%nat then
              (* large write, empty buffer: written directly *)
              match io.Write (wr b) p w with
              | (Some e, w') =>
                  Returned (Some e) (set_writer h (mkWriter (wr b) "" (Some e)) w')
              | (None, w') => Returned None w'
              end
            else
              (* fill the buffer, flush it, go on with the rest *)
              let full := buf b ++ str_take (Available b) p in
              let rest := str_drop (Available b) p in
              match io.Write (wr b) full w with
              | (Some e, w') =>
                  Returned (Some e) (set_writer h (mkWriter (wr b) full (Some e)) w')
              | (None, w') =>
                  if (len rest <=? defaultBufSize)%nat then
                    Returned None (set_writer h (mkWriter (wr b) rest None) w')
                  else
                    match io.Write (wr b) rest w' with
                    | (Some e, w'') =>
                        Returned (Some e)
                                 (set_writer h (mkWriter (wr b) "" (Some e)) w'')
                    | (None, w'') =>
                        Returned None (set_writer h (mkWriter (wr b) "" None) w'')
                    end
              end
        end
    end.

End bufio.

(* ===================================================================== *)
(** * package log *)
(* ===================================================================== *)

Module log.

Definition Lmsgprefix : Z := 64.

(** A [log.Logger]: its output (always a [*bufio.Writer] here), prefix
    and flags. *)
Record Logger := mkLogger {
  out : nat;
  prefix : string;
  flag : Z }.

Definition New (out : nat) (prefix : string) (flag : Z) : Logger :=
  mkLogger out prefix flag.

Definition SetOutput (out' : nat) (lg : Logger) : Logger :=
  mkLogger out' (prefix lg) (flag lg).

(** The loggers are created with flags [0] or [Lmsgprefix]: the header
    of a line holds no date, time or file, only the prefix. *)
Definition header (lg : Logger) : string := prefix lg.

(** [lg.Println(s)]: the header, [fmt.Sprintln(s)], one [Write] to the
    output.  [Println] has no result: the error of [Write] is dropped. *)
Definition Println (lg : Logger) (s : string) : Prog World unit :=
  _ <- bufio.Write (out lg) (header lg ++ fmt.Sprintln s) ;; ret tt.

End log.

(* ===================================================================== *)
(** * package sync *)
(* ===================================================================== *)

Module sync.

(** A [sync.RWMutex] as one goroutine sees it: whether the write lock is
    held and how many read locks are. *)
Record RWMutex := mkRWMutex {
  writer_held : bool;
  readers : nat }.

Definition zero : RWMutex := mkRWMutex false 0.

Definition free (m : RWMutex) : Prop := m = zero.

Inductive attempt :=
| Acquired (m : RWMutex)
| Waits             (* the caller is parked until the lock is released *)
| Fatal.            (* "sync: Unlock of unlocked RWMutex" *)

(** The lock is not reentrant: [Lock] waits while anyone holds it, the
    caller included. *)
Definition Lock (m : RWMutex) : attempt :=
  if writer_held m || (0 <? readers m)%nat then Waits
  else Acquired (mkRWMutex true 0).

Definition Unlock (m : RWMutex) : attempt :=
  if writer_held m then Acquired (mkRWMutex false (readers m)) else Fatal.

Definition RLock (m : RWMutex) : attempt :=
  if writer_held m then Waits
  else Acquired (mkRWMutex false (S (readers m))).

Definition RUnlock (m : RWMutex) : attempt :=
  match readers m with
  | O => Fatal
  | S n => Acquired (mkRWMutex (writer_held m) n)
  end.

(** A lock operation as a step of a program whose state holds the
    mutex. *)
Definition step {S} (get : S -> RWMutex) (set : RWMutex -> S -> S)
    (op : RWMutex -> attempt) : Prog S unit :=
  fun s =>
    match op (get s) with
    | Acquired m => Returned tt (set m s)
    | Waits => Blocked s
    | Fatal => Panicked s
    end.

End sync.

(* ===================================================================== *)
(** * package logger: the levels *)
(* ===================================================================== *)

(** [type LogLevel int8]. *)
Definition LogLevel := Z.

Definition int8 (l : LogLevel) : Prop := -128 <= l <= 127.

Definition LogLevelDebug : LogLevel := 0.
Definition LogLevelInfo : LogLevel := 1.
Definition LogLevelWarning : LogLevel := 2.
Definition LogLevelError : LogLevel := 3.
Definition LogLevelFatal : LogLevel := 4.

(** [func (l LogLevel) String() string], the same in both variants. *)
Definition String_ (l : LogLevel) : string :=
  if l =? LogLevelDebug then "DEBUG"
  else if l =? LogLevelInfo then "INFO"
  else if l =? LogLevelWarning then "WARNING"
  else if l =? LogLevelError then "ERROR"
  else if l =? LogLevelFatal then "FATAL"
  else "UNKNOWN".

(* ===================================================================== *)
(** * package logger, first variant ([logger.go], lines 1-202) *)
(* ===================================================================== *)

Module V1.

Import fmt.

Record LogExtended := mkLogExtended {
  mu : sync.RWMutex;
  logger : log.Logger;
  bufWriter : option nat;     (* [*bufio.Writer], [None] for nil *)
  logLevel : LogLevel;
  logFile : option nat }.     (* [*os.File], [None] for nil *)

(** The receiver [l *LogExtended] and the rest of the process. *)
Definition State : Type := LogExtended * World.

Definition set_mu (m : sync.RWMutex) (l : LogExtended) : LogExtended :=
  mkLogExtended m (logger l) (bufWriter l) (logLevel l) (logFile l).
Definition set_logger (lg : log.Logger) (l : LogExtended) : LogExtended :=
  mkLogExtended (mu l) lg (bufWriter l) (logLevel l) (logFile l).
Definition set_bufWriter (b : option nat) (l : LogExtended) : LogExtended :=
  mkLogExtended (mu l) (logger l) b (logLevel l) (logFile l).
Definition set_logLevel (lvl : LogLevel) (l : LogExtended) : LogExtended :=
  mkLogExtended (mu l) (logger l) (bufWriter l) lvl (logFile l).
Definition set_logFile (f : option nat) (l : LogExtended) : LogExtended :=
  mkLogExtended (mu l) (logger l) (bufWriter l) (logLevel l) f.

Definition self : Prog State LogExtended := fun s => Returned (fst s) s.
Definition update (f : LogExtended -> LogExtended) : Prog State unit :=
  fun s => Returned tt (f (fst s), snd s).

Definition mu_step (op : sync.RWMutex -> sync.attempt) : Prog State unit :=
  sync.step (fun s : State => mu (fst s)) (fun m s => (set_mu m (fst s), snd s)) op.
Definition Lock : Prog State unit := mu_step sync.Lock.
Definition Unlock : Prog State unit := mu_step sync.Unlock.

(** [if p != nil { p.m() }], the result of [m] dropped. *)
Definition when_set {A} (p : option nat) (m : nat -> Prog World A) : Prog State unit :=
  match p with
  | Some h => _ <- lift (m h) ;; ret tt
  | None => ret tt
  end.

(** lines 69-76 *)
Definition New : Prog World LogExtended :=
  bufWriter <- bufio.NewWriter (Direct Stdout) ;;
  ret (mkLogExtended sync.zero (log.New bufWriter "" log.Lmsgprefix)
                     (Some bufWriter) LogLevelInfo None).

(** lines 79-83 *)
Definition SetLogLevel (lvl : LogLevel) : Prog State unit :=
  exec Lock ;;
  defer Unlock (update (set_logLevel lvl)).

(** lines 86-109 *)
Definition SetOutput (filePath : string) : Prog State (option error) :=
  exec Lock ;;
  defer Unlock (
    l <- self ;;
    exec when_set (bufWriter l) bufio.Flush ;;
    r <- lift (os.OpenFile filePath) ;;
    match r with
    | inr err => ret (Some err)
    | inl file =>
        exec when_set (logFile l) os.Close ;;
        bufWriter <- lift (bufio.NewWriter (Direct (FileDev file))) ;;
        exec update (fun l => set_logger (log.SetOutput bufWriter (logger l)) l) ;;
        exec update (set_bufWriter (Some bufWriter)) ;;
        exec update (set_logFile (Some file)) ;;
        ret None
    end).

(** lines 112-119 *)
Definition Flush : Prog State (option error) :=
  exec Lock ;;
  defer Unlock (
    l <- self ;;
    match bufWriter l with
    | Some b => lift (bufio.Flush b)
    | None => ret None
    end).

(** lines 122-125 *)
Definition formatMessage (lvl : LogLevel) (args : list value) : Prog State string :=
  now <- lift os.Now ;;
  let timestamp := time.Format now in
  ret (Sprintf "[%s] [%s] %v"
         [VString timestamp; VString (String_ lvl); VString (Sprint args)]).

(** lines 128-132 *)
Definition formatMessagef (lvl : LogLevel) (format : string) (args : list value)
  : Prog State string :=
  now <- lift os.Now ;;
  let timestamp := time.Format now in
  let msg := Sprintf format args in
  ret (Sprintf "[%s] [%s] %s"
         [VString timestamp; VString (String_ lvl); VString msg]).

(** The tail shared by [Log] and [Logf] (lines 145-151, 165-171). *)
Definition fatal_exit : Prog State unit :=
  _ <- Flush ;;
  l <- self ;;
  exec when_set (logFile l) os.Close ;;
  lift (os.Exit 1).

(** lines 135-152 *)
Definition Log (lvl : LogLevel) (args : list value) : Prog State unit :=
  exec Lock ;;
  defer Unlock (
    l <- self ;;
    if lvl <? logLevel l then ret tt
    else
      msg <- formatMessage lvl args ;;
      exec lift (log.Println (logger l) msg) ;;
      if lvl =? LogLevelFatal then fatal_exit else ret tt).

(** lines 155-172 *)
Definition Logf (lvl : LogLevel) (format : string) (args : list value)
  : Prog State unit :=
  exec Lock ;;
  defer Unlock (
    l <- self ;;
    if lvl <? logLevel l then ret tt
    else
      msg <- formatMessagef lvl format args ;;
      exec lift (log.Println (logger l) msg) ;;
      if lvl =? LogLevelFatal then fatal_exit else ret tt).

(** lines 175-202 *)
Definition Debug (args : list value) := Log LogLevelDebug args.
Definition Debugf (format : string) (args : list value) := Logf LogLevelDebug format args.
Definition Info (args : list value) := Log LogLevelInfo args.
Definition Infof (format : string) (args : list value) := Logf LogLevelInfo format args.
Definition Warn (args : list value) := Log LogLevelWarning args.
Definition Warnf (format : string) (args : list value) := Logf LogLevelWarning format args.
Definition Error (args : list value) := Log LogLevelError args.
Definition Errorf (format : string) (args : list value) := Logf LogLevelError format args.
Definition Fatal (args : list value) := Log LogLevelFatal args.
Definition Fatalf (format : string) (args : list value) := Logf LogLevelFatal format args.

End V1.

(* ===================================================================== *)
(** * package logger, second variant ([logger.go], lines 202-417) *)
(* ===================================================================== *)

Module V2.

Import fmt.

Record LogExtended := mkLogExtended {
  bufferWriter : option nat;  (* [*bufio.Writer], [None] for nil *)
  logFile : option nat;       (* [*os.File], [None] for nil *)
  logLevel : LogLevel;
  logger : log.Logger;
  mu : sync.RWMutex }.

Definition State : Type := LogExtended * World.

Definition set_bufferWriter (b : option nat) (l : LogExtended) : LogExtended :=
  mkLogExtended b (logFile l) (logLevel l) (logger l) (mu l).
Definition set_logFile (f : option nat) (l : LogExtended) : LogExtended :=
  mkLogExtended (bufferWriter l) f (logLevel l) (logger l) (mu l).
Definition set_logLevel (lvl : LogLevel) (l : LogExtended) : LogExtended :=
  mkLogExtended (bufferWriter l) (logFile l) lvl (logger l) (mu l).
Definition set_logger (lg : log.Logger) (l : LogExtended) : LogExtended :=
  mkLogExtended (bufferWriter l) (logFile l) (logLevel l) lg (mu l).
Definition set_mu (m : sync.RWMutex) (l : LogExtended) : LogExtended :=
  mkLogExtended (bufferWriter l) (logFile l) (logLevel l) (logger l) m.

Definition self : Prog State LogExtended := fun s => Returned (fst s) s.
Definition update (f : LogExtended -> LogExtended) : Prog State unit :=
  fun s => Returned tt (f (fst s), snd s).

Definition mu_step (op : sync.RWMutex -> sync.attempt) : Prog State unit :=
  sync.step (fun s : State => mu (fst s)) (fun m s => (set_mu m (fst s), snd s)) op.
Definition Lock : Prog State unit := mu_step sync.Lock.
Definition Unlock : Prog State unit := mu_step sync.Unlock.
Definition RLock : Prog State unit := mu_step sync.RLock.
Definition RUnlock : Prog State unit := mu_step sync.RUnlock.

Definition when_set {A} (p : option nat) (m : nat -> Prog World A) : Prog State unit :=
  match p with
  | Some h => _ <- lift (m h) ;; ret tt
  | None => ret tt
  end.

(** lines 274-281 *)
Definition New : Prog World LogExtended :=
  bufferWriter <- bufio.NewWriter (Direct Stdout) ;;
  ret (mkLogExtended (Some bufferWriter) None LogLevelInfo
                     (log.New bufferWriter "" 0) sync.zero).

(** lines 283-287 *)
Definition SetLogLevel (level : LogLevel) : Prog State unit :=
  exec Lock ;;
  defer Unlock (update (set_logLevel level)).

(** lines 289-313 *)
Definition SetOutput (filepath : string) : Prog State (option error) :=
  exec Lock ;;
  defer Unlock (
    l <- self ;;
    exec when_set (bufferWriter l) bufio.Flush ;;
    exec when_set (logFile l) os.Close ;;
    r <- lift (os.OpenFile filepath) ;;
    match r with
    | inr err => ret (Some err)
    | inl file =>
        let multiWriter := MultiWriter [FileDev file; Stdout] in
        bufferWriter <- lift (bufio.NewWriter multiWriter) ;;
        exec update (set_logger (log.New bufferWriter "" 0)) ;;
        exec update (set_bufferWriter (Some bufferWriter)) ;;
        exec update (set_logFile (Some file)) ;;
        ret None
    end).

(** lines 315-328 *)
Definition Flush : Prog State (option error) :=
  exec Lock ;;
  defer Unlock (
    l <- self ;;
    err <- match bufferWriter l with
           | Some b => lift (bufio.Flush b)
           | None => ret None
           end ;;
    match err with
    | Some e => ret (Some e)
    | None =>
        match logFile l with
        | Some f => lift (os.Sync f)
        | None => ret None
        end
    end).

(** lines 330-346 *)
Definition Close : Prog State (option error) :=
  exec Lock ;;
  defer Unlock (
    l <- self ;;
    err <- match bufferWriter l with
           | Some b => lift (bufio.Flush b)
           | None => ret None
           end ;;
    match logFile l with
    | Some f =>
        e <- lift (os.Close f) ;;
        match e with
        | Some _ => ret e
        | None => ret err
        end
    | None => ret err
    end).

(** lines 348-351 *)
Definition formatMessage (level : LogLevel) (args : list value) : Prog State string :=
  now <- lift os.Now ;;
  let timestamp := time.Format now in
  ret (Sprintf "[%s] [%s] %v"
         [VString timestamp; VString (String_ level); VString (Sprint args)]).

(** lines 353-356 *)
Definition formatMessagef (format : string) (level : LogLevel) (args : list value)
  : Prog State string :=
  now <- lift os.Now ;;
  let timestamp := time.Format now in
  ret (Sprintf "[%s] [%s] %s"
         [VString timestamp; VString (String_ level); VString (Sprintf format args)]).

(** The tail shared by [Log] and [Logf] (lines 372-378, 397-403). *)
Definition fatal_exit : Prog State unit :=
  _ <- Flush ;;
  l <- self ;;
  exec when_set (logFile l) os.Close ;;
  lift (os.Exit 1).

(** lines 358-381 *)
Definition Log (level : LogLevel) (args : list value) : Prog State unit :=
  exec RLock ;;
  l <- self ;;
  if level <? logLevel l then
    exec RUnlock ;;
    ret tt
  else
    exec RUnlock ;;
    exec Lock ;;
    msg <- formatMessage level args ;;
    l <- self ;;
    exec lift (log.Println (logger l) msg) ;;
    exec (if level =? LogLevelFatal then fatal_exit else ret tt) ;;
    Unlock.

(** lines 383-406 *)
Definition Logf (format : string) (level : LogLevel) (args : list value)
  : Prog State unit :=
  exec RLock ;;
  l <- self ;;
  if level <? logLevel l then
    exec RUnlock ;;
    ret tt
  else
    exec RUnlock ;;
    exec Lock ;;
    msg <- formatMessagef format level args ;;
    l <- self ;;
    exec lift (log.Println (logger l) msg) ;;
    exec (if level =? LogLevelFatal then fatal_exit else ret tt) ;;
    Unlock.

(** lines 408-417 *)
Definition Debug (args : list value) := Log LogLevelDebug args.
Definition Debugf (format : string) (args : list value) := Logf format LogLevelDebug args.
Definition Info (args : list value) := Log LogLevelInfo args.
Definition Infof (format : string) (args : list value) := Logf format LogLevelInfo args.
Definition Warn (args : list value) := Log LogLevelWarning args.
Definition Warnf (format : string) (args : list value) := Logf format LogLevelWarning args.
Definition Error (args : list value) := Log LogLevelError args.
Definition Errorf (format : string) (args : list value) := Logf format LogLevelError args.
Definition Fatal (args : list value) := Log LogLevelFatal args.
Definition Fatalf (format : string) (args : list value) := Logf format LogLevelFatal args.

End V2.

(* ===================================================================== *)
(** * package mlog ([mlog/mlog.go]) *)
(* ===================================================================== *)

Module mlog.

(** [var mlog = logger.New()], run when the package is initialised. *)
Definition mlog : Prog World V2.LogExtended := V2.New.

Definition SetLogLevel := V2.SetLogLevel.
Definition SetOutput := V2.SetOutput.
Definition Flush := V2.Flush.
Definition Close := V2.Close.
Definition Log := V2.Log.
Definition Logf := V2.Logf.
Definition Debug := V2.Debug.
Definition Debugf := V2.Debugf.
Definition Info := V2.Info.
Definition Infof := V2.Infof.
Definition Warn := V2.Warn.
Definition Warnf := V2.Warnf.
Definition Error := V2.Error.
Definition Errorf := V2.Errorf.
Definition Fatal := V2.Fatal.
Definition Fatalf := V2.Fatalf.

End mlog.

(* ===================================================================== *)
(** * Observations on worlds *)
(* ===================================================================== *)

Definition is_write (e : event) : bool :=
  match e with EvWrite _ _ _ => true | _ => false end.

Definition is_sync (e : event) : bool :=
  match e with EvSync _ _ => true | _ => false end.

(** The trace without the device writes: clock readings, opens, syncs,
    closes and exits. *)
Definition quiet (t : list event) : list event :=
  List.filter (fun e => negb (is_write e)) t.

(** The number of syncs asked for so far. *)
Definition syncs (t : list event) : nat := length (List.filter is_sync t).

(** The bytes a device has received. *)
Definition dev_data (w : World) (d : Dev) : string :=
  match d with
  | Stdout => console w
  | FileDev fd => match files w !! fd with Some f => f_data f | None => "" end
  end.

(** Why a write to a device cannot go through, if it cannot. *)
Definition dev_error (w : World) (d : Dev) : option error :=
  match d with
  | Stdout => if fails w Stdout then Some ErrDevice else None
  | FileDev fd => os.file_error fd w
  end.

Definition sink_devs (s : Sink) : list Dev :=
  match s with Direct d => [d] | MultiWriter ds => ds end.

(** [w'] differs from [w] by device writes and buffer contents only. *)
Record only_wrote (w w' : World) : Prop := mk_only_wrote {
  ow_clock : clock w' = clock w;
  ow_can_open : can_open w' = can_open w;
  ow_fails : fails w' = fails w;
  ow_quiet : quiet (trace w') = quiet (trace w);
  ow_closed : map f_closed (files w') = map f_closed (files w);
  ow_names : map f_name (files w') = map f_name (files w);
  ow_sinks : map wr (writers w') = map wr (writers w) }.

(** The sink of writer [h] takes writes: the writer holds no earlier
    error, its devices are distinct, open and not failing. *)
Definition healthy (w : World) (h : nat) : Prop :=
  exists b, writers w !! h = Some b /\ err b = None /\
            NoDup (sink_devs (wr b)) /\
            forall d, In d (sink_devs (wr b)) -> dev_error w d = None.

(** What device [d] has received or will receive at the next flush of
    writer [h]. *)
Definition stream (w : World) (h : nat) (d : Dev) : string :=
  match writers w !! h with
  | Some b => dev_data w d ++ buf b
  | None => dev_data w d
  end.

(** The line of section 4.2: [[timestamp] [LEVELNAME] message]. *)
Definition spec_line (timestamp : string) (lvl : LogLevel) (message : string) : string :=
  "[" ++ timestamp ++ "] [" ++ String_ lvl ++ "] " ++ message.

Definition two_digits (s : string) : bool :=
  match s with
  | String a (String b "") => time.is_digit a && time.is_digit b
  | _ => false
  end.

Definition four_digits (s : string) : bool :=
  match s with
  | String a (String b (String c (String d ""))) =>
      time.is_digit a && time.is_digit b && time.is_digit c && time.is_digit d
  | _ => false
  end.

(** The write lock as a goroutine that took it holds it. *)
Definition held : sync.RWMutex := sync.mkRWMutex true 0.

(** What holds of a logger between calls: the logger writes to the
    buffered writer the struct also points to, that writer exists, the
    logger's prefix is empty, and the backing file, if any, exists. *)
Definition V1_wf (s : V1.State) : Prop :=
  V1.bufWriter (fst s) = Some (log.out (V1.logger (fst s))) /\
  is_Some (writers (snd s) !! log.out (V1.logger (fst s))) /\
  log.prefix (V1.logger (fst s)) = "" /\
  (forall f, V1.logFile (fst s) = Some f -> is_Some (files (snd s) !! f)).

Definition V2_wf (s : V2.State) : Prop :=
  V2.bufferWriter (fst s) = Some (log.out (V2.logger (fst s))) /\
  is_Some (writers (snd s) !! log.out (V2.logger (fst s))) /\
  log.prefix (V2.logger (fst s)) = "" /\
  (forall f, V2.logFile (fst s) = Some f -> is_Some (files (snd s) !! f)).

(** [logged h line w w']: between [w] and [w'] one line was written
    through buffered writer [h], and nothing else happened.
    - the environment is the same;
    - the clock was read once, and no file was opened, synced or closed
      and the process did not exit;
    - no writer changed its sink, and a device outside the sink of [h]
      received nothing;
    - when the line and its terminator fit in the free space of the
      buffer they were appended there, and no device was touched;
    - when the sink takes writes nothing was lost: on each of its devices,
      what was received plus what is buffered grew by the line and exactly
      one line terminator. *)
Record logged (h : nat) (line : string) (w w' : World) : Prop := mk_logged {
  lg_clock : clock w' = clock w;
  lg_can_open : can_open w' = can_open w;
  lg_fails : fails w' = fails w;
  lg_quiet : quiet (trace w') = (quiet (trace w) ++ [EvNow])%list;
  lg_closed : map f_closed (files w') = map f_closed (files w);
  lg_sinks : map wr (writers w') = map wr (writers w);
  lg_others : forall b d,
    writers w !! h = Some b -> ~ In d (sink_devs (wr b)) ->
    dev_data w' d = dev_data w d;
  lg_fits : forall b,
    writers w !! h = Some b -> err b = None ->
    (len (line ++ nl) <= bufio.Available b)%nat ->
    trace w' = (trace w ++ [EvNow])%list /\
    console w' = console w /\ files w' = files w /\
    writers w' !! h = Some (mkWriter (wr b) (buf b ++ line ++ nl) None);
  lg_stream : forall b,
    writers w !! h = Some b -> err b = None ->
    NoDup (sink_devs (wr b)) ->
    (forall d, In d (sink_devs (wr b)) -> dev_error w d = None) ->
    exists b',
      writers w' !! h = Some b' /\ wr b' = wr b /\ err b' = None /\
      forall d, In d (sink_devs (wr b)) ->
                dev_data w' d ++ buf b' = dev_data w d ++ buf b ++ line ++ nl }.

(** ** Concrete machines and states for the examples *)

Definition noon : time.Time := time.mkTime 2024 3 7 12 0 0.

(** A machine that has just started: ["app.log"] is the only path that
    can be opened, files take writes, and the console takes writes unless
    [console_down]. *)
Definition machine (console_down : bool) : World :=
  mkWorld noon (String.eqb "app.log")
          (fun d => match d with Stdout => console_down | FileDev _ => false end)
          "" [] [] [].

(** The logger and the world right after [New()]. *)
Definition V1_fresh (w : World) : V1.State :=
  (V1.mkLogExtended sync.zero (log.New (length (writers w)) "" log.Lmsgprefix)
                    (Some (length (writers w))) LogLevelInfo None,
   set_writers (writers w ++ [mkWriter (Direct Stdout) "" None]) w).

Definition V2_fresh (w : World) : V2.State :=
  (V2.mkLogExtended (Some (length (writers w))) None LogLevelInfo
                    (log.New (length (writers w)) "" 0) sync.zero,
   set_writers (writers w ++ [mkWriter (Direct Stdout) "" None]) w).

(** What a call returned, if it returned. *)
Definition result {S A} (o : outcome S A) : option A :=
  match o with Returned a _ => Some a | _ => None end.

(** ** Scenarios *)

(** Redirect to a file that can be opened, then to one that cannot, then
    log and flush (second variant). *)
Definition V2_redirect_twice : Prog V2.State (option error * option error * option error) :=
  a <- V2.SetOutput "app.log" ;;
  b <- V2.SetOutput "/no/such/dir/x.log" ;;
  _ <- V2.Info [fmt.VString "still here"] ;;
  c <- V2.Flush ;;
  ret (a, b, c).

(** The same calls on the first variant. *)
Definition V1_redirect_twice : Prog V1.State (option error * option error * option error) :=
  a <- V1.SetOutput "app.log" ;;
  b <- V1.SetOutput "/no/such/dir/x.log" ;;
  _ <- V1.Info [fmt.VString "still here"] ;;
  c <- V1.Flush ;;
  ret (a, b, c).

(** Redirect to a file, log and flush. *)
Definition V1_redirect_log_flush : Prog V1.State (option error * option error) :=
  a <- V1.SetOutput "app.log" ;;
  _ <- V1.Info [fmt.VString "hello"] ;;
  c <- V1.Flush ;;
  ret (a, c).

Definition V2_redirect_log_flush : Prog V2.State (option error * option error) :=
  a <- V2.SetOutput "app.log" ;;
  _ <- V2.Info [fmt.VString "hello"] ;;
  c <- V2.Flush ;;
  ret (a, c).

(** ** Further observations *)

Definition is_close (e : event) : bool :=
  match e with EvClose _ _ => true | _ => false end.

(** The number of closes asked for so far. *)
Definition closes (t : list event) : nat := length (List.filter is_close t).

(** No file is open except, possibly, the backing file [lf]. *)
Definition only_backing_open (lf : option nat) (w : World) : Prop :=
  forall fd fl, files w !! fd = Some fl -> f_closed fl = false -> lf = Some fd.

(** A fresh logger redirected to ["app.log"]. *)
Definition V1_on_file (w : World) : V1.State :=
  final (V1.SetOutput "app.log" (V1_fresh w)).

Definition V2_teeing (w : World) : V2.State :=
  final (V2.SetOutput "app.log" (V2_fresh w)).

(** The state of a logger in which no file but its backing file is
    open. *)
Definition V1_tidy (s : V1.State) : Prop :=
  only_backing_open (V1.logFile (fst s)) (snd s).

Definition V2_tidy (s : V2.State) : Prop :=
  only_backing_open (V2.logFile (fst s)) (snd s).

(* ===================================================================== *)
(** * Lemmas on strings *)
(* ===================================================================== *)

Lemma app_empty_r (s : string) : s ++ "" = s.
Proof. induction s as [|c s IH]; simpl; [reflexivity | now rewrite IH]. Qed.

Lemma app_assoc_s (a b c : string) : (a ++ b) ++ c = a ++ b ++ c.
Proof. induction a as [|x a IH]; simpl; [reflexivity | now rewrite IH]. Qed.

Lemma str_take_drop (n : nat) (s : string) : str_take n s ++ str_drop n s = s.
Proof.
  revert s; induction n as [|n IH]; intros [|c s]; simpl; try reflexivity.
  now rewrite IH.
Qed.

Lemma count_char_app (c : ascii) (a b : string) :
  count_char c (a ++ b) = (count_char c a + count_char c b)%nat.
Proof. induction a as [|x a IH]; simpl; [reflexivity | rewrite IH; lia]. Qed.

Lemma last_char_app_nl (s : string) : last_char (s ++ nl) = Some newline.
Proof.
  induction s as [|c s IH]; [reflexivity|].
  simpl. rewrite IH. destruct (s ++ nl) eqn:E; [|reflexivity].
  destruct s; discriminate.
Qed.

(* ===================================================================== *)
(** * Lemmas on the process model *)
(* ===================================================================== *)

Lemma only_wrote_refl (w : World) : only_wrote w w.
Proof. now constructor. Qed.

Lemma only_wrote_trans (w1 w2 w3 : World) :
  only_wrote w1 w2 -> only_wrote w2 w3 -> only_wrote w1 w3.
Proof.
  intros [] []; constructor; etransitivity; eassumption.
Qed.

Lemma quiet_app (t1 t2 : list event) :
  quiet (t1 ++ t2)%list = (quiet t1 ++ quiet t2)%list.
Proof. apply List.filter_app. Qed.

Lemma syncs_app (t1 t2 : list event) :
  syncs (t1 ++ t2)%list = (syncs t1 + syncs t2)%nat.
Proof. unfold syncs. now rewrite List.filter_app, length_app. Qed.

Lemma syncs_quiet (t : list event) : syncs (quiet t) = syncs t.
Proof.
  unfold syncs, quiet. induction t as [|e t IH]; [reflexivity|].
  destruct e; simpl; auto; now rewrite IH.
Qed.

Lemma map_alter_same {A B} (f : A -> B) (g : A -> A) (i : nat) (l : list A) :
  (forall x, f (g x) = f x) -> map f (alter g i l) = map f l.
Proof.
  intros Hfg. revert i; induction l as [|x l IH]; intros [|i]; simpl;
    try reflexivity.
  - now rewrite Hfg.
  - f_equal. apply IH.
Qed.

Lemma map_insert_same {A B} (f : A -> B) (i : nat) (x y : A) (l : list A) :
  l !! i = Some y -> f x = f y -> map f (<[i := x]> l) = map f l.
Proof.
  revert i; induction l as [|z l IH]; intros [|i]; simpl; try discriminate.
  - intros [= ->] ->. reflexivity.
  - intros H1 H2. f_equal. now apply IH.
Qed.

Lemma lookup_map {A B} (f : A -> B) (l : list A) (i : nat) :
  map f l !! i = f <$> l !! i.
Proof.
  revert i; induction l as [|x l IH]; intros [|i]; simpl; try reflexivity.
  apply IH.
Qed.

Lemma dev_error_same (w w' : World) (d : Dev) :
  fails w' = fails w -> map f_closed (files w') = map f_closed (files w) ->
  dev_error w' d = dev_error w d.
Proof.
  intros Hf Hc. destruct d as [|fd]; simpl.
  - now rewrite Hf.
  - unfold os.file_error. rewrite Hf.
    assert (H : f_closed <$> files w' !! fd = f_closed <$> files w !! fd).
    { rewrite <- !lookup_map. now rewrite Hc. }
    destruct (files w' !! fd), (files w !! fd); simpl in H; try discriminate;
      [injection H as ->|]; reflexivity.
Qed.

Lemma only_wrote_dev_error (w w' : World) (d : Dev) :
  only_wrote w w' -> dev_error w' d = dev_error w d.
Proof. intros How. apply dev_error_same; apply How. Qed.

Lemma only_wrote_writer (w w' : World) (h : nat) :
  only_wrote w w' -> is_Some (writers w !! h) -> is_Some (writers w' !! h).
Proof.
  intros [_ _ _ _ _ _ Hs] H. apply lookup_lt_is_Some in H.
  apply lookup_lt_is_Some.
  apply (f_equal (@length _)) in Hs. rewrite !length_map in Hs. lia.
Qed.

Lemma only_wrote_emit_write (w : World) d p r :
  only_wrote w (emit (EvWrite d p r) w).
Proof.
  constructor; simpl; try reflexivity.
  rewrite quiet_app. simpl. apply app_nil_r.
Qed.

Lemma only_wrote_set_writer (w : World) (h : nat) (b b' : Writer) :
  writers w !! h = Some b -> wr b' = wr b -> only_wrote w (bufio.set_writer h b' w).
Proof.
  intros Hb Hwr. constructor; simpl; try reflexivity.
  now apply map_insert_same with (y := b).
Qed.

Lemma os_Write_only_wrote (d : Dev) (p : string) (w : World) :
  only_wrote w (snd (os.Write d p w)).
Proof.
  destruct d as [|fd]; simpl.
  - destruct (fails w Stdout); simpl.
    + apply only_wrote_emit_write.
    + constructor; simpl; try reflexivity.
      rewrite quiet_app. simpl. apply app_nil_r.
  - destruct (os.file_error fd w); simpl.
    + apply only_wrote_emit_write.
    + constructor; simpl; try reflexivity.
      * rewrite quiet_app. simpl. apply app_nil_r.
      * now apply map_alter_same.
      * now apply map_alter_same.
Qed.

Lemma os_Write_writers (d : Dev) (p : string) (w : World) :
  writers (snd (os.Write d p w)) = writers w.
Proof.
  destruct d as [|fd]; simpl.
  - now destruct (fails w Stdout).
  - now destruct (os.file_error fd w).
Qed.

Lemma write_all_only_wrote (ds : list Dev) (p : string) (w : World) :
  only_wrote w (snd (io.write_all ds p w)) /\
  writers (snd (io.write_all ds p w)) = writers w.
Proof.
  revert w; induction ds as [|d ds IH]; intros w; simpl.
  - split; [apply only_wrote_refl | reflexivity].
  - pose proof (os_Write_only_wrote d p w) as H1.
    pose proof (os_Write_writers d p w) as H2.
    destruct (os.Write d p w) as [[e|] w1]; simpl in *.
    + now split.
    + destruct (IH w1) as [H3 H4]. split.
      * eapply only_wrote_trans; eassumption.
      * congruence.
Qed.

Lemma io_Write_only_wrote (s : Sink) (p : string) (w : World) :
  only_wrote w (snd (io.Write s p w)) /\
  writers (snd (io.Write s p w)) = writers w.
Proof.
  destruct s as [d|ds]; simpl.
  - split; [apply os_Write_only_wrote | apply os_Write_writers].
  - apply write_all_only_wrote.
Qed.

(** A write to a valid buffered writer always returns; whatever it did is
    device writes and buffering. *)
Lemma bufio_Write_returns (h : nat) (p : string) (w : World) :
  is_Some (writers w !! h) ->
  exists r w', bufio.Write h p w = Returned r w' /\ only_wrote w w'.
Proof.
  intros [b Hb]. unfold bufio.Write. rewrite Hb.
  destruct (err b) as [e|]; [eauto using only_wrote_refl|].
  destruct (len p <=? bufio.Available b)%nat.
  { eexists _, _; split; [reflexivity|]. now apply only_wrote_set_writer with b. }
  destruct (len (buf b) =? 0)%nat.
  { destruct (io_Write_only_wrote (wr b) p w) as [H1 H2].
    destruct (io.Write (wr b) p w) as [[e|] w1]; simpl in *.
    - eexists _, _; split; [reflexivity|].
      eapply only_wrote_trans; [exact H1|].
      apply only_wrote_set_writer with b; [congruence | reflexivity].
    - eauto. }
  set (full := buf b ++ str_take (bufio.Available b) p).
  set (rest := str_drop (bufio.Available b) p).
  destruct (io_Write_only_wrote (wr b) full w) as [H1 H2].
  destruct (io.Write (wr b) full w) as [[e|] w1]; simpl in *.
  { eexists _, _; split; [reflexivity|].
    eapply only_wrote_trans; [exact H1|].
    apply only_wrote_set_writer with b; [congruence | reflexivity]. }
  destruct (len rest <=? bufio.defaultBufSize)%nat.
  { eexists _, _; split; [reflexivity|].
    eapply only_wrote_trans; [exact H1|].
    apply only_wrote_set_writer with b; [congruence | reflexivity]. }
  destruct (io_Write_only_wrote (wr b) rest w1) as [H3 H4].
  destruct (io.Write (wr b) rest w1) as [[e|] w2]; simpl in *;
    (eexists _, _; split; [reflexivity|];
     eapply only_wrote_trans; [exact H1|];
     eapply only_wrote_trans; [exact H3|];
     apply only_wrote_set_writer with b; [congruence | reflexivity]).
Qed.

(** The same for a flush. *)
Lemma bufio_Flush_returns (h : nat) (w : World) :
  is_Some (writers w !! h) ->
  exists r w', bufio.Flush h w = Returned r w' /\ only_wrote w w'.
Proof.
  intros [b Hb]. unfold bufio.Flush. rewrite Hb.
  destruct (err b) as [e|]; [eauto using only_wrote_refl|].
  destruct (len (buf b) =? 0)%nat; [eauto using only_wrote_refl|].
  destruct (io_Write_only_wrote (wr b) (buf b) w) as [H1 H2].
  destruct (io.Write (wr b) (buf b) w) as [[e|] w1]; simpl in *;
    (eexists _, _; split; [reflexivity|];
     eapply only_wrote_trans; [exact H1|];
     apply only_wrote_set_writer with b; [congruence | reflexivity]).
Qed.

(** A device that is not written to receives nothing. *)
Lemma os_Write_other (d d' : Dev) (p : string) (w : World) :
  d' <> d -> dev_data (snd (os.Write d p w)) d' = dev_data w d'.
Proof.
  intros Hne. destruct d as [|fd]; simpl.
  - destruct (fails w Stdout); simpl; destruct d'; simpl; congruence.
  - destruct (os.file_error fd w); simpl; destruct d' as [|fd']; simpl;
      try reflexivity.
    rewrite list_lookup_alter_ne by congruence. reflexivity.
Qed.

Lemma write_all_other (ds : list Dev) (d' : Dev) (p : string) (w : World) :
  ~ In d' ds -> dev_data (snd (io.write_all ds p w)) d' = dev_data w d'.
Proof.
  revert w; induction ds as [|d ds IH]; intros w Hn; simpl; [reflexivity|].
  pose proof (os_Write_other d d' p w) as H1.
  destruct (os.Write d p w) as [[e|] w1]; simpl in *.
  - apply H1. intros ->. apply Hn. now left.
  - rewrite IH by (intros H; apply Hn; now right).
    apply H1. intros ->. apply Hn. now left.
Qed.

Lemma io_Write_other (s : Sink) (d' : Dev) (p : string) (w : World) :
  ~ In d' (sink_devs s) -> dev_data (snd (io.Write s p w)) d' = dev_data w d'.
Proof.
  destruct s as [d|ds]; simpl; intros Hn.
  - apply os_Write_other. intros ->. apply Hn. now left.
  - now apply write_all_other.
Qed.

(** A write to a device that takes it appends the bytes there and
    nowhere else. *)
Lemma os_Write_ok (d : Dev) (p : string) (w : World) :
  dev_error w d = None ->
  exists w', os.Write d p w = (None, w') /\
             dev_data w' d = dev_data w d ++ p /\
             (forall d', d' <> d -> dev_data w' d' = dev_data w d').
Proof.
  destruct d as [|fd]; simpl; intros Hok.
  - destruct (fails w Stdout); [discriminate|].
    eexists; split; [reflexivity|]. split; [reflexivity|].
    intros [|fd'] Hne; [congruence | reflexivity].
  - rewrite Hok. eexists; split; [reflexivity|]. simpl.
    unfold os.file_error in Hok.
    destruct (files w !! fd) as [f|] eqn:Hf; [|discriminate].
    split.
    + rewrite list_lookup_alter_eq, Hf. reflexivity.
    + intros [|fd'] Hne; simpl; [reflexivity|].
      rewrite list_lookup_alter_ne by congruence. reflexivity.
Qed.

Lemma write_all_ok (ds : list Dev) (p : string) (w : World) :
  NoDup ds -> (forall d, In d ds -> dev_error w d = None) ->
  exists w', io.write_all ds p w = (None, w') /\
             (forall d, In d ds -> dev_data w' d = dev_data w d ++ p).
Proof.
  revert w; induction ds as [|d ds IH]; intros w Hnd Hok; simpl.
  - eexists; split; [reflexivity|]. intros d [].
  - apply NoDup_cons in Hnd as [Hnotin Hnd].
    destruct (os_Write_ok d p w) as (w1 & E1 & Hd & Hother);
      [apply Hok; now left|].
    rewrite E1.
    pose proof (os_Write_only_wrote d p w) as Hw. rewrite E1 in Hw. simpl in Hw.
    destruct (IH w1 Hnd) as (w2 & E2 & Hds).
    { intros d' Hin. rewrite (only_wrote_dev_error _ _ _ Hw).
      apply Hok. now right. }
    exists w2; split; [exact E2|].
    intros d' [<-|Hin].
    + pose proof (write_all_other ds d p w1) as Hkeep.
      rewrite E2 in Hkeep. simpl in Hkeep. rewrite Hkeep; [exact Hd|].
      intros Hin. apply Hnotin. now apply list_elem_of_In.
    + rewrite (Hds d' Hin). rewrite Hother; [reflexivity|].
      intros ->. apply Hnotin. now apply list_elem_of_In.
Qed.

Lemma io_Write_ok (s : Sink) (p : string) (w : World) :
  NoDup (sink_devs s) -> (forall d, In d (sink_devs s) -> dev_error w d = None) ->
  exists w', io.Write s p w = (None, w') /\
             (forall d, In d (sink_devs s) -> dev_data w' d = dev_data w d ++ p).
Proof.
  destruct s as [d|ds]; simpl; intros Hnd Hok.
  - destruct (os_Write_ok d p w) as (w' & E & Hd & _); [apply Hok; now left|].
    exists w'; split; [exact E|]. intros d' [<-|[]]. exact Hd.
  - now apply write_all_ok.
Qed.

Lemma dev_data_set_writer (h : nat) (b : Writer) (w : World) (d : Dev) :
  dev_data (bufio.set_writer h b w) d = dev_data w d.
Proof. destruct d; reflexivity. Qed.

Lemma lookup_set_writer (h : nat) (b b0 : Writer) (w : World) :
  writers w !! h = Some b0 -> writers (bufio.set_writer h b w) !! h = Some b.
Proof.
  intros H. simpl. apply list_lookup_insert_eq. now apply lookup_lt_Some in H.
Qed.

Lemma len_zero (s : string) : (len s =? 0)%nat = true -> s = "".
Proof. destruct s; [reflexivity | discriminate]. Qed.

(** A write to a buffered writer whose sink takes writes loses nothing:
    on every device of the sink, what was received plus what is buffered
    grows by exactly the bytes written. *)
Lemma bufio_Write_ok (h : nat) (p : string) (w : World) (b : Writer) :
  writers w !! h = Some b -> err b = None ->
  NoDup (sink_devs (wr b)) ->
  (forall d, In d (sink_devs (wr b)) -> dev_error w d = None) ->
  exists w' b',
    bufio.Write h p w = Returned None w' /\
    writers w' !! h = Some b' /\ wr b' = wr b /\ err b' = None /\
    forall d, In d (sink_devs (wr b)) ->
              dev_data w' d ++ buf b' = dev_data w d ++ buf b ++ p.
Proof.
  intros Hb Herr Hnd Hok. unfold bufio.Write. rewrite Hb, Herr.
  destruct (len p <=? bufio.Available b)%nat.
  { eexists _, _; split; [reflexivity|].
    split; [eapply lookup_set_writer; eassumption|].
    do 2 (split; [reflexivity|]). intros d _. now rewrite dev_data_set_writer. }
  destruct (len (buf b) =? 0)%nat eqn:Hempty.
  { apply len_zero in Hempty.
    destruct (io_Write_ok (wr b) p w Hnd Hok) as (w1 & E1 & Hd1).
    pose proof (io_Write_only_wrote (wr b) p w) as [_ Hws].
    rewrite E1 in *. simpl in Hws.
    exists w1, b; split; [reflexivity|].
    split; [congruence|]. split; [reflexivity|]. split; [assumption|].
    intros d Hin. rewrite (Hd1 d Hin), Hempty. simpl. apply app_empty_r. }
  set (full := buf b ++ str_take (bufio.Available b) p).
  set (rest := str_drop (bufio.Available b) p).
  assert (Hsplit : forall x : string, x ++ full ++ rest = x ++ buf b ++ p).
  { intros x. unfold full, rest. now rewrite app_assoc_s, str_take_drop. }
  destruct (io_Write_ok (wr b) full w Hnd Hok) as (w1 & E1 & Hd1).
  pose proof (io_Write_only_wrote (wr b) full w) as [Hw1 Hws1].
  rewrite E1 in *. simpl in Hw1, Hws1.
  destruct (len rest <=? bufio.defaultBufSize)%nat.
  { eexists _, _; split; [reflexivity|].
    split; [eapply lookup_set_writer; rewrite Hws1; exact Hb|].
    do 2 (split; [reflexivity|]). intros d Hin.
    rewrite dev_data_set_writer, (Hd1 d Hin). simpl.
    now rewrite app_assoc_s. }
  destruct (io_Write_ok (wr b) rest w1 Hnd) as (w2 & E2 & Hd2).
  { intros d Hin. rewrite (only_wrote_dev_error _ _ _ Hw1). now apply Hok. }
  pose proof (io_Write_only_wrote (wr b) rest w1) as [_ Hws2].
  rewrite E2 in *. simpl in Hws2.
  eexists _, _; split; [reflexivity|].
  split; [eapply lookup_set_writer; rewrite Hws2, Hws1; exact Hb|].
  do 2 (split; [reflexivity|]). intros d Hin.
  rewrite dev_data_set_writer, (Hd2 d Hin), (Hd1 d Hin). simpl.
  rewrite app_empty_r, app_assoc_s. apply Hsplit.
Qed.

(** A flush of such a writer hands every buffered byte to every device of
    the sink and empties the buffer. *)
Lemma bufio_Flush_ok (h : nat) (w : World) (b : Writer) :
  writers w !! h = Some b -> err b = None ->
  NoDup (sink_devs (wr b)) ->
  (forall d, In d (sink_devs (wr b)) -> dev_error w d = None) ->
  exists w',
    bufio.Flush h w = Returned None w' /\
    writers w' !! h = Some (mkWriter (wr b) "" None) /\
    forall d, In d (sink_devs (wr b)) -> dev_data w' d = dev_data w d ++ buf b.
Proof.
  intros Hb Herr Hnd Hok. unfold bufio.Flush. rewrite Hb, Herr.
  destruct (len (buf b) =? 0)%nat eqn:Hempty.
  { apply len_zero in Hempty. exists w; split; [reflexivity|]. split.
    - rewrite Hb. destruct b; simpl in *. congruence.
    - intros d _. rewrite Hempty. symmetry. apply app_empty_r. }
  destruct (io_Write_ok (wr b) (buf b) w Hnd Hok) as (w1 & E1 & Hd1).
  pose proof (io_Write_only_wrote (wr b) (buf b) w) as [_ Hws].
  rewrite E1 in *. simpl in Hws.
  eexists; split; [reflexivity|].
  split; [eapply lookup_set_writer; rewrite Hws; exact Hb|].
  intros d Hin. rewrite dev_data_set_writer. now apply Hd1.
Qed.

Lemma bufio_Write_other (h : nat) (p : string) (w w' : World) (b : Writer) r d :
  writers w !! h = Some b -> ~ In d (sink_devs (wr b)) ->
  bufio.Write h p w = Returned r w' -> dev_data w' d = dev_data w d.
Proof.
  intros Hb Hn. unfold bufio.Write. rewrite Hb.
  destruct (err b); [now intros [= _ <-]|].
  destruct (len p <=? bufio.Available b)%nat.
  { intros [= _ <-]. apply dev_data_set_writer. }
  destruct (len (buf b) =? 0)%nat.
  { pose proof (io_Write_other (wr b) d p w Hn) as H1.
    destruct (io.Write (wr b) p w) as [[e|] w1]; simpl in H1; intros [= _ <-];
      [rewrite dev_data_set_writer|]; exact H1. }
  pose proof (io_Write_other (wr b) d
                (buf b ++ str_take (bufio.Available b) p) w Hn) as H1.
  destruct (io.Write (wr b) (buf b ++ str_take (bufio.Available b) p) w)
    as [[e|] w1]; simpl in H1.
  { intros [= _ <-]. now rewrite dev_data_set_writer. }
  destruct (len (str_drop (bufio.Available b) p) <=? bufio.defaultBufSize)%nat.
  { intros [= _ <-]. now rewrite dev_data_set_writer. }
  pose proof (io_Write_other (wr b) d (str_drop (bufio.Available b) p) w1 Hn) as H2.
  destruct (io.Write (wr b) (str_drop (bufio.Available b) p) w1) as [[e|] w2];
    simpl in H2; intros [= _ <-]; rewrite dev_data_set_writer; congruence.
Qed.

Lemma bufio_Flush_other (h : nat) (w w' : World) (b : Writer) r d :
  writers w !! h = Some b -> ~ In d (sink_devs (wr b)) ->
  bufio.Flush h w = Returned r w' -> dev_data w' d = dev_data w d.
Proof.
  intros Hb Hn. unfold bufio.Flush. rewrite Hb.
  destruct (err b); [now intros [= _ <-]|].
  destruct (len (buf b) =? 0)%nat; [now intros [= _ <-]|].
  pose proof (io_Write_other (wr b) d (buf b) w Hn) as H1.
  destruct (io.Write (wr b) (buf b) w) as [[e|] w1]; simpl in H1;
    intros [= _ <-]; now rewrite dev_data_set_writer.
Qed.

Lemma dev_error_emit (e : event) (w : World) (d : Dev) :
  dev_error (emit e w) d = dev_error w d.
Proof. destruct d; reflexivity. Qed.

Lemma dev_data_emit (e : event) (w : World) (d : Dev) :
  dev_data (emit e w) d = dev_data w d.
Proof. destruct d; reflexivity. Qed.

(** One [Write] of a line after one reading of the clock is a [logged]
    step. *)
Lemma write_line_logged (h : nat) (line : string) (w w' : World) r :
  bufio.Write h (line ++ nl) (emit EvNow w) = Returned r w' ->
  only_wrote (emit EvNow w) w' ->
  logged h line w w'.
Proof.
  intros E How. constructor.
  - apply (ow_clock _ _ How).
  - apply (ow_can_open _ _ How).
  - apply (ow_fails _ _ How).
  - rewrite (ow_quiet _ _ How). simpl. now rewrite quiet_app.
  - now rewrite (ow_closed _ _ How).
  - now rewrite (ow_sinks _ _ How).
  - intros b d Hb Hn.
    rewrite (bufio_Write_other h _ (emit EvNow w) w' b r d Hb Hn E).
    apply dev_data_emit.
  - intros b Hb Herr Hfit. unfold bufio.Write in E. simpl in E.
    rewrite Hb, Herr in E. apply Nat.leb_le in Hfit. rewrite Hfit in E.
    injection E as _ <-. do 3 (split; [reflexivity|]).
    apply lookup_set_writer with b. exact Hb.
  - intros b Hb Herr Hnd Hok.
    destruct (bufio_Write_ok h (line ++ nl) (emit EvNow w) b Hb Herr Hnd)
      as (w2 & b' & E2 & Hb' & Hwr & Herr' & Hd).
    { intros d Hin. rewrite dev_error_emit. now apply Hok. }
    rewrite E in E2. injection E2 as _ <-.
    exists b'. do 3 (split; [assumption|]).
    intros d Hin. rewrite (Hd d Hin), dev_data_emit. reflexivity.
Qed.

(* ===================================================================== *)
(** * Lemmas on formatting *)
(* ===================================================================== *)

Lemma Sprintf_line_v (ts name msg : string) :
  fmt.Sprintf "[%s] [%s] %v" [fmt.VString ts; fmt.VString name; fmt.VString msg]
  = "[" ++ ts ++ "] [" ++ name ++ "] " ++ msg.
Proof.
  unfold fmt.Sprintf. simpl. rewrite app_empty_r. reflexivity.
Qed.

Lemma Sprintf_line_s (ts name msg : string) :
  fmt.Sprintf "[%s] [%s] %s" [fmt.VString ts; fmt.VString name; fmt.VString msg]
  = "[" ++ ts ++ "] [" ++ name ++ "] " ++ msg.
Proof.
  unfold fmt.Sprintf. simpl. rewrite app_empty_r. reflexivity.
Qed.

Lemma appendInt_2 (n : nat) : (n < 100)%nat -> two_digits (time.appendInt n 2) = true.
Proof.
  intros Hn.
  assert (H : forallb (fun n => two_digits (time.appendInt n 2)) (seq 0 100) = true)
    by (vm_compute; reflexivity).
  rewrite forallb_forall in H. apply H. apply in_seq. lia.
Qed.

Lemma appendInt_4 (n : nat) :
  (n < 100 * 100)%nat -> four_digits (time.appendInt n 4) = true.
Proof.
  intros Hn.
  assert (H : forallb (fun n => four_digits (time.appendInt n 4)) (seq 0 (100 * 100)) = true)
    by (vm_compute; reflexivity).
  rewrite forallb_forall in H. apply H. apply in_seq. lia.
Qed.

(** The timestamp of a valid clock reading has the shape
    [YYYY-MM-DD HH:MM:SS]. *)
Lemma Format_layout (t : time.Time) :
  time.valid t -> time.matches time.layout (time.Format t) = true.
Proof.
  intros (Hy & Hmo & Hd & Hh & Hmi & Hs). unfold time.Format.
  pose proof (appendInt_4 (time.Year t) Hy) as Y.
  pose proof (appendInt_2 (time.Month t) ltac:(lia)) as Mo.
  pose proof (appendInt_2 (time.Day t) ltac:(lia)) as D.
  pose proof (appendInt_2 (time.Hour t) ltac:(lia)) as H.
  pose proof (appendInt_2 (time.Minute t) ltac:(lia)) as Mi.
  pose proof (appendInt_2 (time.Second t) ltac:(lia)) as S.
  destruct (time.appendInt (time.Year t) 4) as [|y1 [|y2 [|y3 [|y4 [|]]]]];
    try discriminate.
  destruct (time.appendInt (time.Month t) 2) as [|m1 [|m2 [|]]]; try discriminate.
  destruct (time.appendInt (time.Day t) 2) as [|d1 [|d2 [|]]]; try discriminate.
  destruct (time.appendInt (time.Hour t) 2) as [|h1 [|h2 [|]]]; try discriminate.
  destruct (time.appendInt (time.Minute t) 2) as [|i1 [|i2 [|]]]; try discriminate.
  destruct (time.appendInt (time.Second t) 2) as [|s1 [|s2 [|]]]; try discriminate.
  simpl in *.
  repeat match goal with
         | H : _ && _ = true |- _ => apply andb_true_iff in H as [? ?]
         end.
  repeat match goal with
         | H : time.is_digit _ = true |- _ => rewrite H; clear H
         end.
  reflexivity.
Qed.

Lemma matches_no_newline (pat s : string) :
  count_char newline pat = 0%nat -> time.matches pat s = true ->
  count_char newline s = 0%nat.
Proof.
  revert s; induction pat as [|p pat IH]; intros [|c s];
    cbn [count_char time.matches]; try discriminate; [reflexivity|].
  intros Hpat Hm. apply andb_true_iff in Hm as [Hc Hm].
  destruct (Ascii.eqb newline p) eqn:Hp; [discriminate|].
  rewrite (IH s Hpat Hm).
  destruct (Ascii.eqb_spec newline c) as [<-|_]; [|reflexivity].
  destruct (Ascii.eqb p "d"); [discriminate|].
  rewrite Ascii.eqb_sym in Hc. congruence.
Qed.

Lemma Format_no_newline (t : time.Time) :
  time.valid t -> count_char newline (time.Format t) = 0%nat.
Proof.
  intros Hv. apply matches_no_newline with time.layout; [reflexivity|].
  now apply Format_layout.
Qed.

Lemma String__no_newline (lvl : LogLevel) : count_char newline (String_ lvl) = 0%nat.
Proof.
  unfold String_.
  repeat match goal with |- context [?a =? ?b] => destruct (a =? b) end;
    reflexivity.
Qed.

Lemma spec_line_newlines (ts : string) (lvl : LogLevel) (msg : string) :
  count_char newline (spec_line ts lvl msg)
  = (count_char newline ts + count_char newline msg)%nat.
Proof.
  unfold spec_line. simpl. rewrite count_char_app. simpl.
  rewrite count_char_app, String__no_newline. simpl. lia.
Qed.

(* ===================================================================== *)
(** * Lemmas on the first variant *)
(* ===================================================================== *)

Arguments fmt.Sprintf : simpl never.
Arguments fmt.Sprint : simpl never.
Arguments time.Format : simpl never.
Arguments spec_line : simpl never.
Arguments bufio.Write : simpl never.
Arguments bufio.Flush : simpl never.
Arguments String_ : simpl never.

Ltac unfold_prog :=
  unfold defer, bind, ret, lift, sync.step, sync.Lock, sync.Unlock,
    sync.RLock, sync.RUnlock, os.Now, os.Exit in *.

Ltac unfold_v1 :=
  unfold V1.Log, V1.Logf, V1.Flush, V1.SetLogLevel, V1.SetOutput,
    V1.fatal_exit, V1.formatMessage, V1.formatMessagef, V1.when_set,
    V1.Lock, V1.Unlock, V1.mu_step, V1.self, V1.update, log.Println,
    log.header in *;
  unfold_prog.

(** Below the threshold [Log] gives the state back as it got it. *)
Lemma V1_Log_filtered (l : V1.LogExtended) (w : World) lvl args :
  sync.free (V1.mu l) -> lvl < V1.logLevel l ->
  V1.Log lvl args (l, w) = Returned tt (l, w).
Proof.
  intros Hfree Hlt. unfold sync.free in Hfree. destruct l; simpl in *; subst.
  unfold_v1. simpl.
  apply Z.ltb_lt in Hlt. rewrite Hlt. reflexivity.
Qed.

Lemma V1_Logf_filtered (l : V1.LogExtended) (w : World) lvl format args :
  sync.free (V1.mu l) -> lvl < V1.logLevel l ->
  V1.Logf lvl format args (l, w) = Returned tt (l, w).
Proof.
  intros Hfree Hlt. unfold sync.free in Hfree. destruct l; simpl in *; subst.
  unfold_v1. simpl.
  apply Z.ltb_lt in Hlt. rewrite Hlt. reflexivity.
Qed.

(** At or above the threshold [Log] reads the clock and hands one line,
    with one line terminator, to the buffered writer in one [Write]; then
    it returns, unless the level is [LogLevelFatal]: then it is parked on
    its own lock. *)
Lemma V1_Log_accepted (l : V1.LogExtended) (w : World) lvl args :
  sync.free (V1.mu l) -> V1_wf (l, w) -> V1.logLevel l <= lvl ->
  exists w',
    logged (log.out (V1.logger l))
           (spec_line (time.Format (clock w)) lvl (fmt.Sprint args)) w w' /\
    V1.Log lvl args (l, w) =
      if lvl =? LogLevelFatal then Blocked (V1.set_mu held l, w')
      else Returned tt (l, w').
Proof.
  intros Hfree (Hal & Hw & Hpre & _) Hge. unfold sync.free in Hfree.
  destruct l as [m lg bw ll lf]; simpl in *; subst.
  destruct (bufio_Write_returns (log.out lg)
              (spec_line (time.Format (clock w)) lvl (fmt.Sprint args) ++ nl)
              (emit EvNow w)) as (r & w' & E & How); [exact Hw|].
  exists w'. split; [exact (write_line_logged _ _ _ _ _ E How)|].
  unfold_v1. simpl.
  assert (Hlt : (lvl <? ll) = false) by (apply Z.ltb_ge; lia).
  rewrite Hlt.
  rewrite Sprintf_line_v, Hpre. simpl.
  unfold fmt.Sprintln. simpl. unfold spec_line in E. simpl in E. rewrite E. simpl.
  destruct (lvl =? LogLevelFatal); reflexivity.
Qed.

Lemma V1_Logf_accepted (l : V1.LogExtended) (w : World) lvl format args :
  sync.free (V1.mu l) -> V1_wf (l, w) -> V1.logLevel l <= lvl ->
  exists w',
    logged (log.out (V1.logger l))
           (spec_line (time.Format (clock w)) lvl (fmt.Sprintf format args)) w w' /\
    V1.Logf lvl format args (l, w) =
      if lvl =? LogLevelFatal then Blocked (V1.set_mu held l, w')
      else Returned tt (l, w').
Proof.
  intros Hfree (Hal & Hw & Hpre & _) Hge. unfold sync.free in Hfree.
  destruct l as [m lg bw ll lf]; simpl in *; subst.
  destruct (bufio_Write_returns (log.out lg)
              (spec_line (time.Format (clock w)) lvl (fmt.Sprintf format args) ++ nl)
              (emit EvNow w)) as (r & w' & E & How); [exact Hw|].
  exists w'. split; [exact (write_line_logged _ _ _ _ _ E How)|].
  unfold_v1. simpl.
  assert (Hlt : (lvl <? ll) = false) by (apply Z.ltb_ge; lia).
  rewrite Hlt.
  rewrite Sprintf_line_s, Hpre. simpl.
  unfold fmt.Sprintln. simpl. unfold spec_line in E. simpl in E. rewrite E. simpl.
  destruct (lvl =? LogLevelFatal); reflexivity.
Qed.

Lemma V1_SetLogLevel_spec (l : V1.LogExtended) (w : World) lvl :
  sync.free (V1.mu l) ->
  V1.SetLogLevel lvl (l, w) = Returned tt (V1.set_logLevel lvl l, w).
Proof.
  intros Hfree. unfold sync.free in Hfree. destruct l; simpl in *; subst.
  reflexivity.
Qed.

(** [Flush] is the flush of the buffered writer and nothing more. *)
Lemma V1_Flush_spec (l : V1.LogExtended) (w : World) :
  sync.free (V1.mu l) -> V1_wf (l, w) ->
  exists r w',
    bufio.Flush (log.out (V1.logger l)) w = Returned r w' /\
    only_wrote w w' /\
    V1.Flush (l, w) = Returned r (l, w').
Proof.
  intros Hfree (Hal & Hw & _). unfold sync.free in Hfree.
  destruct l as [m lg bw ll lf]; simpl in *; subst.
  destruct (bufio_Flush_returns (log.out lg) w Hw) as (r & w' & E & How).
  exists r, w'. split; [exact E|]. split; [exact How|].
  unfold_v1. simpl. rewrite E. reflexivity.
Qed.

(** A failed [SetOutput] flushes the buffer and reports the error of
    [os.OpenFile]; the struct is as it was, no file was closed and no
    writer changed its sink. *)
Lemma V1_SetOutput_fail (l : V1.LogExtended) (w : World) path :
  sync.free (V1.mu l) -> V1_wf (l, w) -> can_open w path = false ->
  exists w',
    V1.SetOutput path (l, w) = Returned (Some (PathError path)) (l, w') /\
    map f_closed (files w') = map f_closed (files w) /\
    map wr (writers w') = map wr (writers w) /\
    quiet (trace w') = (quiet (trace w) ++ [EvOpen path (Some (PathError path))])%list.
Proof.
  intros Hfree (Hal & Hw & _) Hno. unfold sync.free in Hfree.
  destruct l as [m lg bw ll lf]; simpl in *; subst.
  destruct (bufio_Flush_returns (log.out lg) w Hw) as (r & w0 & E & How).
  unfold_v1. simpl. rewrite E. simpl. unfold os.OpenFile.
  rewrite (ow_can_open _ _ How), Hno. simpl.
  eexists; split; [reflexivity|]. simpl.
  split; [apply (ow_closed _ _ How)|]. split; [apply (ow_sinks _ _ How)|].
  rewrite quiet_app, (ow_quiet _ _ How). reflexivity.
Qed.

(** A successful [SetOutput] installs a fresh buffered writer on the new
    file, and on nothing else. *)
Lemma V1_SetOutput_ok (l : V1.LogExtended) (w : World) path :
  sync.free (V1.mu l) -> V1_wf (l, w) -> can_open w path = true ->
  exists l1 w1 fd h,
    V1.SetOutput path (l, w) = Returned None (l1, w1) /\
    V1.logFile l1 = Some fd /\ V1.bufWriter l1 = Some h /\
    log.out (V1.logger l1) = h /\ log.prefix (V1.logger l1) = "" /\
    V1.mu l1 = sync.zero /\ V1.logLevel l1 = V1.logLevel l /\
    writers w1 !! h = Some (mkWriter (Direct (FileDev fd)) "" None) /\
    files w1 !! fd = Some (mkFile path false "") /\
    fails w1 = fails w /\ clock w1 = clock w.
Proof.
  intros Hfree (Hal & Hw & Hpre & Hlf) Hyes. unfold sync.free in Hfree.
  destruct l as [m lg bw ll lf]; simpl in *; subst.
  destruct (bufio_Flush_returns (log.out lg) w Hw) as (r & w0 & E & How).
  assert (Hlen : length (files w0) = length (files w)).
  { pose proof (ow_closed _ _ How) as H.
    apply (f_equal (@length _)) in H. now rewrite !length_map in H. }
  unfold_v1. simpl. rewrite E. simpl. unfold os.OpenFile.
  rewrite (ow_can_open _ _ How), Hyes. simpl.
  destruct lf as [f|]; simpl.
  - destruct (Hlf f eq_refl) as [fl Hfl]. apply lookup_lt_Some in Hfl.
    unfold os.Close, bufio.NewWriter. simpl.
    destruct ((files w0 ++ [mkFile path false ""])%list !! f) as [fl'|] eqn:Hf'; simpl.
    + destruct (f_closed fl'); simpl.
      * eexists _, _, _, _; split; [reflexivity|]. simpl.
        repeat (split; [first [reflexivity | assumption]|]).
        split; [apply list_lookup_middle; reflexivity|].
        split; [apply list_lookup_middle; reflexivity|].
        split; [apply (ow_fails _ _ How) | apply (ow_clock _ _ How)].
      * eexists _, _, _, _; split; [reflexivity|]. simpl.
        repeat (split; [first [reflexivity | assumption]|]).
        split; [apply list_lookup_middle; reflexivity|].
        split.
        { rewrite list_lookup_alter_ne by lia. apply list_lookup_middle; reflexivity. }
        split; [apply (ow_fails _ _ How) | apply (ow_clock _ _ How)].
    + eexists _, _, _, _; split; [reflexivity|]. simpl.
      repeat (split; [first [reflexivity | assumption]|]).
      split; [apply list_lookup_middle; reflexivity|].
      split; [apply list_lookup_middle; reflexivity|].
      split; [apply (ow_fails _ _ How) | apply (ow_clock _ _ How)].
  - unfold bufio.NewWriter. simpl.
    eexists _, _, _, _; split; [reflexivity|]. simpl.
    repeat (split; [first [reflexivity | assumption]|]).
    split; [apply list_lookup_middle; reflexivity|].
    split; [apply list_lookup_middle; reflexivity|].
    split; [apply (ow_fails _ _ How) | apply (ow_clock _ _ How)].
Qed.

(* ===================================================================== *)
(** * Lemmas on the second variant *)
(* ===================================================================== *)

Ltac unfold_v2 :=
  unfold V2.Log, V2.Logf, V2.Flush, V2.Close, V2.SetLogLevel, V2.SetOutput,
    V2.fatal_exit, V2.formatMessage, V2.formatMessagef, V2.when_set,
    V2.Lock, V2.Unlock, V2.RLock, V2.RUnlock, V2.mu_step, V2.self,
    V2.update, log.Println, log.header in *;
  unfold_prog.

Lemma V2_Log_filtered (l : V2.LogExtended) (w : World) level args :
  sync.free (V2.mu l) -> level < V2.logLevel l ->
  V2.Log level args (l, w) = Returned tt (l, w).
Proof.
  intros Hfree Hlt. unfold sync.free in Hfree. destruct l; simpl in *; subst.
  unfold_v2. simpl.
  apply Z.ltb_lt in Hlt. rewrite Hlt. reflexivity.
Qed.

Lemma V2_Logf_filtered (l : V2.LogExtended) (w : World) format level args :
  sync.free (V2.mu l) -> level < V2.logLevel l ->
  V2.Logf format level args (l, w) = Returned tt (l, w).
Proof.
  intros Hfree Hlt. unfold sync.free in Hfree. destruct l; simpl in *; subst.
  unfold_v2. simpl.
  apply Z.ltb_lt in Hlt. rewrite Hlt. reflexivity.
Qed.

Lemma V2_Log_accepted (l : V2.LogExtended) (w : World) level args :
  sync.free (V2.mu l) -> V2_wf (l, w) -> V2.logLevel l <= level ->
  exists w',
    logged (log.out (V2.logger l))
           (spec_line (time.Format (clock w)) level (fmt.Sprint args)) w w' /\
    V2.Log level args (l, w) =
      if level =? LogLevelFatal then Blocked (V2.set_mu held l, w')
      else Returned tt (l, w').
Proof.
  intros Hfree (Hal & Hw & Hpre & _) Hge. unfold sync.free in Hfree.
  destruct l as [bw lf ll lg m]; simpl in *; subst.
  destruct (bufio_Write_returns (log.out lg)
              (spec_line (time.Format (clock w)) level (fmt.Sprint args) ++ nl)
              (emit EvNow w)) as (r & w' & E & How); [exact Hw|].
  exists w'. split; [exact (write_line_logged _ _ _ _ _ E How)|].
  unfold_v2. simpl.
  assert (Hlt : (level <? ll) = false) by (apply Z.ltb_ge; lia).
  rewrite Hlt. simpl.
  rewrite Sprintf_line_v, Hpre. simpl.
  unfold fmt.Sprintln. simpl. unfold spec_line in E. simpl in E. rewrite E. simpl.
  destruct (level =? LogLevelFatal); reflexivity.
Qed.

Lemma V2_Logf_accepted (l : V2.LogExtended) (w : World) format level args :
  sync.free (V2.mu l) -> V2_wf (l, w) -> V2.logLevel l <= level ->
  exists w',
    logged (log.out (V2.logger l))
           (spec_line (time.Format (clock w)) level (fmt.Sprintf format args)) w w' /\
    V2.Logf format level args (l, w) =
      if level =? LogLevelFatal then Blocked (V2.set_mu held l, w')
      else Returned tt (l, w').
Proof.
  intros Hfree (Hal & Hw & Hpre & _) Hge. unfold sync.free in Hfree.
  destruct l as [bw lf ll lg m]; simpl in *; subst.
  destruct (bufio_Write_returns (log.out lg)
              (spec_line (time.Format (clock w)) level (fmt.Sprintf format args) ++ nl)
              (emit EvNow w)) as (r & w' & E & How); [exact Hw|].
  exists w'. split; [exact (write_line_logged _ _ _ _ _ E How)|].
  unfold_v2. simpl.
  assert (Hlt : (level <? ll) = false) by (apply Z.ltb_ge; lia).
  rewrite Hlt. simpl.
  rewrite Sprintf_line_s, Hpre. simpl.
  unfold fmt.Sprintln. simpl. unfold spec_line in E. simpl in E. rewrite E. simpl.
  destruct (level =? LogLevelFatal); reflexivity.
Qed.

Lemma V2_SetLogLevel_spec (l : V2.LogExtended) (w : World) level :
  sync.free (V2.mu l) ->
  V2.SetLogLevel level (l, w) = Returned tt (V2.set_logLevel level l, w).
Proof.
  intros Hfree. unfold sync.free in Hfree. destruct l; simpl in *; subst.
  reflexivity.
Qed.

(** [Flush] flushes the buffered writer; when that fails it returns the
    error at once; otherwise it syncs the backing file, if there is
    one. *)
Lemma V2_Flush_spec (l : V2.LogExtended) (w : World) :
  sync.free (V2.mu l) -> V2_wf (l, w) ->
  exists r w',
    bufio.Flush (log.out (V2.logger l)) w = Returned r w' /\
    only_wrote w w' /\
    V2.Flush (l, w) =
      match r, V2.logFile l with
      | Some e, _ => Returned (Some e) (l, w')
      | None, Some f =>
          Returned (os.file_error f w') (l, emit (EvSync f (os.file_error f w')) w')
      | None, None => Returned None (l, w')
      end.
Proof.
  intros Hfree (Hal & Hw & _). unfold sync.free in Hfree.
  destruct l as [bw lf ll lg m]; simpl in *; subst.
  destruct (bufio_Flush_returns (log.out lg) w Hw) as (r & w' & E & How).
  exists r, w'. split; [exact E|]. split; [exact How|].
  unfold_v2. simpl. rewrite E. simpl.
  destruct r as [e|]; [reflexivity|]. destruct lf as [f|]; reflexivity.
Qed.

Lemma only_wrote_file (w w' : World) (f : nat) :
  only_wrote w w' -> is_Some (files w !! f) -> is_Some (files w' !! f).
Proof.
  intros How H. apply lookup_lt_is_Some in H. apply lookup_lt_is_Some.
  pose proof (ow_closed _ _ How) as Hc.
  apply (f_equal (@length _)) in Hc. rewrite !length_map in Hc. lia.
Qed.

(** A failed [SetOutput] has closed the previous backing file before it
    tried to open the new one: the struct still points to that file, and
    the buffered writer still tees to it. *)
Lemma V2_SetOutput_fail (l : V2.LogExtended) (w : World) path :
  sync.free (V2.mu l) -> V2_wf (l, w) -> can_open w path = false ->
  exists w',
    V2.SetOutput path (l, w) = Returned (Some (PathError path)) (l, w') /\
    map wr (writers w') = map wr (writers w) /\
    length (files w') = length (files w) /\
    forall f, V2.logFile l = Some f -> f_closed <$> files w' !! f = Some true.
Proof.
  intros Hfree (Hal & Hw & Hpre & Hlf) Hno. unfold sync.free in Hfree.
  destruct l as [bw lf ll lg m]; simpl in *; subst.
  destruct (bufio_Flush_returns (log.out lg) w Hw) as (r & w0 & E & How).
  assert (Hlen : length (files w0) = length (files w)).
  { pose proof (ow_closed _ _ How) as H.
    apply (f_equal (@length _)) in H. now rewrite !length_map in H. }
  unfold_v2. simpl. rewrite E. simpl.
  destruct lf as [f|]; simpl.
  - destruct (only_wrote_file _ _ f How (Hlf f eq_refl)) as [fl Hfl].
    unfold os.Close. rewrite Hfl.
    destruct (f_closed fl) eqn:Hc; simpl; unfold os.OpenFile; simpl;
      rewrite (ow_can_open _ _ How), Hno; simpl;
      (eexists; split; [reflexivity|]); simpl;
      (split; [apply (ow_sinks _ _ How)|]);
      (split; [rewrite ?length_alter; exact Hlen|]); intros f' [= <-].
    + rewrite Hfl. simpl. now rewrite Hc.
    + rewrite list_lookup_alter_eq, Hfl. reflexivity.
  - unfold os.OpenFile. rewrite (ow_can_open _ _ How), Hno. simpl.
    eexists; split; [reflexivity|]. simpl.
    split; [apply (ow_sinks _ _ How)|]. split; [exact Hlen | discriminate].
Qed.

(** A successful [SetOutput] installs a fresh buffered writer that tees
    to the new file and the console. *)
Lemma V2_SetOutput_ok (l : V2.LogExtended) (w : World) path :
  sync.free (V2.mu l) -> V2_wf (l, w) -> can_open w path = true ->
  exists l1 w1 fd h,
    V2.SetOutput path (l, w) = Returned None (l1, w1) /\
    V2.logFile l1 = Some fd /\ V2.bufferWriter l1 = Some h /\
    log.out (V2.logger l1) = h /\ log.prefix (V2.logger l1) = "" /\
    V2.mu l1 = sync.zero /\ V2.logLevel l1 = V2.logLevel l /\
    writers w1 !! h = Some (mkWriter (MultiWriter [FileDev fd; Stdout]) "" None) /\
    files w1 !! fd = Some (mkFile path false "") /\
    fails w1 = fails w /\ clock w1 = clock w.
Proof.
  intros Hfree (Hal & Hw & Hpre & Hlf) Hyes. unfold sync.free in Hfree.
  destruct l as [bw lf ll lg m]; simpl in *; subst.
  destruct (bufio_Flush_returns (log.out lg) w Hw) as (r & w0 & E & How).
  unfold_v2. simpl. rewrite E. simpl.
  destruct lf as [f|]; simpl.
  - destruct (only_wrote_file _ _ f How (Hlf f eq_refl)) as [fl Hfl].
    unfold os.Close. rewrite Hfl.
    destruct (f_closed fl) eqn:Hc; simpl; unfold os.OpenFile, bufio.NewWriter;
      simpl; rewrite (ow_can_open _ _ How), Hyes; simpl;
      (eexists _, _, _, _; split; [reflexivity|]); simpl;
      do 6 (split; [reflexivity|]);
      (split; [apply list_lookup_middle; reflexivity|]);
      (split; [apply list_lookup_middle; reflexivity|]);
      (split; [apply (ow_fails _ _ How) | apply (ow_clock _ _ How)]).
  - unfold os.OpenFile, bufio.NewWriter. simpl.
    rewrite (ow_can_open _ _ How), Hyes. simpl.
    eexists _, _, _, _; split; [reflexivity|]. simpl.
    do 6 (split; [reflexivity|]).
    split; [apply list_lookup_middle; reflexivity|].
    split; [apply list_lookup_middle; reflexivity|].
    split; [apply (ow_fails _ _ How) | apply (ow_clock _ _ How)].
Qed.

(* ===================================================================== *)
(** * The claims *)
(* ===================================================================== *)

Lemma V1_fresh_wf (w : World) : V1_wf (V1_fresh w) /\ sync.free (V1.mu (fst (V1_fresh w))).
Proof.
  unfold V1_wf, V1_fresh; simpl. repeat split.
  - exists (mkWriter (Direct Stdout) "" None). now apply list_lookup_middle.
  - discriminate.
Qed.

Lemma V2_fresh_wf (w : World) : V2_wf (V2_fresh w) /\ sync.free (V2.mu (fst (V2_fresh w))).
Proof.
  unfold V2_wf, V2_fresh; simpl. repeat split.
  - exists (mkWriter (Direct Stdout) "" None). now apply list_lookup_middle.
  - discriminate.
Qed.

(** Well-formedness of a concrete state. *)
Ltac wf_by_computation :=
  repeat split; simpl;
  [ eexists; reflexivity
  | first [ discriminate | intros ? [= <-]; eexists; reflexivity ] ].

(** C9.  The rendering of a level is total: the five severities have
    their fixed names, and every other value, whatever integer it is,
    renders as UNKNOWN. *)
Theorem C9_level_string_total :
  String_ LogLevelDebug = "DEBUG" /\
  String_ LogLevelInfo = "INFO" /\
  String_ LogLevelWarning = "WARNING" /\
  String_ LogLevelError = "ERROR" /\
  String_ LogLevelFatal = "FATAL" /\
  forall l : LogLevel,
    int8 l ->
    l <> LogLevelDebug -> l <> LogLevelInfo -> l <> LogLevelWarning ->
    l <> LogLevelError -> l <> LogLevelFatal ->
    String_ l = "UNKNOWN".
Proof.
  do 5 (split; [reflexivity|]).
  intros l _ H0 H1 H2 H3 H4. unfold String_.
  repeat match goal with
         | |- context [?a =? ?b] =>
             destruct (Z.eqb_spec a b); [contradiction|]
         end.
  reflexivity.
Qed.

Lemma C9_witness : String_ (-128) = "UNKNOWN" /\ String_ 5 = "UNKNOWN" /\ String_ 127 = "UNKNOWN".
Proof.
  destruct C9_level_string_total as (_ & _ & _ & _ & _ & H).
  repeat split; apply H; unfold int8, LogLevelDebug, LogLevelInfo,
    LogLevelWarning, LogLevelError, LogLevelFatal; lia.
Defined.

(** C8.  A logger made by [New] (in either variant, and so the instance
    of package [mlog]) has threshold Info, no backing file, and a buffered
    writer with an empty buffer on the console that is also the output of
    its [log.Logger]; making it touches no file and no device. *)
Theorem C8_new_defaults (w : World) :
  V1.New w = Returned (fst (V1_fresh w)) (snd (V1_fresh w)) /\
  V2.New w = Returned (fst (V2_fresh w)) (snd (V2_fresh w)) /\
  mlog.mlog w = V2.New w /\
  (let (l, w') := V1_fresh w in
   V1.logLevel l = LogLevelInfo /\ V1.logFile l = None /\
   sync.free (V1.mu l) /\
   exists h, V1.bufWriter l = Some h /\ log.out (V1.logger l) = h /\
             writers w' !! h = Some (mkWriter (Direct Stdout) "" None) /\
             files w' = files w /\ console w' = console w /\ trace w' = trace w) /\
  (let (l, w') := V2_fresh w in
   V2.logLevel l = LogLevelInfo /\ V2.logFile l = None /\
   sync.free (V2.mu l) /\
   exists h, V2.bufferWriter l = Some h /\ log.out (V2.logger l) = h /\
             writers w' !! h = Some (mkWriter (Direct Stdout) "" None) /\
             files w' = files w /\ console w' = console w /\ trace w' = trace w).
Proof.
  do 3 (split; [reflexivity|]).
  split; simpl; (do 3 (split; [reflexivity|]));
    exists (length (writers w)); (do 2 (split; [reflexivity|]));
    (split; [now apply list_lookup_middle | repeat split]).
Qed.

(** C5.  The filter is exactly [level >= minLevel].  Below the threshold
    a leveled write returns the state it was given: no byte is buffered or
    written, the clock is not read (nothing is formatted) and the trace is
    the same.  At or above the threshold the write is accepted: the clock
    is read once and the formatted line goes through the logger's buffered
    writer. *)
Theorem C5_threshold_filter
    (l1 : V1.LogExtended) (l2 : V2.LogExtended) (w : World)
    (lvl : LogLevel) (format : string) (args : list fmt.value) :
  sync.free (V1.mu l1) -> V1_wf (l1, w) ->
  sync.free (V2.mu l2) -> V2_wf (l2, w) ->
  (lvl < V1.logLevel l1 ->
     V1.Log lvl args (l1, w) = Returned tt (l1, w) /\
     V1.Logf lvl format args (l1, w) = Returned tt (l1, w)) /\
  (lvl < V2.logLevel l2 ->
     V2.Log lvl args (l2, w) = Returned tt (l2, w) /\
     V2.Logf format lvl args (l2, w) = Returned tt (l2, w)) /\
  (V1.logLevel l1 <= lvl ->
     logged (log.out (V1.logger l1))
            (spec_line (time.Format (clock w)) lvl (fmt.Sprint args))
            w (snd (final (V1.Log lvl args (l1, w)))) /\
     logged (log.out (V1.logger l1))
            (spec_line (time.Format (clock w)) lvl (fmt.Sprintf format args))
            w (snd (final (V1.Logf lvl format args (l1, w))))) /\
  (V2.logLevel l2 <= lvl ->
     logged (log.out (V2.logger l2))
            (spec_line (time.Format (clock w)) lvl (fmt.Sprint args))
            w (snd (final (V2.Log lvl args (l2, w)))) /\
     logged (log.out (V2.logger l2))
            (spec_line (time.Format (clock w)) lvl (fmt.Sprintf format args))
            w (snd (final (V2.Logf format lvl args (l2, w))))).
Proof.
  intros Hf1 Hwf1 Hf2 Hwf2.
  split; [intros Hlt; split;
          [now apply V1_Log_filtered | now apply V1_Logf_filtered]|].
  split; [intros Hlt; split;
          [now apply V2_Log_filtered | now apply V2_Logf_filtered]|].
  split; intros Hge; split.
  - destruct (V1_Log_accepted l1 w lvl args Hf1 Hwf1 Hge) as (w' & Hlg & ->).
    now destruct (lvl =? LogLevelFatal).
  - destruct (V1_Logf_accepted l1 w lvl format args Hf1 Hwf1 Hge) as (w' & Hlg & ->).
    now destruct (lvl =? LogLevelFatal).
  - destruct (V2_Log_accepted l2 w lvl args Hf2 Hwf2 Hge) as (w' & Hlg & ->).
    now destruct (lvl =? LogLevelFatal).
  - destruct (V2_Logf_accepted l2 w format lvl args Hf2 Hwf2 Hge) as (w' & Hlg & ->).
    now destruct (lvl =? LogLevelFatal).
Qed.

(** With the threshold at Info, a Debug write leaves a fresh logger and
    its world untouched. *)
Lemma C5_witness :
  V1.Log LogLevelDebug [fmt.VString "x"] (V1_fresh (machine false))
    = Returned tt (V1_fresh (machine false)) /\
  V2.Log LogLevelDebug [fmt.VString "x"] (V2_fresh (machine false))
    = Returned tt (V2_fresh (machine false)).
Proof.
  destruct (C5_threshold_filter
              (fst (V1_fresh (machine false))) (fst (V2_fresh (machine false)))
              (snd (V1_fresh (machine false))) LogLevelDebug "" [fmt.VString "x"])
    as (H1 & H2 & _).
  - reflexivity.
  - wf_by_computation.
  - reflexivity.
  - wf_by_computation.
  - split; [apply H1 | apply H2]; reflexivity.
Defined.

(** A state whose buffered writer holds an earlier error: every write
    through it fails. *)
Lemma broken_sink_rejects_writes :
  bufio.Write 0 "x" (set_writers [mkWriter (Direct Stdout) "" (Some ErrDevice)]
                                 (machine true))
  = Returned (Some ErrDevice)
             (set_writers [mkWriter (Direct Stdout) "" (Some ErrDevice)] (machine true)).
Proof. reflexivity. Qed.





(** C2 (the code departs from the claim).  A Fatal write that passes the
    threshold never reaches [os.Exit]: [Log] and [Logf] hold the write
    lock when they call [Flush], and [Flush] starts by taking the same
    lock, which is not reentrant.  The caller is parked with the lock
    held; the line is in the buffer, nothing was flushed, synced or
    closed, and the process has not exited. *)
Theorem C2_fatal_write_blocks
    (l1 : V1.LogExtended) (l2 : V2.LogExtended) (w : World)
    (format : string) (args : list fmt.value) :
  sync.free (V1.mu l1) -> V1_wf (l1, w) ->
  sync.free (V2.mu l2) -> V2_wf (l2, w) ->
  V1.logLevel l1 <= LogLevelFatal -> V2.logLevel l2 <= LogLevelFatal ->
  (exists w', V1.Fatal args (l1, w) = Blocked (V1.set_mu held l1, w') /\
              logged (log.out (V1.logger l1))
                     (spec_line (time.Format (clock w)) LogLevelFatal (fmt.Sprint args))
                     w w') /\
  (exists w', V1.Fatalf format args (l1, w) = Blocked (V1.set_mu held l1, w') /\
              logged (log.out (V1.logger l1))
                     (spec_line (time.Format (clock w)) LogLevelFatal
                                (fmt.Sprintf format args)) w w') /\
  (exists w', V2.Fatal args (l2, w) = Blocked (V2.set_mu held l2, w') /\
              logged (log.out (V2.logger l2))
                     (spec_line (time.Format (clock w)) LogLevelFatal (fmt.Sprint args))
                     w w') /\
  (exists w', V2.Fatalf format args (l2, w) = Blocked (V2.set_mu held l2, w') /\
              logged (log.out (V2.logger l2))
                     (spec_line (time.Format (clock w)) LogLevelFatal
                                (fmt.Sprintf format args)) w w').
Proof.
  intros Hf1 Hwf1 Hf2 Hwf2 Hge1 Hge2.
  split.
  { destruct (V1_Log_accepted l1 w _ args Hf1 Hwf1 Hge1) as (w' & Hlg & E).
    rewrite Z.eqb_refl in E. exists w'. split; [exact E | exact Hlg]. }
  split.
  { destruct (V1_Logf_accepted l1 w _ format args Hf1 Hwf1 Hge1) as (w' & Hlg & E).
    rewrite Z.eqb_refl in E. exists w'. split; [exact E | exact Hlg]. }
  split.
  { destruct (V2_Log_accepted l2 w _ args Hf2 Hwf2 Hge2) as (w' & Hlg & E).
    rewrite Z.eqb_refl in E. exists w'. split; [exact E | exact Hlg]. }
  destruct (V2_Logf_accepted l2 w format _ args Hf2 Hwf2 Hge2) as (w' & Hlg & E).
  rewrite Z.eqb_refl in E. exists w'. split; [exact E | exact Hlg].
Qed.

(** [Fatal("shutdown")] on a fresh logger with the threshold at Debug. *)
Lemma C2_witness :
  exists w',
    V2.Fatal [fmt.VString "shutdown"]
      (V2.set_logLevel LogLevelDebug (fst (V2_fresh (machine false))),
       snd (V2_fresh (machine false)))
    = Blocked (V2.set_mu held
                 (V2.set_logLevel LogLevelDebug (fst (V2_fresh (machine false)))), w') /\
    logged 0 (spec_line "2024-03-07 12:00:00" LogLevelFatal "shutdown")
           (snd (V2_fresh (machine false))) w'.
Proof.
  refine (proj1 (proj2 (proj2
    (C2_fatal_write_blocks
       (fst (V1_fresh (machine false)))
       (V2.set_logLevel LogLevelDebug (fst (V2_fresh (machine false))))
       (snd (V2_fresh (machine false))) "" [fmt.VString "shutdown"]
       _ _ _ _ _ _)))).
  - reflexivity.
  - wf_by_computation.
  - reflexivity.
  - wf_by_computation.
  - simpl. unfold LogLevelInfo, LogLevelFatal. lia.
  - simpl. unfold LogLevelDebug, LogLevelFatal. lia.
Defined.

(** C6, as stated, fails: the message is passed on as it is, so a message
    that holds a newline is emitted as more than one line.
    [Info("a\nb")] followed by [Flush] puts two lines on the console. *)
Lemma C6_counterexample :
  let o := (_ <- V2.Info [fmt.VString ("a" ++ nl ++ "b")] ;; V2.Flush)
             (V2_fresh (machine false)) in
  result o = Some None /\
  console (snd (final o)) = "[2024-03-07 12:00:00] [INFO] a" ++ nl ++ "b" ++ nl /\
  count_char newline (console (snd (final o))) = 2%nat.
Proof. vm_compute. repeat split. Qed.

(** C6, amended.  An accepted write emits [[YYYY-MM-DD HH:MM:SS]
    [LEVELNAME] message] followed by exactly one line terminator.  The
    formatter returns exactly that text, with nothing after the message;
    the timestamp of a valid clock reading has the shape of the layout;
    [Println] adds the one newline and hands text and newline to the
    buffered writer; the output holds the newlines of the message and one
    more, at its end, so it is exactly one line when the message holds no
    newline; for the formatted variant the message is the template
    rendered with its operands, so that
    [Infof("%s has %d items", "cart", 3)] ends in
    [[INFO] cart has 3 items]. *)
Theorem C6_line_format
    (l1 : V1.LogExtended) (l2 : V2.LogExtended) (w : World)
    (lvl : LogLevel) (format : string) (args : list fmt.value) :
  sync.free (V1.mu l1) -> V1_wf (l1, w) ->
  sync.free (V2.mu l2) -> V2_wf (l2, w) ->
  time.valid (clock w) ->
  V1.logLevel l1 <= lvl -> V2.logLevel l2 <= lvl ->
  let ts := time.Format (clock w) in
  (* the formatter *)
  V1.formatMessage lvl args (l1, w)
    = Returned (spec_line ts lvl (fmt.Sprint args)) (l1, emit EvNow w) /\
  V1.formatMessagef lvl format args (l1, w)
    = Returned (spec_line ts lvl (fmt.Sprintf format args)) (l1, emit EvNow w) /\
  V2.formatMessage lvl args (l2, w)
    = Returned (spec_line ts lvl (fmt.Sprint args)) (l2, emit EvNow w) /\
  V2.formatMessagef format lvl args (l2, w)
    = Returned (spec_line ts lvl (fmt.Sprintf format args)) (l2, emit EvNow w) /\
  (* the timestamp *)
  time.matches time.layout ts = true /\
  (* the write to the sink *)
  logged (log.out (V1.logger l1)) (spec_line ts lvl (fmt.Sprint args))
         w (snd (final (V1.Log lvl args (l1, w)))) /\
  logged (log.out (V1.logger l1)) (spec_line ts lvl (fmt.Sprintf format args))
         w (snd (final (V1.Logf lvl format args (l1, w)))) /\
  logged (log.out (V2.logger l2)) (spec_line ts lvl (fmt.Sprint args))
         w (snd (final (V2.Log lvl args (l2, w)))) /\
  logged (log.out (V2.logger l2)) (spec_line ts lvl (fmt.Sprintf format args))
         w (snd (final (V2.Logf format lvl args (l2, w)))) /\
  (* one line terminator, at the end; one line when the message has none *)
  (forall msg, last_char (spec_line ts lvl msg ++ nl) = Some newline /\
               count_char newline (spec_line ts lvl msg ++ nl)
               = S (count_char newline msg) /\
               (count_char newline msg = 0%nat ->
                count_char newline (spec_line ts lvl msg ++ nl) = 1%nat)) /\
  (* the example of the formatted variant *)
  spec_line ts LogLevelInfo
            (fmt.Sprintf "%s has %d items" [fmt.VString "cart"; fmt.VInt 3])
  = "[" ++ ts ++ "] [INFO] cart has 3 items".
Proof.
  intros Hf1 Hwf1 Hf2 Hwf2 Hv Hge1 Hge2 ts.
  split; [unfold V1.formatMessage; unfold_prog; simpl;
          now rewrite Sprintf_line_v|].
  split; [unfold V1.formatMessagef; unfold_prog; simpl;
          now rewrite Sprintf_line_s|].
  split; [unfold V2.formatMessage; unfold_prog; simpl;
          now rewrite Sprintf_line_v|].
  split; [unfold V2.formatMessagef; unfold_prog; simpl;
          now rewrite Sprintf_line_s|].
  split; [now apply Format_layout|].
  split.
  { destruct (V1_Log_accepted l1 w lvl args Hf1 Hwf1 Hge1) as (w' & Hlg & ->).
    now destruct (lvl =? LogLevelFatal). }
  split.
  { destruct (V1_Logf_accepted l1 w lvl format args Hf1 Hwf1 Hge1) as (w' & Hlg & ->).
    now destruct (lvl =? LogLevelFatal). }
  split.
  { destruct (V2_Log_accepted l2 w lvl args Hf2 Hwf2 Hge2) as (w' & Hlg & ->).
    now destruct (lvl =? LogLevelFatal). }
  split.
  { destruct (V2_Logf_accepted l2 w format lvl args Hf2 Hwf2 Hge2) as (w' & Hlg & ->).
    now destruct (lvl =? LogLevelFatal). }
  split.
  { intros msg. split; [apply last_char_app_nl|].
    rewrite count_char_app, spec_line_newlines.
    unfold ts. rewrite (Format_no_newline _ Hv). simpl. lia. }
  reflexivity.
Qed.

(** The line of [Infof("%s has %d items", "cart", 3)] on a fresh logger
    at noon. *)
Lemma C6_witness :
  spec_line "2024-03-07 12:00:00" LogLevelInfo
            (fmt.Sprintf "%s has %d items" [fmt.VString "cart"; fmt.VInt 3])
  = "[2024-03-07 12:00:00] [INFO] cart has 3 items".
Proof.
  refine (proj2 (proj2 (proj2 (proj2 (proj2 (proj2 (proj2 (proj2 (proj2 (proj2
    (C6_line_format
       (fst (V1_fresh (machine false))) (fst (V2_fresh (machine false)))
       (snd (V2_fresh (machine false))) LogLevelInfo
       "%s has %d items" [fmt.VString "cart"; fmt.VInt 3]
       _ _ _ _ _ _ _))))))))))).
  - reflexivity.
  - wf_by_computation.
  - reflexivity.
  - wf_by_computation.
  - unfold time.valid; simpl; lia.
  - simpl. lia.
  - simpl. lia.
Defined.

(** C1 (the code departs from the claim).  In the second variant
    [SetOutput] closes the backing file before it tries to open the new
    one.  After a successful redirection to [app.log], a redirection to a
    path that cannot be opened returns the error and leaves the logger
    with a closed file under its buffered writer: the next Info line is
    accepted into the buffer, but [Flush] fails with [ErrClosed] and the
    line reaches neither the file nor the console. *)
Theorem C1_failed_SetOutput_closes_backing_file :
  let o := V2_redirect_twice (V2_fresh (machine false)) in
  result o = Some (None, Some (PathError "/no/such/dir/x.log"), Some ErrClosed) /\
  V2.logFile (fst (final o)) = Some 0%nat /\
  files (snd (final o)) = [mkFile "app.log" true ""] /\
  console (snd (final o)) = "" /\
  writers (snd (final o)) !! 1%nat
  = Some (mkWriter (MultiWriter [FileDev 0; Stdout])
                   ("[2024-03-07 12:00:00] [INFO] still here" ++ nl)
                   (Some ErrClosed)).
Proof. vm_compute. repeat split. Qed.

(** The first variant opens the new file first: there the same calls
    leave [app.log] open, and the line reaches it. *)
Lemma V1_failed_SetOutput_keeps_backing_file :
  let o := V1_redirect_twice (V1_fresh (machine false)) in
  result o = Some (None, Some (PathError "/no/such/dir/x.log"), None) /\
  V1.logFile (fst (final o)) = Some 0%nat /\
  files (snd (final o))
  = [mkFile "app.log" false ("[2024-03-07 12:00:00] [INFO] still here" ++ nl)].
Proof. vm_compute. repeat split. Qed.

(** C3, as stated, fails on the first variant: after a successful
    [SetOutput] the buffered writer is on the file alone, and an accepted
    line, once flushed, is in the file and not on the console. *)
Lemma C3_counterexample :
  let o := V1_redirect_log_flush (V1_fresh (machine false)) in
  result o = Some (None, None) /\
  writers (snd (final o)) !! 1%nat = Some (mkWriter (Direct (FileDev 0)) "" None) /\
  files (snd (final o))
  = [mkFile "app.log" false ("[2024-03-07 12:00:00] [INFO] hello" ++ nl)] /\
  console (snd (final o)) = "".
Proof. vm_compute. repeat split. Qed.

(** C4, as stated, fails: with the console down the flush of the tee
    fails after the file took the bytes; [Flush] returns that error and
    does not sync the file, which is open. *)
Lemma C4_counterexample :
  let o := V2_redirect_log_flush (V2_fresh (machine true)) in
  result o = Some (None, Some ErrDevice) /\
  V2.logFile (fst (final o)) = Some 0%nat /\
  files (snd (final o))
  = [mkFile "app.log" false ("[2024-03-07 12:00:00] [INFO] hello" ++ nl)] /\
  syncs (trace (snd (final o))) = 0%nat.
Proof. vm_compute. repeat split. Qed.

(** C4, amended.  [Flush] flushes the buffered writer.  In the second
    variant, when that flush fails its error is returned at once and the
    file is not synced; when it succeeds and there is a backing file, the
    file is synced once and the result of the sync is returned; with no
    backing file the result is no error.  In the first variant [Flush] is
    the flush of the buffered writer alone and never syncs. *)
Theorem C4_Flush_stops_at_first_error
    (l1 : V1.LogExtended) (l2 : V2.LogExtended) (w : World) :
  sync.free (V1.mu l1) -> V1_wf (l1, w) ->
  sync.free (V2.mu l2) -> V2_wf (l2, w) ->
  (exists r w1,
     bufio.Flush (log.out (V2.logger l2)) w = Returned r w1 /\
     match r, V2.logFile l2 with
     | Some e, _ =>
         V2.Flush (l2, w) = Returned (Some e) (l2, w1) /\
         syncs (trace w1) = syncs (trace w)
     | None, Some f =>
         V2.Flush (l2, w)
         = Returned (os.file_error f w1) (l2, emit (EvSync f (os.file_error f w1)) w1) /\
         syncs (trace (emit (EvSync f (os.file_error f w1)) w1)) = S (syncs (trace w))
     | None, None =>
         V2.Flush (l2, w) = Returned None (l2, w1) /\
         syncs (trace w1) = syncs (trace w)
     end) /\
  (exists r w1,
     bufio.Flush (log.out (V1.logger l1)) w = Returned r w1 /\
     V1.Flush (l1, w) = Returned r (l1, w1) /\
     syncs (trace w1) = syncs (trace w)).
Proof.
  intros Hf1 Hwf1 Hf2 Hwf2.
  assert (Hs : forall w1, only_wrote w w1 -> syncs (trace w1) = syncs (trace w)).
  { intros w1 How. rewrite <- (syncs_quiet (trace w1)), (ow_quiet _ _ How).
    apply syncs_quiet. }
  split.
  - destruct (V2_Flush_spec l2 w Hf2 Hwf2) as (r & w1 & E & How & EF).
    exists r, w1. split; [exact E|].
    destruct r as [e|]; [|destruct (V2.logFile l2) as [f|]];
      (split; [exact EF|]); try now apply Hs.
    simpl. rewrite syncs_app, (Hs w1 How). simpl. unfold syncs at 2. simpl. lia.
  - destruct (V1_Flush_spec l1 w Hf1 Hwf1) as (r & w1 & E & How & EF).
    exists r, w1. split; [exact E|]. split; [exact EF | now apply Hs].
Qed.

(** Well-formedness of a state that is the result of a run. *)
Ltac wf_of_run :=
  vm_compute; repeat split;
  first [ eexists; reflexivity
        | discriminate
        | intros ? [= <-]; eexists; reflexivity
        | idtac ].

(** [Flush] on a logger that tees to [app.log] with one Info line
    buffered.  With the console down the flush of the buffer fails after
    the file took the bytes: [Flush] returns that error and asks for no
    sync.  With both devices up the buffer is flushed and the file is
    synced once. *)
Lemma C4_witness :
  let s1 := final (V2.Info [fmt.VString "hello"] (V2_teeing (machine true))) in
  let s2 := final (V2.Info [fmt.VString "hello"] (V2_teeing (machine false))) in
  (exists w1,
     V2.Flush (fst s1, snd s1) = Returned (Some ErrDevice) (fst s1, w1) /\
     syncs (trace w1) = syncs (trace (snd s1))) /\
  (exists w1,
     V2.Flush (fst s2, snd s2)
     = Returned None (fst s2, emit (EvSync 0 None) w1) /\
     syncs (trace (emit (EvSync 0 None) w1)) = S (syncs (trace (snd s2)))) /\
  (exists w1,
     V1.Flush (fst (V1_on_file (machine false)), snd (V1_on_file (machine false)))
     = Returned None (fst (V1_on_file (machine false)), w1) /\
     syncs (trace w1) = syncs (trace (snd (V1_on_file (machine false))))).
Proof.
  intros s1 s2. split; [|split].
  - (* the buffer flush fails: no sync *)
    destruct (C4_Flush_stops_at_first_error
                (fst (V1_fresh (machine true))) (fst s1) (snd s1))
      as [(r & w1 & E & H) _].
    + reflexivity.
    + wf_of_run.
    + reflexivity.
    + wf_of_run.
    + assert (Hr : result (bufio.Flush (log.out (V2.logger (fst s1))) (snd s1))
                   = Some (Some ErrDevice)) by (vm_compute; reflexivity).
      rewrite E in Hr. injection Hr as ->.
      exists w1. exact H.
  - (* the buffer flush succeeds: one sync *)
    destruct (C4_Flush_stops_at_first_error
                (fst (V1_fresh (machine false))) (fst s2) (snd s2))
      as [(r & w1 & E & H) _].
    + reflexivity.
    + wf_of_run.
    + reflexivity.
    + wf_of_run.
    + assert (Hr : result (bufio.Flush (log.out (V2.logger (fst s2))) (snd s2)) = Some None)
        by (vm_compute; reflexivity).
      assert (Hw : w1 = final (bufio.Flush (log.out (V2.logger (fst s2))) (snd s2)))
        by (rewrite E; reflexivity).
      rewrite E in Hr. injection Hr as ->.
      replace (V2.logFile (fst s2)) with (Some 0%nat) in H by (vm_compute; reflexivity).
      assert (Hs : os.file_error 0 w1 = None) by (rewrite Hw; vm_compute; reflexivity).
      rewrite Hs in H. exists w1. exact H.
  - (* the first variant never syncs *)
    destruct (C4_Flush_stops_at_first_error
                (fst (V1_on_file (machine false))) (fst (V2_fresh (machine false)))
                (snd (V1_on_file (machine false))))
      as [_ (r & w1 & E & H)].
    + reflexivity.
    + wf_of_run.
    + reflexivity.
    + wf_of_run.
    + assert (Hr : result (bufio.Flush
                             (log.out (V1.logger (fst (V1_on_file (machine false)))))
                             (snd (V1_on_file (machine false)))) = Some None)
        by (vm_compute; reflexivity).
      rewrite E in Hr. injection Hr as ->.
      exists w1. exact H.
Defined.

Lemma logged_dev_error h line (w w' : World) (d : Dev) :
  logged h line w w' -> dev_error w' d = dev_error w d.
Proof. intros H. apply dev_error_same; apply H. Qed.

Lemma logged_file h line (w w' : World) (f : nat) :
  logged h line w w' -> is_Some (files w !! f) -> is_Some (files w' !! f).
Proof.
  intros Hlg H. apply lookup_lt_is_Some in H. apply lookup_lt_is_Some.
  pose proof (lg_closed _ _ _ _ Hlg) as Hc.
  apply (f_equal (@length _)) in Hc. rewrite !length_map in Hc. lia.
Qed.

(** C3, amended.  After a successful [SetOutput(path)]:
    - in the second variant the active sink is a fresh buffered writer
      that tees to the newly opened file and to the console; an accepted
      write followed by [Flush] puts the line in both, provided neither
      device rejects writes;
    - in the first variant the active sink is a fresh buffered writer on
      the newly opened file alone; an accepted write followed by [Flush]
      puts the line in the file, and the console receives nothing. *)
Theorem C3_SetOutput_installs_sink
    (l1 : V1.LogExtended) (l2 : V2.LogExtended) (w : World)
    (path : string) (lvl : LogLevel) (args : list fmt.value) :
  sync.free (V1.mu l1) -> V1_wf (l1, w) ->
  sync.free (V2.mu l2) -> V2_wf (l2, w) ->
  let line := spec_line (time.Format (clock w)) lvl (fmt.Sprint args) in
  (forall l' w',
     V2.SetOutput path (l2, w) = Returned None (l', w') ->
     exists fd h,
       V2.logFile l' = Some fd /\ V2.bufferWriter l' = Some h /\
       log.out (V2.logger l') = h /\
       writers w' !! h = Some (mkWriter (MultiWriter [FileDev fd; Stdout]) "" None) /\
       files w' !! fd = Some (mkFile path false "") /\
       (V2.logLevel l' <= lvl -> lvl <> LogLevelFatal ->
        fails w Stdout = false -> fails w (FileDev fd) = false ->
        exists w2 w3,
          V2.Log lvl args (l', w') = Returned tt (l', w2) /\
          V2.Flush (l', w2) = Returned None (l', w3) /\
          dev_data w3 (FileDev fd) = line ++ nl /\
          console w3 = console w' ++ line ++ nl)) /\
  (forall l' w',
     V1.SetOutput path (l1, w) = Returned None (l', w') ->
     exists fd h,
       V1.logFile l' = Some fd /\ V1.bufWriter l' = Some h /\
       log.out (V1.logger l') = h /\
       writers w' !! h = Some (mkWriter (Direct (FileDev fd)) "" None) /\
       files w' !! fd = Some (mkFile path false "") /\
       (V1.logLevel l' <= lvl -> lvl <> LogLevelFatal ->
        fails w (FileDev fd) = false ->
        exists w2 w3,
          V1.Log lvl args (l', w') = Returned tt (l', w2) /\
          V1.Flush (l', w2) = Returned None (l', w3) /\
          dev_data w3 (FileDev fd) = line ++ nl /\
          console w3 = console w')).
Proof.
  intros Hf1 Hwf1 Hf2 Hwf2 line. split.
  - (* the variant that tees *)
    intros l' w' HSO. destruct (can_open w path) eqn:Hopen.
    2:{ destruct (V2_SetOutput_fail l2 w path Hf2 Hwf2 Hopen) as (wx & E & _).
        rewrite E in HSO. discriminate. }
    destruct (V2_SetOutput_ok l2 w path Hf2 Hwf2 Hopen)
      as (lx & wx & fd & h & E & Hfile & Hbw & Hout & Hpre & Hmu & Hlvl & Hwr
          & Hfd & Hfails & Hclock).
    rewrite E in HSO. injection HSO as <- <-.
    exists fd, h. do 5 (split; [assumption|]).
    intros Hge Hne HokS HokF. apply Z.eqb_neq in Hne.
    assert (Hwf' : V2_wf (lx, wx)).
    { repeat split; simpl.
      - congruence.
      - rewrite Hout, Hwr. eauto.
      - assumption.
      - intros f Hf. rewrite Hfile in Hf. injection Hf as <-. rewrite Hfd. eauto. }
    destruct (V2_Log_accepted lx wx lvl args Hmu Hwf' Hge) as (w2 & Hlg & ELog).
    rewrite Hne, Hout, Hclock in *. fold line in Hlg.
    assert (Hnd : NoDup [FileDev fd; Stdout]).
    { apply NoDup_cons. split.
      - intros Hin. apply list_elem_of_In in Hin. destruct Hin as [|[]]; discriminate.
      - apply NoDup_singleton. }
    assert (Hok : forall d, In d [FileDev fd; Stdout] -> dev_error wx d = None).
    { intros d [<-|[<-|[]]]; simpl.
      - unfold os.file_error. rewrite Hfd, Hfails, HokF. reflexivity.
      - now rewrite Hfails, HokS. }
    destruct (lg_stream _ _ _ _ Hlg _ Hwr eq_refl Hnd Hok)
      as (b2 & Hb2 & Hwr2 & Herr2 & Hd2).
    simpl in Hwr2, Hd2.
    assert (Hwf2' : V2_wf (lx, w2)).
    { repeat split; simpl.
      - congruence.
      - rewrite Hout, Hb2. eauto.
      - assumption.
      - intros f Hf. eapply logged_file; [exact Hlg|].
        rewrite Hfile in Hf. injection Hf as <-. rewrite Hfd. eauto. }
    destruct (V2_Flush_spec lx w2 Hmu Hwf2') as (r & w3 & EF & How & EFlush).
    rewrite Hout in EF.
    destruct (bufio_Flush_ok h w2 b2 Hb2 Herr2) as (w3' & EF' & _ & Hd3).
    { now rewrite Hwr2. }
    { rewrite Hwr2. intros d Hin. rewrite (logged_dev_error _ _ _ _ d Hlg).
      now apply Hok. }
    rewrite EF in EF'. injection EF' as -> <-.
    rewrite Hfile in EFlush.
    assert (Hsync : os.file_error fd w3 = None).
    { change (dev_error w3 (FileDev fd) = None).
      rewrite (only_wrote_dev_error _ _ _ How), (logged_dev_error _ _ _ _ _ Hlg).
      apply Hok. now left. }
    rewrite Hsync in EFlush.
    exists w2, (emit (EvSync fd None) w3).
    split; [exact ELog|]. split; [exact EFlush|].
    rewrite Hwr2 in Hd3. split.
    + rewrite dev_data_emit, (Hd3 (FileDev fd)) by (now left).
      rewrite (Hd2 (FileDev fd)) by (now left). simpl. now rewrite Hfd.
    + change (dev_data (emit (EvSync fd None) w3) Stdout = console wx ++ line ++ nl).
      rewrite dev_data_emit, (Hd3 Stdout) by (right; now left).
      rewrite (Hd2 Stdout) by (right; now left). reflexivity.
  - (* the variant that replaces *)
    intros l' w' HSO. destruct (can_open w path) eqn:Hopen.
    2:{ destruct (V1_SetOutput_fail l1 w path Hf1 Hwf1 Hopen) as (wx & E & _).
        rewrite E in HSO. discriminate. }
    destruct (V1_SetOutput_ok l1 w path Hf1 Hwf1 Hopen)
      as (lx & wx & fd & h & E & Hfile & Hbw & Hout & Hpre & Hmu & Hlvl & Hwr
          & Hfd & Hfails & Hclock).
    rewrite E in HSO. injection HSO as <- <-.
    exists fd, h. do 5 (split; [assumption|]).
    intros Hge Hne HokF. apply Z.eqb_neq in Hne.
    assert (Hwf' : V1_wf (lx, wx)).
    { repeat split; simpl.
      - congruence.
      - rewrite Hout, Hwr. eauto.
      - assumption.
      - intros f Hf. rewrite Hfile in Hf. injection Hf as <-. rewrite Hfd. eauto. }
    destruct (V1_Log_accepted lx wx lvl args Hmu Hwf' Hge) as (w2 & Hlg & ELog).
    rewrite Hne, Hout, Hclock in *. fold line in Hlg.
    assert (Hnd : NoDup [FileDev fd]) by apply NoDup_singleton.
    assert (Hok : forall d, In d [FileDev fd] -> dev_error wx d = None).
    { intros d [<-|[]]; simpl.
      unfold os.file_error. rewrite Hfd, Hfails, HokF. reflexivity. }
    assert (Hnot : ~ In Stdout [FileDev fd]) by (intros [|[]]; discriminate).
    destruct (lg_stream _ _ _ _ Hlg _ Hwr eq_refl Hnd Hok)
      as (b2 & Hb2 & Hwr2 & Herr2 & Hd2).
    simpl in Hwr2, Hd2.
    assert (Hwf2' : V1_wf (lx, w2)).
    { repeat split; simpl.
      - congruence.
      - rewrite Hout, Hb2. eauto.
      - assumption.
      - intros f Hf. eapply logged_file; [exact Hlg|].
        rewrite Hfile in Hf. injection Hf as <-. rewrite Hfd. eauto. }
    destruct (V1_Flush_spec lx w2 Hmu Hwf2') as (r & w3 & EF & How & EFlush).
    rewrite Hout in EF.
    destruct (bufio_Flush_ok h w2 b2 Hb2 Herr2) as (w3' & EF' & _ & Hd3).
    { now rewrite Hwr2. }
    { rewrite Hwr2. intros d Hin. rewrite (logged_dev_error _ _ _ _ d Hlg).
      now apply Hok. }
    rewrite EF in EF'. injection EF' as -> <-.
    exists w2, w3.
    split; [exact ELog|]. split; [exact EFlush|].
    rewrite Hwr2 in Hd3. split.
    + rewrite (Hd3 (FileDev fd)) by (now left).
      rewrite (Hd2 (FileDev fd)) by (now left). simpl. now rewrite Hfd.
    + change (dev_data w3 Stdout = dev_data wx Stdout).
      rewrite (bufio_Flush_other h w2 w3 b2 None Stdout Hb2) by
        (rewrite ?Hwr2; assumption).
      apply (lg_others _ _ _ _ Hlg _ Stdout Hwr Hnot).
Qed.

(** On a fresh logger of the second variant: redirect to [app.log], log
    ["hello"] at Info, flush.  The line is in the file and on the
    console. *)
Lemma C3_witness :
  let s1 := final (V2.SetOutput "app.log" (V2_fresh (machine false))) in
  exists w2 w3,
    V2.Log LogLevelInfo [fmt.VString "hello"] s1 = Returned tt (fst s1, w2) /\
    V2.Flush (fst s1, w2) = Returned None (fst s1, w3) /\
    dev_data w3 (FileDev 0) = "[2024-03-07 12:00:00] [INFO] hello" ++ nl /\
    console w3 = "[2024-03-07 12:00:00] [INFO] hello" ++ nl.
Proof.
  intros s1.
  destruct (C3_SetOutput_installs_sink
              (fst (V1_fresh (machine false))) (fst (V2_fresh (machine false)))
              (snd (V2_fresh (machine false))) "app.log" LogLevelInfo
              [fmt.VString "hello"]) as [H2 _].
  - reflexivity.
  - wf_by_computation.
  - reflexivity.
  - wf_by_computation.
  - destruct (H2 (fst s1) (snd s1) eq_refl) as (fd & h & Hfile & _ & _ & _ & _ & Hrun).
    vm_compute in Hfile. injection Hfile as <-.
    apply Hrun.
    + simpl. lia.
    + discriminate.
    + reflexivity.
    + reflexivity.
Defined.

(* ===================================================================== *)
(** * The invariant between calls *)
(* ===================================================================== *)

Lemma length_alter_files (g : File -> File) (i : nat) (fs : list File) :
  length (alter g i fs) = length fs.
Proof. apply length_alter. Qed.

Lemma only_wrote_lengths (w w' : World) :
  only_wrote w w' ->
  length (files w') = length (files w) /\ length (writers w') = length (writers w).
Proof.
  intros How. split.
  - pose proof (ow_closed _ _ How) as H. apply (f_equal (@length _)) in H.
    now rewrite !length_map in H.
  - pose proof (ow_sinks _ _ How) as H. apply (f_equal (@length _)) in H.
    now rewrite !length_map in H.
Qed.

Lemma os_Close_lengths (f : nat) (w : World) :
  exists r w', os.Close f w = Returned r w' /\
               length (files w') = length (files w) /\ writers w' = writers w.
Proof.
  unfold os.Close. destruct (files w !! f) as [fl|]; [destruct (f_closed fl)|];
    eexists _, _; (split; [reflexivity|]); simpl; split; try reflexivity.
  apply length_alter_files.
Qed.

(** [Close] of the second variant always returns, with the struct as it
    was. *)
Lemma V2_Close_spec (l : V2.LogExtended) (w : World) :
  sync.free (V2.mu l) -> V2_wf (l, w) ->
  exists r w',
    V2.Close (l, w) = Returned r (l, w') /\
    length (files w') = length (files w) /\
    length (writers w') = length (writers w).
Proof.
  intros Hfree (Hal & Hw & _). unfold sync.free in Hfree.
  destruct l as [bw lf ll lg m]; simpl in *; subst.
  destruct (bufio_Flush_returns (log.out lg) w Hw) as (r & w0 & E & How).
  destruct (only_wrote_lengths _ _ How) as [Hlf Hlw].
  unfold_v2. simpl. rewrite E. simpl.
  destruct lf as [f|]; simpl.
  - destruct (os_Close_lengths f w0) as (r1 & w1 & E1 & Hf1 & Hw1).
    rewrite E1. simpl.
    destruct r1; eexists _, _; (split; [reflexivity|]); simpl; split;
      first [rewrite Hf1; exact Hlf | rewrite Hw1; exact Hlw].
  - eexists _, _; split; [reflexivity|]. now split.
Qed.

Lemma wf_lengths_V1 (l : V1.LogExtended) (w w' : World) :
  V1_wf (l, w) ->
  length (files w') = length (files w) -> length (writers w') = length (writers w) ->
  V1_wf (l, w').
Proof.
  intros (Hal & Hw & Hpre & Hlf) Hf Hws. repeat split; simpl in *; try assumption.
  - apply lookup_lt_is_Some. apply lookup_lt_is_Some in Hw. lia.
  - intros f Hsome. apply lookup_lt_is_Some.
    specialize (Hlf f Hsome). apply lookup_lt_is_Some in Hlf. lia.
Qed.

Lemma wf_lengths_V2 (l : V2.LogExtended) (w w' : World) :
  V2_wf (l, w) ->
  length (files w') = length (files w) -> length (writers w') = length (writers w) ->
  V2_wf (l, w').
Proof.
  intros (Hal & Hw & Hpre & Hlf) Hf Hws. repeat split; simpl in *; try assumption.
  - apply lookup_lt_is_Some. apply lookup_lt_is_Some in Hw. lia.
  - intros f Hsome. apply lookup_lt_is_Some.
    specialize (Hlf f Hsome). apply lookup_lt_is_Some in Hlf. lia.
Qed.

Lemma logged_lengths h line (w w' : World) :
  logged h line w w' ->
  length (files w') = length (files w) /\ length (writers w') = length (writers w).
Proof.
  intros Hlg. split.
  - pose proof (lg_closed _ _ _ _ Hlg) as H. apply (f_equal (@length _)) in H.
    now rewrite !length_map in H.
  - pose proof (lg_sinks _ _ _ _ Hlg) as H. apply (f_equal (@length _)) in H.
    now rewrite !length_map in H.
Qed.

(** X13.  Every call on a logger at rest, a Fatal write apart, returns
    and leaves the logger at rest: the lock is free again and the
    invariant holds (second variant: [SetLogLevel], [SetOutput], [Flush],
    [Close], [Log], [Logf]). *)
Theorem V2_calls_keep_invariant (l : V2.LogExtended) (w : World) :
  sync.free (V2.mu l) -> V2_wf (l, w) ->
  (forall level, exists s',
     V2.SetLogLevel level (l, w) = Returned tt s' /\
     V2_wf s' /\ sync.free (V2.mu (fst s'))) /\
  (forall path, exists r s',
     V2.SetOutput path (l, w) = Returned r s' /\
     V2_wf s' /\ sync.free (V2.mu (fst s'))) /\
  (exists r s', V2.Flush (l, w) = Returned r s' /\
                V2_wf s' /\ sync.free (V2.mu (fst s'))) /\
  (exists r s', V2.Close (l, w) = Returned r s' /\
                V2_wf s' /\ sync.free (V2.mu (fst s'))) /\
  (forall level args, level <> LogLevelFatal -> exists s',
     V2.Log level args (l, w) = Returned tt s' /\
     V2_wf s' /\ sync.free (V2.mu (fst s'))) /\
  (forall format level args, level <> LogLevelFatal -> exists s',
     V2.Logf format level args (l, w) = Returned tt s' /\
     V2_wf s' /\ sync.free (V2.mu (fst s'))).
Proof.
  intros Hfree Hwf.
  split.
  { intros level. rewrite (V2_SetLogLevel_spec l w level Hfree).
    eexists; split; [reflexivity|]. split; [|exact Hfree].
    destruct Hwf as (? & ? & ? & ?). now repeat split. }
  split.
  { intros path. destruct (can_open w path) eqn:Hopen.
    - destruct (V2_SetOutput_ok l w path Hfree Hwf Hopen)
        as (lx & wx & fd & h & E & Hfile & Hbw & Hout & Hpre & Hmu & Hlvl & Hwr
            & Hfd & _).
      exists None, (lx, wx). split; [exact E|]. split; [|exact Hmu].
      repeat split; simpl.
      + congruence.
      + rewrite Hout, Hwr. eauto.
      + assumption.
      + intros f Hf. rewrite Hfile in Hf. injection Hf as <-. rewrite Hfd. eauto.
    - destruct (V2_SetOutput_fail l w path Hfree Hwf Hopen) as (wx & E & Hs & Hl & _).
      exists (Some (PathError path)), (l, wx). split; [exact E|].
      split; [|exact Hfree]. apply wf_lengths_V2 with w; try assumption.
      apply (f_equal (@length _)) in Hs. now rewrite !length_map in Hs. }
  split.
  { destruct (V2_Flush_spec l w Hfree Hwf) as (r & w1 & _ & How & E).
    destruct (only_wrote_lengths _ _ How) as [Hl1 Hl2].
    destruct r as [e|]; [|destruct (V2.logFile l)];
      eexists _, _; (split; [exact E|]); (split; [|exact Hfree]);
      now apply wf_lengths_V2 with w. }
  split.
  { destruct (V2_Close_spec l w Hfree Hwf) as (r & w1 & E & Hl1 & Hl2).
    eexists _, _; split; [exact E|]. split; [|exact Hfree].
    now apply wf_lengths_V2 with w. }
  split.
  { intros level args Hne. apply Z.eqb_neq in Hne.
    destruct (Z.lt_ge_cases level (V2.logLevel l)) as [Hlt|Hge].
    - exists (l, w). split; [now apply V2_Log_filtered | now split].
    - destruct (V2_Log_accepted l w level args Hfree Hwf Hge) as (w' & Hlg & E).
      rewrite Hne in E. exists (l, w'). split; [exact E|]. split; [|exact Hfree].
      destruct (logged_lengths _ _ _ _ Hlg). now apply wf_lengths_V2 with w. }
  intros format level args Hne. apply Z.eqb_neq in Hne.
  destruct (Z.lt_ge_cases level (V2.logLevel l)) as [Hlt|Hge].
  - exists (l, w). split; [now apply V2_Logf_filtered | now split].
  - destruct (V2_Logf_accepted l w format level args Hfree Hwf Hge) as (w' & Hlg & E).
    rewrite Hne in E. exists (l, w'). split; [exact E|]. split; [|exact Hfree].
    destruct (logged_lengths _ _ _ _ Hlg). now apply wf_lengths_V2 with w.
Qed.

(** X14.  The same for the first variant: every call on a logger at
    rest, a Fatal write apart, returns and leaves the lock free and the
    invariant in place ([SetLogLevel], [SetOutput], [Flush], [Log],
    [Logf]). *)
Theorem V1_calls_keep_invariant (l : V1.LogExtended) (w : World) :
  sync.free (V1.mu l) -> V1_wf (l, w) ->
  (forall lvl, exists s',
     V1.SetLogLevel lvl (l, w) = Returned tt s' /\
     V1_wf s' /\ sync.free (V1.mu (fst s'))) /\
  (forall path, exists r s',
     V1.SetOutput path (l, w) = Returned r s' /\
     V1_wf s' /\ sync.free (V1.mu (fst s'))) /\
  (exists r s', V1.Flush (l, w) = Returned r s' /\
                V1_wf s' /\ sync.free (V1.mu (fst s'))) /\
  (forall lvl args, lvl <> LogLevelFatal -> exists s',
     V1.Log lvl args (l, w) = Returned tt s' /\
     V1_wf s' /\ sync.free (V1.mu (fst s'))) /\
  (forall lvl format args, lvl <> LogLevelFatal -> exists s',
     V1.Logf lvl format args (l, w) = Returned tt s' /\
     V1_wf s' /\ sync.free (V1.mu (fst s'))).
Proof.
  intros Hfree Hwf.
  split.
  { intros lvl. rewrite (V1_SetLogLevel_spec l w lvl Hfree).
    eexists; split; [reflexivity|]. split; [|exact Hfree].
    destruct Hwf as (? & ? & ? & ?). now repeat split. }
  split.
  { intros path. destruct (can_open w path) eqn:Hopen.
    - destruct (V1_SetOutput_ok l w path Hfree Hwf Hopen)
        as (lx & wx & fd & h & E & Hfile & Hbw & Hout & Hpre & Hmu & Hlvl & Hwr
            & Hfd & _).
      exists None, (lx, wx). split; [exact E|]. split; [|exact Hmu].
      repeat split; simpl.
      + congruence.
      + rewrite Hout, Hwr. eauto.
      + assumption.
      + intros f Hf. rewrite Hfile in Hf. injection Hf as <-. rewrite Hfd. eauto.
    - destruct (V1_SetOutput_fail l w path Hfree Hwf Hopen) as (wx & E & Hc & Hs & _).
      exists (Some (PathError path)), (l, wx). split; [exact E|].
      split; [|exact Hfree]. apply wf_lengths_V1 with w; try assumption.
      + apply (f_equal (@length _)) in Hc. now rewrite !length_map in Hc.
      + apply (f_equal (@length _)) in Hs. now rewrite !length_map in Hs. }
  split.
  { destruct (V1_Flush_spec l w Hfree Hwf) as (r & w1 & _ & How & E).
    destruct (only_wrote_lengths _ _ How) as [Hl1 Hl2].
    eexists _, _; split; [exact E|]. split; [|exact Hfree].
    now apply wf_lengths_V1 with w. }
  split.
  { intros lvl args Hne. apply Z.eqb_neq in Hne.
    destruct (Z.lt_ge_cases lvl (V1.logLevel l)) as [Hlt|Hge].
    - exists (l, w). split; [now apply V1_Log_filtered | now split].
    - destruct (V1_Log_accepted l w lvl args Hfree Hwf Hge) as (w' & Hlg & E).
      rewrite Hne in E. exists (l, w'). split; [exact E|]. split; [|exact Hfree].
      destruct (logged_lengths _ _ _ _ Hlg). now apply wf_lengths_V1 with w. }
  intros lvl format args Hne. apply Z.eqb_neq in Hne.
  destruct (Z.lt_ge_cases lvl (V1.logLevel l)) as [Hlt|Hge].
  - exists (l, w). split; [now apply V1_Logf_filtered | now split].
  - destruct (V1_Logf_accepted l w lvl format args Hfree Hwf Hge) as (w' & Hlg & E).
    rewrite Hne in E. exists (l, w'). split; [exact E|]. split; [|exact Hfree].
    destruct (logged_lengths _ _ _ _ Hlg). now apply wf_lengths_V1 with w.
Qed.

(* ===================================================================== *)
(** * Examples *)
(* ===================================================================== *)

Example Sprintf_cart :
  fmt.Sprintf "%s has %d items" [fmt.VString "cart"; fmt.VInt 3] = "cart has 3 items".
Proof. reflexivity. Qed.

Example Sprintf_forgiving :
  fmt.Sprintf "%d %s" [fmt.VString "cart"] = "%!d(string=cart) %!s(MISSING)" /\
  fmt.Sprintf "done" [fmt.VInt 7; fmt.VBool true] = "done%!(EXTRA int=7, bool=true)".
Proof. split; reflexivity. Qed.

Example Sprint_spacing :
  fmt.Sprint [fmt.VString "n="; fmt.VInt 3; fmt.VInt 4; fmt.VString "!"] = "n=3 4!".
Proof. reflexivity. Qed.

Example Format_noon : time.Format noon = "2024-03-07 12:00:00".
Proof. reflexivity. Qed.

(** The Fatal scenario of section 8: threshold Debug, [Fatal("shutdown")].
    The call is parked; the line is in the buffer, the console is empty,
    and the only thing asked of the system was the time. *)
Example Fatal_shutdown_scenario :
  let s0 := (V2.set_logLevel LogLevelDebug (fst (V2_fresh (machine false))),
             snd (V2_fresh (machine false))) in
  let o := V2.Fatal [fmt.VString "shutdown"] s0 in
  o = Blocked (final o) /\
  V2.mu (fst (final o)) = held /\
  console (snd (final o)) = "" /\
  writers (snd (final o))
  = [mkWriter (Direct Stdout) ("[2024-03-07 12:00:00] [FATAL] shutdown" ++ nl) None] /\
  trace (snd (final o)) = [EvNow].
Proof. vm_compute. repeat split. Qed.

(** An Info line and a flush on a fresh logger: one write to the
    console. *)
Example Info_then_Flush :
  let o := (_ <- V2.Info [fmt.VString "ready"] ;; V2.Flush) (V2_fresh (machine false)) in
  result o = Some None /\
  console (snd (final o)) = "[2024-03-07 12:00:00] [INFO] ready" ++ nl /\
  trace (snd (final o))
  = [EvNow; EvWrite Stdout ("[2024-03-07 12:00:00] [INFO] ready" ++ nl) None].
Proof. vm_compute. repeat split. Qed.

(* ===================================================================== *)
(** * Further lemmas on the process model *)
(* ===================================================================== *)

Lemma closes_app (t1 t2 : list event) :
  closes (t1 ++ t2)%list = (closes t1 + closes t2)%nat.
Proof. unfold closes. now rewrite List.filter_app, length_app. Qed.

Lemma closes_quiet (t : list event) : closes (quiet t) = closes t.
Proof.
  unfold closes, quiet. induction t as [|e t IH]; [reflexivity|].
  destruct e; simpl; auto; now rewrite IH.
Qed.

Lemma only_wrote_closes (w w' : World) :
  only_wrote w w' -> closes (trace w') = closes (trace w).
Proof.
  intros How. rewrite <- (closes_quiet (trace w')), (ow_quiet _ _ How).
  apply closes_quiet.
Qed.

(** A device that cannot take a write is left as it is. *)
Lemma os_Write_fail (d : Dev) (p : string) (w : World) e :
  dev_error w d = Some e ->
  os.Write d p w = (Some e, emit (EvWrite d p (Some e)) w).
Proof.
  destruct d as [|fd]; simpl; intros H.
  - destruct (fails w Stdout); [now injection H as <- | discriminate].
  - now rewrite H.
Qed.

(** A tee whose first device cannot take a write stops there: the other
    devices are not tried. *)
Lemma io_Write_starved (d0 : Dev) (ds : list Dev) (p : string) (w : World) e :
  dev_error w d0 = Some e ->
  io.Write (MultiWriter (d0 :: ds)) p w = (Some e, emit (EvWrite d0 p (Some e)) w).
Proof. intros H. simpl. now rewrite (os_Write_fail d0 p w e H). Qed.

Lemma bufio_Write_starved (h : nat) (p : string) (w : World) (b : Writer) d0 ds e :
  writers w !! h = Some b -> wr b = MultiWriter (d0 :: ds) ->
  dev_error w d0 = Some e ->
  exists r w', bufio.Write h p w = Returned r w' /\
               forall d, dev_data w' d = dev_data w d.
Proof.
  intros Hb Hwr Hd. unfold bufio.Write. rewrite Hb, Hwr.
  destruct (err b); [eauto|].
  destruct (len p <=? bufio.Available b)%nat.
  { eexists _, _; split; [reflexivity|]. intros d. apply dev_data_set_writer. }
  destruct (len (buf b) =? 0)%nat; rewrite (io_Write_starved _ _ _ _ _ Hd);
    (eexists _, _; split; [reflexivity|]); intros d;
    now rewrite dev_data_set_writer, dev_data_emit.
Qed.

Lemma bufio_Flush_starved (h : nat) (w : World) (b : Writer) d0 ds e :
  writers w !! h = Some b -> wr b = MultiWriter (d0 :: ds) ->
  dev_error w d0 = Some e ->
  exists r w', bufio.Flush h w = Returned r w' /\
               (forall d, dev_data w' d = dev_data w d) /\
               (buf b <> "" -> r <> None).
Proof.
  intros Hb Hwr Hd. unfold bufio.Flush. rewrite Hb, Hwr.
  destruct (err b) as [e0|].
  { eexists _, _; split; [reflexivity|]. split; [reflexivity | discriminate]. }
  destruct (len (buf b) =? 0)%nat eqn:Hempty.
  { apply len_zero in Hempty. eexists _, _; split; [reflexivity|].
    split; [reflexivity | congruence]. }
  rewrite (io_Write_starved _ _ _ _ _ Hd).
  eexists _, _; split; [reflexivity|]. split; [|discriminate].
  intros d. now rewrite dev_data_set_writer, dev_data_emit.
Qed.

(** After a flush that went through, a second flush has nothing to do. *)
Lemma bufio_Flush_again (h : nat) (w w1 : World) :
  bufio.Flush h w = Returned None w1 -> bufio.Flush h w1 = Returned None w1.
Proof.
  unfold bufio.Flush at 1. destruct (writers w !! h) as [b|] eqn:Hb; [|discriminate].
  destruct (err b) eqn:Herr; [discriminate|].
  destruct (len (buf b) =? 0)%nat eqn:Hempty.
  { intros [= <-]. unfold bufio.Flush. now rewrite Hb, Herr, Hempty. }
  pose proof (io_Write_only_wrote (wr b) (buf b) w) as [_ Hws].
  destruct (io.Write (wr b) (buf b) w) as [[e|] w']; [discriminate|].
  simpl in Hws. intros [= <-]. unfold bufio.Flush.
  rewrite (lookup_set_writer h _ b w') by congruence. reflexivity.
Qed.

(** A writer that holds an earlier error takes nothing and touches
    nothing. *)
Lemma bufio_Write_sticky (h : nat) (p : string) (w : World) (b : Writer) e :
  writers w !! h = Some b -> err b = Some e ->
  bufio.Write h p w = Returned (Some e) w.
Proof. intros Hb He. unfold bufio.Write. now rewrite Hb, He. Qed.

Lemma bufio_Flush_sticky (h : nat) (w : World) (b : Writer) e :
  writers w !! h = Some b -> err b = Some e ->
  bufio.Flush h w = Returned (Some e) w.
Proof. intros Hb He. unfold bufio.Flush. now rewrite Hb, He. Qed.

(* ===================================================================== *)
(** * Further lemmas on the two variants *)
(* ===================================================================== *)

(** An accepted write below Fatal is one reading of the clock and one
    [Write] of the line to the logger's buffered writer. *)
Lemma V1_Log_write (l : V1.LogExtended) (w : World) lvl args :
  sync.free (V1.mu l) -> V1_wf (l, w) -> V1.logLevel l <= lvl ->
  lvl <> LogLevelFatal ->
  exists r w',
    bufio.Write (log.out (V1.logger l))
      (spec_line (time.Format (clock w)) lvl (fmt.Sprint args) ++ nl)
      (emit EvNow w) = Returned r w' /\
    V1.Log lvl args (l, w) = Returned tt (l, w').
Proof.
  intros Hfree (Hal & Hw & Hpre & _) Hge Hne. unfold sync.free in Hfree.
  apply Z.eqb_neq in Hne.
  destruct l as [m lg bw ll lf]; simpl in *; subst.
  destruct (bufio_Write_returns (log.out lg)
              (spec_line (time.Format (clock w)) lvl (fmt.Sprint args) ++ nl)
              (emit EvNow w)) as (r & w' & E & How); [exact Hw|].
  exists r, w'. split; [exact E|].
  unfold_v1. simpl.
  assert (Hlt : (lvl <? ll) = false) by (apply Z.ltb_ge; lia).
  rewrite Hlt.
  rewrite Sprintf_line_v, Hpre. simpl.
  unfold fmt.Sprintln. simpl. unfold spec_line in E. simpl in E. rewrite E. simpl.
  now rewrite Hne.
Qed.

Lemma V1_Logf_write (l : V1.LogExtended) (w : World) lvl format args :
  sync.free (V1.mu l) -> V1_wf (l, w) -> V1.logLevel l <= lvl ->
  lvl <> LogLevelFatal ->
  exists r w',
    bufio.Write (log.out (V1.logger l))
      (spec_line (time.Format (clock w)) lvl (fmt.Sprintf format args) ++ nl)
      (emit EvNow w) = Returned r w' /\
    V1.Logf lvl format args (l, w) = Returned tt (l, w').
Proof.
  intros Hfree (Hal & Hw & Hpre & _) Hge Hne. unfold sync.free in Hfree.
  apply Z.eqb_neq in Hne.
  destruct l as [m lg bw ll lf]; simpl in *; subst.
  destruct (bufio_Write_returns (log.out lg)
              (spec_line (time.Format (clock w)) lvl (fmt.Sprintf format args) ++ nl)
              (emit EvNow w)) as (r & w' & E & How); [exact Hw|].
  exists r, w'. split; [exact E|].
  unfold_v1. simpl.
  assert (Hlt : (lvl <? ll) = false) by (apply Z.ltb_ge; lia).
  rewrite Hlt.
  rewrite Sprintf_line_s, Hpre. simpl.
  unfold fmt.Sprintln. simpl. unfold spec_line in E. simpl in E. rewrite E. simpl.
  now rewrite Hne.
Qed.

Lemma V2_Log_write (l : V2.LogExtended) (w : World) level args :
  sync.free (V2.mu l) -> V2_wf (l, w) -> V2.logLevel l <= level ->
  level <> LogLevelFatal ->
  exists r w',
    bufio.Write (log.out (V2.logger l))
      (spec_line (time.Format (clock w)) level (fmt.Sprint args) ++ nl)
      (emit EvNow w) = Returned r w' /\
    V2.Log level args (l, w) = Returned tt (l, w').
Proof.
  intros Hfree (Hal & Hw & Hpre & _) Hge Hne. unfold sync.free in Hfree.
  apply Z.eqb_neq in Hne.
  destruct l as [bw lf ll lg m]; simpl in *; subst.
  destruct (bufio_Write_returns (log.out lg)
              (spec_line (time.Format (clock w)) level (fmt.Sprint args) ++ nl)
              (emit EvNow w)) as (r & w' & E & How); [exact Hw|].
  exists r, w'. split; [exact E|].
  unfold_v2. simpl.
  assert (Hlt : (level <? ll) = false) by (apply Z.ltb_ge; lia).
  rewrite Hlt. simpl.
  rewrite Sprintf_line_v, Hpre. simpl.
  unfold fmt.Sprintln. simpl. unfold spec_line in E. simpl in E. rewrite E. simpl.
  now rewrite Hne.
Qed.

Lemma V2_Logf_write (l : V2.LogExtended) (w : World) format level args :
  sync.free (V2.mu l) -> V2_wf (l, w) -> V2.logLevel l <= level ->
  level <> LogLevelFatal ->
  exists r w',
    bufio.Write (log.out (V2.logger l))
      (spec_line (time.Format (clock w)) level (fmt.Sprintf format args) ++ nl)
      (emit EvNow w) = Returned r w' /\
    V2.Logf format level args (l, w) = Returned tt (l, w').
Proof.
  intros Hfree (Hal & Hw & Hpre & _) Hge Hne. unfold sync.free in Hfree.
  apply Z.eqb_neq in Hne.
  destruct l as [bw lf ll lg m]; simpl in *; subst.
  destruct (bufio_Write_returns (log.out lg)
              (spec_line (time.Format (clock w)) level (fmt.Sprintf format args) ++ nl)
              (emit EvNow w)) as (r & w' & E & How); [exact Hw|].
  exists r, w'. split; [exact E|].
  unfold_v2. simpl.
  assert (Hlt : (level <? ll) = false) by (apply Z.ltb_ge; lia).
  rewrite Hlt. simpl.
  rewrite Sprintf_line_s, Hpre. simpl.
  unfold fmt.Sprintln. simpl. unfold spec_line in E. simpl in E. rewrite E. simpl.
  now rewrite Hne.
Qed.

(** [Close] of the second variant, step by step: the flush of the
    buffered writer, then the close of the backing file if there is one;
    the error of the close, when there is one, replaces that of the
    flush. *)
Lemma V2_Close_steps (l : V2.LogExtended) (w : World) :
  sync.free (V2.mu l) -> V2_wf (l, w) ->
  exists r0 w0,
    bufio.Flush (log.out (V2.logger l)) w = Returned r0 w0 /\
    only_wrote w w0 /\
    match V2.logFile l with
    | None => V2.Close (l, w) = Returned r0 (l, w0)
    | Some f =>
        exists rc w1,
          os.Close f w0 = Returned rc w1 /\
          V2.Close (l, w)
          = Returned (match rc with Some e => Some e | None => r0 end) (l, w1)
    end.
Proof.
  intros Hfree (Hal & Hw & _). unfold sync.free in Hfree.
  destruct l as [bw lf ll lg m]; simpl in *; subst.
  destruct (bufio_Flush_returns (log.out lg) w Hw) as (r & w0 & E & How).
  exists r, w0. split; [exact E|]. split; [exact How|].
  unfold_v2. simpl. rewrite E. simpl.
  destruct lf as [f|]; simpl; [|reflexivity].
  destruct (os_Close_lengths f w0) as (rc & w1 & E1 & _).
  exists rc, w1. split; [exact E1|]. rewrite E1. simpl.
  destruct rc; reflexivity.
Qed.

(* ===================================================================== *)
(** * Further properties of the code *)
(* ===================================================================== *)

(** Well-formedness of a state that is given as the result of a run. *)
Ltac wf_by_run :=
  vm_compute; repeat split;
  first [ eexists; reflexivity
        | discriminate
        | intros ? [= <-]; eexists; reflexivity
        | idtac ].

Lemma os_Close_closes (f : nat) (w : World) :
  is_Some (files w !! f) ->
  exists rc w1,
    os.Close f w = Returned rc w1 /\
    closes (trace w1) = S (closes (trace w)) /\
    f_closed <$> files w1 !! f = Some true /\
    length (files w1) = length (files w) /\ writers w1 = writers w /\
    (forall fd, fd <> f -> files w1 !! fd = files w !! fd) /\
    (rc = None <-> f_closed <$> files w !! f = Some false).
Proof.
  intros [fl Hfl]. unfold os.Close. rewrite Hfl.
  destruct (f_closed fl) eqn:Hc; eexists _, _; (split; [reflexivity|]); simpl;
    rewrite closes_app; simpl.
  - split; [unfold closes at 2; simpl; lia|].
    split; [now rewrite Hfl; simpl; rewrite Hc|].
    do 3 (split; [reflexivity|]). rewrite Hc. split; discriminate.
  - split; [unfold closes at 2; simpl; lia|].
    split; [now rewrite list_lookup_alter_eq, Hfl|].
    split; [apply length_alter|]. split; [reflexivity|].
    split; [intros fd Hne; now apply list_lookup_alter_ne|].
    rewrite Hc. split; reflexivity.
Qed.

(** Both steps of [Close], and what each leaves behind. *)
Lemma V2_Close_both (l : V2.LogExtended) (w : World) :
  sync.free (V2.mu l) -> V2_wf (l, w) ->
  exists r0 w0,
    bufio.Flush (log.out (V2.logger l)) w = Returned r0 w0 /\
    mlog.Close (l, w) = V2.Close (l, w) /\
    match V2.logFile l with
    | None =>
        V2.Close (l, w) = Returned r0 (l, w0) /\
        closes (trace w0) = closes (trace w)
    | Some f =>
        exists rc w1,
          os.Close f w0 = Returned rc w1 /\
          V2.Close (l, w)
          = Returned (match rc with Some e => Some e | None => r0 end) (l, w1) /\
          closes (trace w1) = S (closes (trace w)) /\
          f_closed <$> files w1 !! f = Some true
    end.
Proof.
  intros Hfree Hwf.
  destruct (V2_Close_steps l w Hfree Hwf) as (r0 & w0 & E & How & H).
  exists r0, w0. split; [exact E|]. split; [reflexivity|].
  destruct (V2.logFile l) as [f|] eqn:Hlf.
  - destruct H as (rc & w1 & E1 & EC).
    destruct Hwf as (_ & _ & _ & Hfile).
    destruct (os_Close_closes f w0) as (rc' & w1' & E1' & Hcl & Hclosed & _).
    { eapply only_wrote_file; [exact How|]. now apply Hfile. }
    rewrite E1 in E1'. injection E1' as <- <-.
    exists rc, w1. split; [exact E1|]. split; [exact EC|].
    split; [|exact Hclosed]. now rewrite Hcl, (only_wrote_closes _ _ How).
  - split; [exact H|]. now apply only_wrote_closes.
Qed.

(** X1.  [Close] (second variant, and [mlog.Close]) always runs both of
    its steps: the buffered writer is flushed and then, whatever the
    flush returned, the backing file is closed, once.  The file is closed
    afterwards.  The result is the error of the close when the close
    fails, otherwise the result of the flush.  With no backing file
    [Close] is the flush alone and closes nothing. *)
Theorem X1_Close_runs_both_steps (l : V2.LogExtended) (w : World) :
  sync.free (V2.mu l) -> V2_wf (l, w) ->
  exists r0 w0,
    bufio.Flush (log.out (V2.logger l)) w = Returned r0 w0 /\
    mlog.Close (l, w) = V2.Close (l, w) /\
    match V2.logFile l with
    | None =>
        V2.Close (l, w) = Returned r0 (l, w0) /\
        closes (trace w0) = closes (trace w)
    | Some f =>
        exists rc w1,
          os.Close f w0 = Returned rc w1 /\
          V2.Close (l, w)
          = Returned (match rc with Some e => Some e | None => r0 end) (l, w1) /\
          closes (trace w1) = S (closes (trace w)) /\
          f_closed <$> files w1 !! f = Some true
    end.
Proof. apply V2_Close_both. Qed.

(** [Close] on a logger that tees to [app.log], nothing buffered. *)
Lemma X1_witness :
  exists w1,
    V2.Close (V2_teeing (machine false)) = Returned None (fst (V2_teeing (machine false)), w1) /\
    files w1 = [mkFile "app.log" true ""].
Proof.
  destruct (X1_Close_runs_both_steps
              (fst (V2_teeing (machine false))) (snd (V2_teeing (machine false))))
    as (r0 & w0 & E0 & _ & H).
  - reflexivity.
  - wf_by_run.
  - vm_compute in E0. injection E0 as <- <-.
    change (V2.logFile (fst (V2_teeing (machine false)))) with (Some 0%nat) in H.
    destruct H as (rc & w1 & E1 & EC & _).
    vm_compute in E1. injection E1 as <- <-.
    eexists. split; [exact EC | reflexivity].
Defined.

(** X2.  [Close] is not idempotent when there is a backing file: the
    struct keeps pointing to the closed file, so a second [Close] reports
    [ErrClosed], whatever the first one returned.  With no backing file,
    a [Close] that returned no error can be repeated: the second one
    returns no error and changes nothing. *)
Theorem X2_Close_twice (l : V2.LogExtended) (w : World) :
  sync.free (V2.mu l) -> V2_wf (l, w) ->
  exists r1 w1,
    V2.Close (l, w) = Returned r1 (l, w1) /\
    match V2.logFile l with
    | Some f => exists w2, V2.Close (l, w1) = Returned (Some ErrClosed) (l, w2)
    | None => r1 = None -> V2.Close (l, w1) = Returned None (l, w1)
    end.
Proof.
  intros Hfree Hwf.
  destruct (V2_Close_both l w Hfree Hwf) as (r0 & w0 & E0 & _ & H).
  destruct (V2_Close_spec l w Hfree Hwf) as (r1 & w1 & EC & Hl1 & Hl2).
  assert (Hwf1 : V2_wf (l, w1)) by now apply wf_lengths_V2 with w.
  exists r1, w1. split; [exact EC|].
  destruct (V2_Close_steps l w1 Hfree Hwf1) as (r0' & w0' & E0' & How' & H').
  destruct (V2.logFile l) as [f|] eqn:Hlf.
  - destruct H as (rc & wx & _ & ECx & _ & Hclosed).
    rewrite EC in ECx. injection ECx as _ <-.
    destruct H' as (rc' & w2 & E2 & EC2).
    exists w2. rewrite EC2. f_equal.
    assert (Hc0 : f_closed <$> files w0' !! f = Some true).
    { rewrite <- lookup_map, (ow_closed _ _ How'), lookup_map. exact Hclosed. }
    unfold os.Close in E2.
    destruct (files w0' !! f) as [fl|]; [|discriminate].
    simpl in Hc0. injection Hc0 as Hc0. rewrite Hc0 in E2.
    now injection E2 as <- _.
  - destruct H as [ECx _]. rewrite EC in ECx. injection ECx as -> <-.
    intros ->. rewrite (bufio_Flush_again _ _ _ E0) in E0'.
    injection E0' as <- <-. exact H'.
Qed.

(** Two [Close]s on a logger that tees to [app.log]. *)
Lemma X2_witness :
  exists w1 w2,
    V2.Close (V2_teeing (machine false))
      = Returned None (fst (V2_teeing (machine false)), w1) /\
    V2.Close (fst (V2_teeing (machine false)), w1)
      = Returned (Some ErrClosed) (fst (V2_teeing (machine false)), w2).
Proof.
  destruct (X2_Close_twice
              (fst (V2_teeing (machine false))) (snd (V2_teeing (machine false))))
    as (r1 & w1 & E1 & H).
  - reflexivity.
  - wf_by_run.
  - change (V2.logFile (fst (V2_teeing (machine false)))) with (Some 0%nat) in H.
    destruct H as (w2 & E2).
    vm_compute in E1. injection E1 as <- <-.
    eexists _, _. split; [reflexivity | exact E2].
Defined.

Lemma len_nonzero (s : string) : s <> "" -> (len s =? 0)%nat = false.
Proof. destruct s; [congruence | reflexivity]. Qed.

(** X3.  The tee writes to the file first and stops at the first error.
    When the file under the tee cannot take writes (it was closed by
    [Close] or by a failed [SetOutput], or its device fails), nothing
    reaches the console either: an accepted write and a flush leave every
    device as it was, and [Flush] reports an error as soon as something is
    buffered. *)
Theorem X3_tee_starves_console_when_file_fails
    (l : V2.LogExtended) (w : World) (b : Writer) (f : nat) (ds : list Dev)
    (e : error) (level : LogLevel) (format : string) (args : list fmt.value) :
  sync.free (V2.mu l) -> V2_wf (l, w) ->
  writers w !! log.out (V2.logger l) = Some b ->
  wr b = MultiWriter (FileDev f :: ds) ->
  dev_error w (FileDev f) = Some e ->
  V2.logLevel l <= level -> level <> LogLevelFatal ->
  (exists w', V2.Log level args (l, w) = Returned tt (l, w') /\
              forall d, dev_data w' d = dev_data w d) /\
  (exists w', V2.Logf format level args (l, w) = Returned tt (l, w') /\
              forall d, dev_data w' d = dev_data w d) /\
  (exists r w', V2.Flush (l, w) = Returned r (l, w') /\
                (forall d, dev_data w' d = dev_data w d) /\
                (buf b <> "" -> r <> None)).
Proof.
  intros Hfree Hwf Hb Hwr Hd Hge Hne.
  split; [|split].
  - destruct (V2_Log_write l w level args Hfree Hwf Hge Hne) as (r & w' & E & EL).
    exists w'. split; [exact EL|].
    destruct (bufio_Write_starved (log.out (V2.logger l))
                (spec_line (time.Format (clock w)) level (fmt.Sprint args) ++ nl)
                (emit EvNow w) b (FileDev f) ds e Hb Hwr Hd)
      as (r2 & w2 & E2 & Hsame).
    rewrite E in E2. injection E2 as <- <-.
    intros d. now rewrite Hsame, dev_data_emit.
  - destruct (V2_Logf_write l w format level args Hfree Hwf Hge Hne)
      as (r & w' & E & EL).
    exists w'. split; [exact EL|].
    destruct (bufio_Write_starved (log.out (V2.logger l))
                (spec_line (time.Format (clock w)) level (fmt.Sprintf format args) ++ nl)
                (emit EvNow w) b (FileDev f) ds e Hb Hwr Hd)
      as (r2 & w2 & E2 & Hsame).
    rewrite E in E2. injection E2 as <- <-.
    intros d. now rewrite Hsame, dev_data_emit.
  - destruct (V2_Flush_spec l w Hfree Hwf) as (r & w' & E & _ & EF).
    destruct (bufio_Flush_starved (log.out (V2.logger l)) w b (FileDev f) ds e
                Hb Hwr Hd) as (r2 & w2 & E2 & Hsame & Hr).
    rewrite E in E2. injection E2 as <- <-.
    destruct r as [e0|].
    + exists (Some e0), w'. split; [exact EF|]. split; [exact Hsame | discriminate].
    + destruct (V2.logFile l) as [f'|].
      * eexists _, _. split; [exact EF|]. split.
        -- intros d. now rewrite dev_data_emit.
        -- intros Hbuf. now destruct (Hr Hbuf).
      * exists None, w'. split; [exact EF|]. split; [exact Hsame | exact Hr].
Qed.

(** A logger that tees to [app.log], after [Close]: a Warning line is
    accepted and lost. *)
Lemma X3_witness :
  let s := final (V2.Close (V2_teeing (machine false))) in
  exists w', V2.Log LogLevelWarning [fmt.VString "late"] s = Returned tt (fst s, w') /\
             forall d, dev_data w' d = dev_data (snd s) d.
Proof.
  intros s.
  refine (proj1 (X3_tee_starves_console_when_file_fails
                   (fst s) (snd s) (mkWriter (MultiWriter [FileDev 0; Stdout]) "" None)
                   0%nat [Stdout] ErrClosed LogLevelWarning "" [fmt.VString "late"]
                   _ _ _ _ _ _ _)).
  - reflexivity.
  - wf_by_run.
  - reflexivity.
  - reflexivity.
  - reflexivity.
  - vm_compute. discriminate.
  - discriminate.
Defined.

(** X4.  When the console cannot take writes but the file can, a flush of
    the tee hands the buffered bytes to the file and then fails on the
    console: [Flush] returns the console's error without syncing, the
    console is as it was, and the buffered writer keeps both the bytes and
    the error. *)
Theorem X4_tee_console_down
    (l : V2.LogExtended) (w : World) (b : Writer) (f : nat) :
  sync.free (V2.mu l) -> V2_wf (l, w) ->
  writers w !! log.out (V2.logger l) = Some b ->
  wr b = MultiWriter [FileDev f; Stdout] -> err b = None -> buf b <> "" ->
  dev_error w (FileDev f) = None -> fails w Stdout = true ->
  exists w',
    V2.Flush (l, w) = Returned (Some ErrDevice) (l, w') /\
    dev_data w' (FileDev f) = dev_data w (FileDev f) ++ buf b /\
    console w' = console w /\
    writers w' !! log.out (V2.logger l)
    = Some (mkWriter (MultiWriter [FileDev f; Stdout]) (buf b) (Some ErrDevice)) /\
    syncs (trace w') = syncs (trace w).
Proof.
  intros Hfree Hwf Hb Hwr Herr Hbuf Hfile Hcons.
  destruct (V2_Flush_spec l w Hfree Hwf) as (r & w' & E & How & EF).
  destruct (os_Write_ok (FileDev f) (buf b) w Hfile) as (w1 & E1 & Hd1 & Hother).
  pose proof (os_Write_only_wrote (FileDev f) (buf b) w) as How1.
  pose proof (os_Write_writers (FileDev f) (buf b) w) as Hws1.
  rewrite E1 in How1, Hws1. simpl in How1, Hws1.
  assert (Hc1 : fails w1 Stdout = true) by now rewrite (ow_fails _ _ How1).
  assert (E2 : os.Write Stdout (buf b) w1
               = (Some ErrDevice, emit (EvWrite Stdout (buf b) (Some ErrDevice)) w1)).
  { apply os_Write_fail. simpl. now rewrite Hc1. }
  unfold bufio.Flush in E. rewrite Hb, Herr, (len_nonzero _ Hbuf), Hwr in E.
  unfold io.Write, io.write_all in E. rewrite E1, E2 in E.
  injection E as <- <-.
  exists (bufio.set_writer (log.out (V2.logger l))
            (mkWriter (MultiWriter [FileDev f; Stdout]) (buf b) (Some ErrDevice))
            (emit (EvWrite Stdout (buf b) (Some ErrDevice)) w1)).
  split; [exact EF|].
  split; [now rewrite dev_data_set_writer, dev_data_emit|].
  split; [change (dev_data w1 Stdout = dev_data w Stdout); apply Hother; discriminate|].
  split.
  - apply lookup_set_writer with b. simpl. now rewrite Hws1.
  - rewrite <- syncs_quiet, (ow_quiet _ _ How). apply syncs_quiet.
Qed.

(** The tee on [app.log] with the console down and one Info line
    buffered. *)
Lemma X4_witness :
  let s := final (V2.Info [fmt.VString "hello"] (V2_teeing (machine true))) in
  exists w', V2.Flush s = Returned (Some ErrDevice) (fst s, w') /\
             dev_data w' (FileDev 0) = "[2024-03-07 12:00:00] [INFO] hello" ++ nl /\
             console w' = "".
Proof.
  intros s.
  destruct (X4_tee_console_down (fst s) (snd s)
              (mkWriter (MultiWriter [FileDev 0; Stdout])
                        ("[2024-03-07 12:00:00] [INFO] hello" ++ nl) None) 0%nat)
    as (w' & E & Hf & Hc & _).
  - reflexivity.
  - wf_by_run.
  - reflexivity.
  - reflexivity.
  - reflexivity.
  - discriminate.
  - reflexivity.
  - reflexivity.
  - exists w'. split; [exact E|]. split; [exact Hf | exact Hc].
Defined.

Lemma map_alter_closed (f : nat) (fs : list File) :
  map f_closed (alter os.mark_closed f fs) = <[f := true]> (map f_closed fs).
Proof.
  revert f; induction fs as [|x fs IH]; intros [|f]; simpl; try reflexivity.
  f_equal. apply IH.
Qed.

(** The open and closed state of the files after [os.Close]. *)
Lemma os_Close_flags (f : nat) (w : World) :
  exists rc w1,
    os.Close f w = Returned rc w1 /\
    map f_closed (files w1) = <[f := true]> (map f_closed (files w)) /\
    can_open w1 = can_open w /\ writers w1 = writers w /\
    clock w1 = clock w /\ fails w1 = fails w.
Proof.
  unfold os.Close. destruct (files w !! f) as [fl|] eqn:Hfl.
  - destruct (f_closed fl) eqn:Hc; eexists _, _; (split; [reflexivity|]); simpl;
      (split; [|repeat split]).
    + symmetry. apply list_insert_id. rewrite lookup_map, Hfl. simpl. now rewrite Hc.
    + apply map_alter_closed.
  - eexists _, _; split; [reflexivity|]. simpl. split; [|repeat split].
    symmetry. apply list_insert_ge. rewrite length_map.
    now apply lookup_ge_None.
Qed.

(** The files after a successful [SetOutput]: the previous backing file
    is closed, the new file is added, open, and becomes the backing file;
    no other file changes state. *)
Lemma V2_SetOutput_ok_files (l : V2.LogExtended) (w : World) path :
  sync.free (V2.mu l) -> V2_wf (l, w) -> can_open w path = true ->
  exists l1 w1,
    V2.SetOutput path (l, w) = Returned None (l1, w1) /\
    V2.logFile l1 = Some (length (files w)) /\
    map f_closed (files w1)
    = ((match V2.logFile l with
        | Some f => <[f := true]> (map f_closed (files w))
        | None => map f_closed (files w)
        end) ++ [false])%list.
Proof.
  intros Hfree (Hal & Hw & Hpre & Hlf) Hyes. unfold sync.free in Hfree.
  destruct l as [bw lf ll lg m]; simpl in *; subst.
  destruct (bufio_Flush_returns (log.out lg) w Hw) as (r & w0 & E & How).
  destruct (only_wrote_lengths _ _ How) as [Hlen _].
  unfold_v2. simpl. rewrite E. simpl.
  destruct lf as [f|]; simpl.
  - destruct (os_Close_flags f w0) as (rc & w1 & E1 & Hfl & Hco & _).
    rewrite E1. simpl. unfold os.OpenFile, bufio.NewWriter. simpl.
    rewrite Hco, (ow_can_open _ _ How), Hyes. simpl.
    eexists _, _; split; [reflexivity|]. simpl. split.
    + f_equal. apply (f_equal (@length _)) in Hfl.
      rewrite length_insert, !length_map in Hfl. lia.
    + rewrite map_app, Hfl, (ow_closed _ _ How). reflexivity.
  - unfold os.OpenFile, bufio.NewWriter. simpl.
    rewrite (ow_can_open _ _ How), Hyes. simpl.
    eexists _, _; split; [reflexivity|]. simpl. split.
    + now rewrite Hlen.
    + now rewrite map_app, (ow_closed _ _ How).
Qed.

Lemma V1_SetOutput_ok_files (l : V1.LogExtended) (w : World) path :
  sync.free (V1.mu l) -> V1_wf (l, w) -> can_open w path = true ->
  exists l1 w1,
    V1.SetOutput path (l, w) = Returned None (l1, w1) /\
    V1.logFile l1 = Some (length (files w)) /\
    map f_closed (files w1)
    = ((match V1.logFile l with
        | Some f => <[f := true]> (map f_closed (files w))
        | None => map f_closed (files w)
        end) ++ [false])%list.
Proof.
  intros Hfree (Hal & Hw & Hpre & Hlf) Hyes. unfold sync.free in Hfree.
  destruct l as [m lg bw ll lf]; simpl in *; subst.
  destruct (bufio_Flush_returns (log.out lg) w Hw) as (r & w0 & E & How).
  destruct (only_wrote_lengths _ _ How) as [Hlen _].
  unfold_v1. simpl. rewrite E. simpl. unfold os.OpenFile.
  rewrite (ow_can_open _ _ How), Hyes. simpl.
  destruct lf as [f|]; simpl.
  - set (w1 := emit (EvOpen path None)
                 (set_files (files w0 ++ [mkFile path false ""]) w0)).
    destruct (os_Close_flags f w1) as (rc & w2 & E2 & Hfl & _).
    rewrite E2. simpl. unfold bufio.NewWriter. simpl.
    eexists _, _; split; [reflexivity|]. simpl. split.
    + now rewrite Hlen.
    + rewrite Hfl. unfold w1. simpl. rewrite map_app, (ow_closed _ _ How). simpl.
      apply insert_app_l. rewrite length_map.
      apply lookup_lt_is_Some. now apply Hlf.
  - unfold bufio.NewWriter. simpl.
    eexists _, _; split; [reflexivity|]. simpl. split.
    + now rewrite Hlen.
    + now rewrite map_app, (ow_closed _ _ How).
Qed.

Lemma only_backing_open_flags (lf : option nat) (w : World) :
  only_backing_open lf w <->
  (forall fd, map f_closed (files w) !! fd = Some false -> lf = Some fd).
Proof.
  unfold only_backing_open. split.
  - intros H fd Hfd. rewrite lookup_map in Hfd.
    destruct (files w !! fd) as [fl|] eqn:Hfl; [|discriminate].
    simpl in Hfd. injection Hfd as Hc. now apply (H fd fl).
  - intros H fd fl Hfl Hc. apply H. rewrite lookup_map, Hfl. simpl. now rewrite Hc.
Qed.

(** Closing files, or leaving them alone, keeps the invariant. *)
Lemma only_backing_open_mono (lf : option nat) (w w' : World) :
  (forall fd, map f_closed (files w') !! fd = Some false ->
              map f_closed (files w) !! fd = Some false) ->
  only_backing_open lf w -> only_backing_open lf w'.
Proof.
  intros Hm H. apply only_backing_open_flags. intros fd Hfd.
  apply (proj1 (only_backing_open_flags lf w) H). now apply Hm.
Qed.

Lemma lookup_insert_true_false (f fd : nat) (l : list bool) :
  <[f := true]> l !! fd = Some false -> l !! fd = Some false /\ fd <> f.
Proof.
  intros H. destruct (decide (fd = f)) as [->|Hne].
  - destruct (decide (f < length l)%nat) as [Hlt|Hge].
    + rewrite list_lookup_insert_eq in H by exact Hlt. discriminate.
    + rewrite list_insert_ge in H by lia.
      apply lookup_lt_Some in H. lia.
  - rewrite list_lookup_insert_ne in H by congruence. now split.
Qed.

(** The files after a failed [SetOutput] of the second variant: the
    previous backing file is closed, nothing else changes state. *)
Lemma V2_SetOutput_fail_files (l : V2.LogExtended) (w : World) path :
  sync.free (V2.mu l) -> V2_wf (l, w) -> can_open w path = false ->
  exists w',
    V2.SetOutput path (l, w) = Returned (Some (PathError path)) (l, w') /\
    map f_closed (files w')
    = match V2.logFile l with
      | Some f => <[f := true]> (map f_closed (files w))
      | None => map f_closed (files w)
      end /\
    map wr (writers w') = map wr (writers w) /\ fails w' = fails w.
Proof.
  intros Hfree (Hal & Hw & Hpre & Hlf) Hno. unfold sync.free in Hfree.
  destruct l as [bw lf ll lg m]; simpl in *; subst.
  destruct (bufio_Flush_returns (log.out lg) w Hw) as (r & w0 & E & How).
  unfold_v2. simpl. rewrite E. simpl.
  destruct lf as [f|]; simpl.
  - destruct (os_Close_flags f w0) as (rc & w1 & E1 & Hfl & Hco & Hws & _ & Hfa).
    rewrite E1. simpl. unfold os.OpenFile.
    rewrite Hco, (ow_can_open _ _ How), Hno. simpl.
    eexists; split; [reflexivity|]. simpl.
    split; [now rewrite Hfl, (ow_closed _ _ How)|].
    split; [now rewrite Hws, (ow_sinks _ _ How)|].
    now rewrite Hfa, (ow_fails _ _ How).
  - unfold os.OpenFile. rewrite (ow_can_open _ _ How), Hno. simpl.
    eexists; split; [reflexivity|]. simpl.
    split; [apply (ow_closed _ _ How)|].
    split; [apply (ow_sinks _ _ How) | apply (ow_fails _ _ How)].
Qed.

(** What the flags of the files say after a swap of the backing file. *)
Lemma swap_flags_facts (lf : option nat) (w w' : World) :
  (forall f, lf = Some f -> is_Some (files w !! f)) ->
  map f_closed (files w')
  = ((match lf with
      | Some f => <[f := true]> (map f_closed (files w))
      | None => map f_closed (files w)
      end) ++ [false])%list ->
  f_closed <$> files w' !! length (files w) = Some false /\
  (forall f, lf = Some f -> f_closed <$> files w' !! f = Some true) /\
  (only_backing_open lf w -> only_backing_open (Some (length (files w))) w').
Proof.
  intros Hvalid Hfl.
  assert (Hlen : length (match lf with
                         | Some f => <[f := true]> (map f_closed (files w))
                         | None => map f_closed (files w)
                         end) = length (files w)).
  { destruct lf; rewrite ?length_insert, length_map; reflexivity. }
  split; [|split].
  - rewrite <- lookup_map, Hfl. apply list_lookup_middle. now rewrite Hlen.
  - intros f ->. rewrite <- lookup_map, Hfl.
    destruct (Hvalid f eq_refl) as [fl Hfile]. apply lookup_lt_Some in Hfile.
    rewrite lookup_app_l by (rewrite length_insert, length_map; exact Hfile).
    apply list_lookup_insert_eq. now rewrite length_map.
  - intros Hinv. apply only_backing_open_flags. intros fd Hfd. rewrite Hfl in Hfd.
    destruct (decide (fd < length (files w))%nat) as [Hlt|Hge].
    + exfalso. rewrite lookup_app_l in Hfd by (rewrite Hlen; exact Hlt).
      destruct lf as [f|].
      * apply lookup_insert_true_false in Hfd as [Hfd Hne].
        apply (proj1 (only_backing_open_flags _ _) Hinv) in Hfd. congruence.
      * apply (proj1 (only_backing_open_flags _ _) Hinv) in Hfd. discriminate.
    + apply lookup_lt_Some in Hfd. rewrite length_app, Hlen in Hfd. simpl in Hfd.
      f_equal. lia.
Qed.

(** X5.  A successful [SetOutput] swaps the backing file: the file it
    opens is appended to the process's files, is open and becomes the
    backing file, and the previous backing file, if there was one, is
    closed.  So if no file but the backing file was open before, no file
    but the new backing file is open after (both variants). *)
Theorem X5_SetOutput_swaps_backing_file
    (l1 : V1.LogExtended) (l2 : V2.LogExtended) (w : World) (path : string) :
  sync.free (V1.mu l1) -> V1_wf (l1, w) ->
  sync.free (V2.mu l2) -> V2_wf (l2, w) ->
  can_open w path = true ->
  (exists l' w',
     V1.SetOutput path (l1, w) = Returned None (l', w') /\
     V1.logFile l' = Some (length (files w)) /\
     f_closed <$> files w' !! length (files w) = Some false /\
     (forall f, V1.logFile l1 = Some f -> f_closed <$> files w' !! f = Some true) /\
     (only_backing_open (V1.logFile l1) w -> only_backing_open (V1.logFile l') w')) /\
  (exists l' w',
     V2.SetOutput path (l2, w) = Returned None (l', w') /\
     V2.logFile l' = Some (length (files w)) /\
     f_closed <$> files w' !! length (files w) = Some false /\
     (forall f, V2.logFile l2 = Some f -> f_closed <$> files w' !! f = Some true) /\
     (only_backing_open (V2.logFile l2) w -> only_backing_open (V2.logFile l') w')).
Proof.
  intros Hf1 Hwf1 Hf2 Hwf2 Hopen.
  split.
  - destruct (V1_SetOutput_ok_files l1 w path Hf1 Hwf1 Hopen) as (l' & w' & E & Hlf & Hfl).
    destruct (swap_flags_facts (V1.logFile l1) w w') as (H1 & H2 & H3);
      [apply Hwf1 | exact Hfl|].
    exists l', w'. rewrite Hlf. now repeat split.
  - destruct (V2_SetOutput_ok_files l2 w path Hf2 Hwf2 Hopen) as (l' & w' & E & Hlf & Hfl).
    destruct (swap_flags_facts (V2.logFile l2) w w') as (H1 & H2 & H3);
      [apply Hwf2 | exact Hfl|].
    exists l', w'. rewrite Hlf. now repeat split.
Qed.

(** A second redirection, to a path that can be opened: [app.log] is
    closed and the new file is the backing file. *)
Lemma X5_witness :
  exists l' w',
    V2.SetOutput "app.log" (V2_teeing (machine false)) = Returned None (l', w') /\
    V2.logFile l' = Some 1%nat /\
    f_closed <$> files w' !! 1%nat = Some false /\
    f_closed <$> files w' !! 0%nat = Some true.
Proof.
  destruct (X5_SetOutput_swaps_backing_file
              (fst (V1_on_file (machine false))) (fst (V2_teeing (machine false)))
              (snd (V2_teeing (machine false))) "app.log")
    as [_ (l' & w' & E & Hlf & Hnew & Hold & _)].
  - reflexivity.
  - wf_by_run.
  - reflexivity.
  - wf_by_run.
  - reflexivity.
  - exists l', w'. split; [exact E|]. split; [exact Hlf|]. split; [exact Hnew|].
    now apply Hold.
Defined.

Lemma only_backing_open_same_flags (lf : option nat) (w w' : World) :
  map f_closed (files w') = map f_closed (files w) ->
  only_backing_open lf w -> only_backing_open lf w'.
Proof. intros H. apply only_backing_open_mono. intros fd. now rewrite H. Qed.

Lemma only_backing_open_closed (lf : option nat) (f : nat) (w w' : World) :
  map f_closed (files w') = <[f := true]> (map f_closed (files w)) ->
  only_backing_open lf w -> only_backing_open lf w'.
Proof.
  intros H. apply only_backing_open_mono. intros fd Hfd. rewrite H in Hfd.
  now apply lookup_insert_true_false in Hfd.
Qed.

(** X6.  In the second variant no call leaks an open file: if no file
    but the backing file is open when a call starts, the same holds when
    it ends, for [SetLogLevel], [SetOutput] (whether the open succeeds or
    fails), [Flush], [Close], [Log] and [Logf] at every level.  It holds
    of a fresh logger in a process that has no file yet. *)
Theorem X6_V2_no_other_file_open (l : V2.LogExtended) (w : World) :
  sync.free (V2.mu l) -> V2_wf (l, w) -> V2_tidy (l, w) ->
  (forall level, V2_tidy (final (V2.SetLogLevel level (l, w)))) /\
  (forall path, V2_tidy (final (V2.SetOutput path (l, w)))) /\
  V2_tidy (final (V2.Flush (l, w))) /\
  V2_tidy (final (V2.Close (l, w))) /\
  (forall level args, V2_tidy (final (V2.Log level args (l, w)))) /\
  (forall format level args, V2_tidy (final (V2.Logf format level args (l, w)))) /\
  (forall w0, files w0 = [] -> V2_tidy (V2_fresh w0)).
Proof.
  intros Hfree Hwf Htidy. unfold V2_tidy in *. simpl in Htidy.
  split.
  { intros level. rewrite (V2_SetLogLevel_spec l w level Hfree). simpl.
    now destruct l. }
  split.
  { intros path. destruct (can_open w path) eqn:Hopen.
    - destruct (V2_SetOutput_ok_files l w path Hfree Hwf Hopen)
        as (l' & w' & E & Hlf & Hfl).
      rewrite E. simpl. rewrite Hlf.
      apply (swap_flags_facts (V2.logFile l) w w'); [apply Hwf | exact Hfl | exact Htidy].
    - destruct (V2_SetOutput_fail_files l w path Hfree Hwf Hopen) as (w' & E & Hfl & _).
      rewrite E. simpl. destruct (V2.logFile l) as [f|].
      + now apply only_backing_open_closed with f w.
      + now apply only_backing_open_same_flags with w. }
  split.
  { destruct (V2_Flush_spec l w Hfree Hwf) as (r & w' & _ & How & E).
    rewrite E.
    destruct r as [e|]; [|destruct (V2.logFile l) as [f|] eqn:Hlf]; simpl;
      rewrite ?Hlf;
      apply only_backing_open_same_flags with w; try assumption;
      apply (ow_closed _ _ How). }
  split.
  { destruct (V2_Close_steps l w Hfree Hwf) as (r0 & w0 & _ & How & H).
    destruct (V2.logFile l) as [f|] eqn:Hlf.
    - destruct H as (rc & w1 & E1 & ->). simpl. rewrite Hlf.
      destruct (os_Close_flags f w0) as (rc' & w1' & E1' & Hfl & _).
      rewrite E1 in E1'. injection E1' as <- <-.
      apply only_backing_open_closed with f w; [|exact Htidy].
      now rewrite Hfl, (ow_closed _ _ How).
    - rewrite H. simpl. rewrite Hlf.
      apply only_backing_open_same_flags with w; [apply (ow_closed _ _ How)|].
      exact Htidy. }
  split.
  { intros level args. destruct (Z.lt_ge_cases level (V2.logLevel l)) as [Hlt|Hge].
    - now rewrite (V2_Log_filtered l w level args Hfree Hlt).
    - destruct (V2_Log_accepted l w level args Hfree Hwf Hge) as (w' & Hlg & ->).
      destruct (level =? LogLevelFatal); simpl;
        [replace (V2.logFile (V2.set_mu held l)) with (V2.logFile l) by now destruct l|];
        apply only_backing_open_same_flags with w; try assumption;
        apply (lg_closed _ _ _ _ Hlg). }
  split.
  { intros format level args.
    destruct (Z.lt_ge_cases level (V2.logLevel l)) as [Hlt|Hge].
    - now rewrite (V2_Logf_filtered l w format level args Hfree Hlt).
    - destruct (V2_Logf_accepted l w format level args Hfree Hwf Hge) as (w' & Hlg & ->).
      destruct (level =? LogLevelFatal); simpl;
        [replace (V2.logFile (V2.set_mu held l)) with (V2.logFile l) by now destruct l|];
        apply only_backing_open_same_flags with w; try assumption;
        apply (lg_closed _ _ _ _ Hlg). }
  intros w0 H0 fd fl Hfd _. simpl in Hfd. rewrite H0 in Hfd. discriminate.
Qed.

(** After a failed redirection of a logger that tees to [app.log], no
    file is left open. *)
Lemma X6_witness :
  V2_tidy (final (V2.SetOutput "/no/such/dir/x.log" (V2_teeing (machine false)))).
Proof.
  refine (proj1 (proj2
    (X6_V2_no_other_file_open
       (fst (V2_teeing (machine false))) (snd (V2_teeing (machine false))) _ _ _))
    "/no/such/dir/x.log").
  - reflexivity.
  - wf_by_run.
  - intros fd fl Hfd _. vm_compute.
    destruct fd as [|fd]; [reflexivity|]. destruct fd; discriminate.
Defined.

(** X7.  In the first variant no call leaks an open file either: if no
    file but the backing file is open when a call starts, the same holds
    when it ends, for [SetLogLevel], [SetOutput] (whether the open
    succeeds or fails), [Flush], [Log] and [Logf] at every level. *)
Theorem X7_V1_no_other_file_open (l : V1.LogExtended) (w : World) :
  sync.free (V1.mu l) -> V1_wf (l, w) -> V1_tidy (l, w) ->
  (forall lvl, V1_tidy (final (V1.SetLogLevel lvl (l, w)))) /\
  (forall path, V1_tidy (final (V1.SetOutput path (l, w)))) /\
  V1_tidy (final (V1.Flush (l, w))) /\
  (forall lvl args, V1_tidy (final (V1.Log lvl args (l, w)))) /\
  (forall lvl format args, V1_tidy (final (V1.Logf lvl format args (l, w)))) /\
  (forall w0, files w0 = [] -> V1_tidy (V1_fresh w0)).
Proof.
  intros Hfree Hwf Htidy. unfold V1_tidy in *. simpl in Htidy.
  split.
  { intros lvl. rewrite (V1_SetLogLevel_spec l w lvl Hfree). simpl.
    now destruct l. }
  split.
  { intros path. destruct (can_open w path) eqn:Hopen.
    - destruct (V1_SetOutput_ok_files l w path Hfree Hwf Hopen)
        as (l' & w' & E & Hlf & Hfl).
      rewrite E. simpl. rewrite Hlf.
      apply (swap_flags_facts (V1.logFile l) w w'); [apply Hwf | exact Hfl | exact Htidy].
    - destruct (V1_SetOutput_fail l w path Hfree Hwf Hopen) as (w' & E & Hfl & _).
      rewrite E. simpl. now apply only_backing_open_same_flags with w. }
  split.
  { destruct (V1_Flush_spec l w Hfree Hwf) as (r & w' & _ & How & E).
    rewrite E. simpl.
    apply only_backing_open_same_flags with w; [apply (ow_closed _ _ How)|].
    exact Htidy. }
  split.
  { intros lvl args. destruct (Z.lt_ge_cases lvl (V1.logLevel l)) as [Hlt|Hge].
    - now rewrite (V1_Log_filtered l w lvl args Hfree Hlt).
    - destruct (V1_Log_accepted l w lvl args Hfree Hwf Hge) as (w' & Hlg & ->).
      destruct (lvl =? LogLevelFatal); simpl;
        [replace (V1.logFile (V1.set_mu held l)) with (V1.logFile l) by now destruct l|];
        apply only_backing_open_same_flags with w; try assumption;
        apply (lg_closed _ _ _ _ Hlg). }
  split.
  { intros lvl format args.
    destruct (Z.lt_ge_cases lvl (V1.logLevel l)) as [Hlt|Hge].
    - now rewrite (V1_Logf_filtered l w lvl format args Hfree Hlt).
    - destruct (V1_Logf_accepted l w lvl format args Hfree Hwf Hge) as (w' & Hlg & ->).
      destruct (lvl =? LogLevelFatal); simpl;
        [replace (V1.logFile (V1.set_mu held l)) with (V1.logFile l) by now destruct l|];
        apply only_backing_open_same_flags with w; try assumption;
        apply (lg_closed _ _ _ _ Hlg). }
  intros w0 H0 fd fl Hfd _. simpl in Hfd. rewrite H0 in Hfd. discriminate.
Qed.

(** A second redirection of a logger of the first variant that writes to
    [app.log]. *)
Lemma X7_witness :
  V1_tidy (final (V1.SetOutput "app.log" (V1_on_file (machine false)))).
Proof.
  refine (proj1 (proj2
    (X7_V1_no_other_file_open
       (fst (V1_on_file (machine false))) (snd (V1_on_file (machine false))) _ _ _))
    "app.log").
  - reflexivity.
  - wf_by_run.
  - intros fd fl Hfd _. vm_compute.
    destruct fd as [|fd]; [reflexivity|]. destruct fd; discriminate.
Defined.

(** X8.  The result of [SetOutput] is the result of [os.OpenFile] and
    nothing else: no error when the file opens, the error of the open
    when it does not.  What the flush of the old buffered writer and the
    close of the old backing file return is dropped (both variants, and
    [mlog.SetOutput]). *)
Theorem X8_SetOutput_returns_the_open_error
    (l1 : V1.LogExtended) (l2 : V2.LogExtended) (w : World) (path : string) :
  sync.free (V1.mu l1) -> V1_wf (l1, w) ->
  sync.free (V2.mu l2) -> V2_wf (l2, w) ->
  result (V1.SetOutput path (l1, w))
    = Some (if can_open w path then None else Some (PathError path)) /\
  result (V2.SetOutput path (l2, w))
    = Some (if can_open w path then None else Some (PathError path)) /\
  result (mlog.SetOutput path (l2, w))
    = Some (if can_open w path then None else Some (PathError path)).
Proof.
  intros Hf1 Hwf1 Hf2 Hwf2. destruct (can_open w path) eqn:Hopen.
  - destruct (V1_SetOutput_ok_files l1 w path Hf1 Hwf1 Hopen) as (la & wa & Ea & _).
    destruct (V2_SetOutput_ok_files l2 w path Hf2 Hwf2 Hopen) as (lb & wb & Eb & _).
    unfold mlog.SetOutput. now rewrite Ea, Eb.
  - destruct (V1_SetOutput_fail l1 w path Hf1 Hwf1 Hopen) as (wa & Ea & _).
    destruct (V2_SetOutput_fail_files l2 w path Hf2 Hwf2 Hopen) as (wb & Eb & _).
    unfold mlog.SetOutput. now rewrite Ea, Eb.
Qed.

(** A logger whose buffered writer holds an error and whose backing file
    is already closed: [SetOutput("app.log")] still returns no error. *)
Lemma X8_witness :
  let s := final (V2_redirect_twice (V2_fresh (machine false))) in
  result (V2.SetOutput "app.log" (fst s, snd s)) = Some None.
Proof.
  intros s.
  destruct (X8_SetOutput_returns_the_open_error
              (fst (V1_on_file (machine false))) (fst s) (snd s) "app.log")
    as (_ & H & _).
  - reflexivity.
  - wf_by_run.
  - reflexivity.
  - wf_by_run.
  - replace (can_open (snd s) "app.log") with true in H
      by (vm_compute; reflexivity).
    exact H.
Defined.

(** A failed [SetOutput] as a flush followed by a failed open. *)
Lemma V1_SetOutput_fail_steps (l : V1.LogExtended) (w : World) path :
  sync.free (V1.mu l) -> V1_wf (l, w) -> can_open w path = false ->
  exists r0 w0,
    bufio.Flush (log.out (V1.logger l)) w = Returned r0 w0 /\
    only_wrote w w0 /\
    V1.SetOutput path (l, w)
    = Returned (Some (PathError path))
               (l, emit (EvOpen path (Some (PathError path))) w0).
Proof.
  intros Hfree (Hal & Hw & _) Hno. unfold sync.free in Hfree.
  destruct l as [m lg bw ll lf]; simpl in *; subst.
  destruct (bufio_Flush_returns (log.out lg) w Hw) as (r & w0 & E & How).
  exists r, w0. split; [exact E|]. split; [exact How|].
  unfold_v1. simpl. rewrite E. simpl. unfold os.OpenFile.
  rewrite (ow_can_open _ _ How), Hno. reflexivity.
Qed.

Lemma V2_SetOutput_fail_steps (l : V2.LogExtended) (w : World) path :
  sync.free (V2.mu l) -> V2_wf (l, w) -> can_open w path = false ->
  V2.logFile l = None ->
  exists r0 w0,
    bufio.Flush (log.out (V2.logger l)) w = Returned r0 w0 /\
    only_wrote w w0 /\
    V2.SetOutput path (l, w)
    = Returned (Some (PathError path))
               (l, emit (EvOpen path (Some (PathError path))) w0).
Proof.
  intros Hfree (Hal & Hw & _) Hno Hnone. unfold sync.free in Hfree.
  destruct l as [bw lf ll lg m]; simpl in *; subst.
  destruct (bufio_Flush_returns (log.out lg) w Hw) as (r & w0 & E & How).
  exists r, w0. split; [exact E|]. split; [exact How|].
  unfold_v2. simpl. rewrite E. simpl. unfold os.OpenFile.
  rewrite (ow_can_open _ _ How), Hno. reflexivity.
Qed.

(** X9.  Where a failed [SetOutput] keeps the logger working: in the
    first variant always, in the second when there is no backing file.
    The call is then a flush of the buffered writer followed by the failed
    open: the struct is as it was, the lock is free, no file was opened or
    closed, every writer has its sink, every device takes or rejects
    writes as before, and the logger is at rest again. *)
Theorem X9_failed_SetOutput_keeps_sink
    (l1 : V1.LogExtended) (l2 : V2.LogExtended) (w : World) (path : string) :
  sync.free (V1.mu l1) -> V1_wf (l1, w) ->
  sync.free (V2.mu l2) -> V2_wf (l2, w) ->
  can_open w path = false -> V2.logFile l2 = None ->
  (exists w',
     V1.SetOutput path (l1, w) = Returned (Some (PathError path)) (l1, w') /\
     V1_wf (l1, w') /\
     map f_closed (files w') = map f_closed (files w) /\
     map wr (writers w') = map wr (writers w) /\
     (forall d, dev_error w' d = dev_error w d) /\
     quiet (trace w') = (quiet (trace w) ++ [EvOpen path (Some (PathError path))])%list) /\
  (exists w',
     V2.SetOutput path (l2, w) = Returned (Some (PathError path)) (l2, w') /\
     V2_wf (l2, w') /\
     map f_closed (files w') = map f_closed (files w) /\
     map wr (writers w') = map wr (writers w) /\
     (forall d, dev_error w' d = dev_error w d) /\
     quiet (trace w') = (quiet (trace w) ++ [EvOpen path (Some (PathError path))])%list).
Proof.
  intros Hf1 Hwf1 Hf2 Hwf2 Hno Hnone.
  split.
  - destruct (V1_SetOutput_fail_steps l1 w path Hf1 Hwf1 Hno) as (r0 & w0 & _ & How & E).
    destruct (only_wrote_lengths _ _ How) as [Hl1 Hl2].
    eexists; split; [exact E|].
    split; [now apply wf_lengths_V1 with w|]. simpl.
    split; [apply (ow_closed _ _ How)|]. split; [apply (ow_sinks _ _ How)|].
    split.
    + intros d. rewrite dev_error_emit. now apply only_wrote_dev_error.
    + now rewrite quiet_app, (ow_quiet _ _ How).
  - destruct (V2_SetOutput_fail_steps l2 w path Hf2 Hwf2 Hno Hnone)
      as (r0 & w0 & _ & How & E).
    destruct (only_wrote_lengths _ _ How) as [Hl1 Hl2].
    eexists; split; [exact E|].
    split; [now apply wf_lengths_V2 with w|]. simpl.
    split; [apply (ow_closed _ _ How)|]. split; [apply (ow_sinks _ _ How)|].
    split.
    + intros d. rewrite dev_error_emit. now apply only_wrote_dev_error.
    + now rewrite quiet_app, (ow_quiet _ _ How).
Qed.

(** A logger of the first variant that writes to [app.log], and a fresh
    logger of the second, redirected to a path that cannot be opened. *)
Lemma X9_witness :
  exists w',
    V1.SetOutput "/no/such/dir/x.log" (fst (V1_on_file (machine false)),
                                       snd (V1_on_file (machine false)))
    = Returned (Some (PathError "/no/such/dir/x.log"))
               (fst (V1_on_file (machine false)), w') /\
    map f_closed (files w') = [false].
Proof.
  destruct (X9_failed_SetOutput_keeps_sink
              (fst (V1_on_file (machine false)))
              (V2.mkLogExtended (Some 0%nat) None LogLevelInfo (log.New 0 "" 0) sync.zero)
              (snd (V1_on_file (machine false))) "/no/such/dir/x.log")
    as [(w' & E & _ & Hc & _) _].
  - reflexivity.
  - wf_by_run.
  - reflexivity.
  - wf_by_run.
  - reflexivity.
  - reflexivity.
  - exists w'. split; [exact E | exact Hc].
Defined.

(** Two lines through a writer whose sink takes writes, then a flush:
    every device of the sink has received, in order, what it had, what
    was buffered, the first line and the second. *)
Lemma two_lines_then_flush (h : nat) (b : Writer) (w w1 w2 : World) line1 line2 :
  writers w !! h = Some b -> err b = None ->
  NoDup (sink_devs (wr b)) ->
  (forall d, In d (sink_devs (wr b)) -> dev_error w d = None) ->
  logged h line1 w w1 -> logged h line2 w1 w2 ->
  exists w3,
    bufio.Flush h w2 = Returned None w3 /\
    only_wrote w2 w3 /\
    (forall d, dev_error w3 d = dev_error w d) /\
    forall d, In d (sink_devs (wr b)) ->
              dev_data w3 d = dev_data w d ++ buf b ++ line1 ++ nl ++ line2 ++ nl.
Proof.
  intros Hb Herr Hnd Hok Hlg1 Hlg2.
  destruct (lg_stream _ _ _ _ Hlg1 b Hb Herr Hnd Hok) as (b1 & Hb1 & Hwr1 & Herr1 & Hd1).
  assert (Hok1 : forall d, In d (sink_devs (wr b1)) -> dev_error w1 d = None).
  { rewrite Hwr1. intros d Hin. rewrite (logged_dev_error _ _ _ _ d Hlg1). now apply Hok. }
  assert (Hnd1 : NoDup (sink_devs (wr b1))) by now rewrite Hwr1.
  destruct (lg_stream _ _ _ _ Hlg2 b1 Hb1 Herr1 Hnd1 Hok1)
    as (b2 & Hb2 & Hwr2 & Herr2 & Hd2).
  assert (Hok2 : forall d, In d (sink_devs (wr b2)) -> dev_error w2 d = None).
  { rewrite Hwr2. intros d Hin. rewrite (logged_dev_error _ _ _ _ d Hlg2). now apply Hok1. }
  assert (Hnd2 : NoDup (sink_devs (wr b2))) by now rewrite Hwr2.
  destruct (bufio_Flush_ok h w2 b2 Hb2 Herr2 Hnd2 Hok2) as (w3 & E3 & _ & Hd3).
  destruct (bufio_Flush_returns h w2) as (r & w3' & E3' & How); [rewrite Hb2; eauto|].
  rewrite E3 in E3'. injection E3' as <- <-.
  exists w3. split; [exact E3|]. split; [exact How|]. split.
  - intros d. now rewrite (only_wrote_dev_error _ _ _ How),
      (logged_dev_error _ _ _ _ d Hlg2), (logged_dev_error _ _ _ _ d Hlg1).
  - intros d Hin.
    rewrite Hd3 by (rewrite Hwr2, Hwr1; exact Hin).
    rewrite Hd2 by (rewrite Hwr1; exact Hin).
    rewrite <- app_assoc_s, Hd1 by exact Hin.
    now rewrite !app_assoc_s.
Qed.

(** X10.  Sequential writes are neither lost nor reordered.  When the
    sink of the logger takes writes, two accepted writes below Fatal
    followed by [Flush] leave on every device of the sink what it had,
    then what was buffered before, then the first line, then the second,
    each with its line terminator (both variants; in the second, [Flush]
    then syncs the backing file). *)
Theorem X10_writes_arrive_in_call_order
    (l1 : V1.LogExtended) (l2 : V2.LogExtended) (w : World) (b1 b2 : Writer)
    (ka kb : LogLevel) (xs ys : list fmt.value) :
  sync.free (V1.mu l1) -> V1_wf (l1, w) ->
  sync.free (V2.mu l2) -> V2_wf (l2, w) ->
  writers w !! log.out (V1.logger l1) = Some b1 -> err b1 = None ->
  NoDup (sink_devs (wr b1)) ->
  (forall d, In d (sink_devs (wr b1)) -> dev_error w d = None) ->
  writers w !! log.out (V2.logger l2) = Some b2 -> err b2 = None ->
  NoDup (sink_devs (wr b2)) ->
  (forall d, In d (sink_devs (wr b2)) -> dev_error w d = None) ->
  V1.logLevel l1 <= ka -> V1.logLevel l1 <= kb ->
  V2.logLevel l2 <= ka -> V2.logLevel l2 <= kb ->
  ka <> LogLevelFatal -> kb <> LogLevelFatal ->
  let line1 := spec_line (time.Format (clock w)) ka (fmt.Sprint xs) in
  let line2 := spec_line (time.Format (clock w)) kb (fmt.Sprint ys) in
  (exists wa wb wc,
     V1.Log ka xs (l1, w) = Returned tt (l1, wa) /\
     V1.Log kb ys (l1, wa) = Returned tt (l1, wb) /\
     V1.Flush (l1, wb) = Returned None (l1, wc) /\
     forall d, In d (sink_devs (wr b1)) ->
               dev_data wc d = dev_data w d ++ buf b1 ++ line1 ++ nl ++ line2 ++ nl) /\
  (exists wa wb r wc,
     V2.Log ka xs (l2, w) = Returned tt (l2, wa) /\
     V2.Log kb ys (l2, wa) = Returned tt (l2, wb) /\
     V2.Flush (l2, wb) = Returned r (l2, wc) /\
     forall d, In d (sink_devs (wr b2)) ->
               dev_data wc d = dev_data w d ++ buf b2 ++ line1 ++ nl ++ line2 ++ nl).
Proof.
  intros Hf1 Hwf1 Hf2 Hwf2 Hb1 He1 Hnd1 Hok1 Hb2 He2 Hnd2 Hok2
         Ha1 Hb1' Ha2 Hb2' Hna Hnb line1 line2.
  apply Z.eqb_neq in Hna. apply Z.eqb_neq in Hnb.
  split.
  - destruct (V1_Log_accepted l1 w ka xs Hf1 Hwf1 Ha1) as (wa & Hlga & Ea).
    rewrite Hna in Ea.
    assert (Hwfa : V1_wf (l1, wa)).
    { destruct (logged_lengths _ _ _ _ Hlga). now apply wf_lengths_V1 with w. }
    destruct (V1_Log_accepted l1 wa kb ys Hf1 Hwfa Hb1') as (wb & Hlgb & Eb).
    rewrite Hnb, (lg_clock _ _ _ _ Hlga) in *.
    assert (Hwfb : V1_wf (l1, wb)).
    { destruct (logged_lengths _ _ _ _ Hlgb). now apply wf_lengths_V1 with wa. }
    destruct (two_lines_then_flush _ b1 w wa wb _ _ Hb1 He1 Hnd1 Hok1 Hlga Hlgb)
      as (wc & Ec & _ & _ & Hd).
    destruct (V1_Flush_spec l1 wb Hf1 Hwfb) as (r & wc' & Ec' & _ & EF).
    rewrite Ec in Ec'. injection Ec' as <- <-.
    exists wa, wb, wc. now repeat split.
  - destruct (V2_Log_accepted l2 w ka xs Hf2 Hwf2 Ha2) as (wa & Hlga & Ea).
    rewrite Hna in Ea.
    assert (Hwfa : V2_wf (l2, wa)).
    { destruct (logged_lengths _ _ _ _ Hlga). now apply wf_lengths_V2 with w. }
    destruct (V2_Log_accepted l2 wa kb ys Hf2 Hwfa Hb2') as (wb & Hlgb & Eb).
    rewrite Hnb, (lg_clock _ _ _ _ Hlga) in *.
    assert (Hwfb : V2_wf (l2, wb)).
    { destruct (logged_lengths _ _ _ _ Hlgb). now apply wf_lengths_V2 with wa. }
    destruct (two_lines_then_flush _ b2 w wa wb _ _ Hb2 He2 Hnd2 Hok2 Hlga Hlgb)
      as (wc & Ec & _ & _ & Hd).
    destruct (V2_Flush_spec l2 wb Hf2 Hwfb) as (r & wc' & Ec' & _ & EF).
    rewrite Ec in Ec'. injection Ec' as <- <-.
    destruct (V2.logFile l2) as [f|].
    + eexists wa, wb, _, _. split; [exact Ea|]. split; [exact Eb|].
      split; [exact EF|]. intros d Hin. rewrite dev_data_emit. now apply Hd.
    + exists wa, wb, None, wc. now repeat split.
Qed.

(** Two lines on a logger that tees to [app.log]: the file and the
    console hold both, in order. *)
Lemma X10_witness :
  let s := V2_teeing (machine false) in
  let line1 := spec_line (time.Format (clock (snd s))) LogLevelInfo
                 (fmt.Sprint [fmt.VString "one"]) in
  let line2 := spec_line (time.Format (clock (snd s))) LogLevelError
                 (fmt.Sprint [fmt.VString "two"]) in
  exists wa wb r wc,
    V2.Log LogLevelInfo [fmt.VString "one"] (fst s, snd s) = Returned tt (fst s, wa) /\
    V2.Log LogLevelError [fmt.VString "two"] (fst s, wa) = Returned tt (fst s, wb) /\
    V2.Flush (fst s, wb) = Returned r (fst s, wc) /\
    forall d, In d [FileDev 0; Stdout] ->
              dev_data wc d = dev_data (snd s) d ++ "" ++ line1 ++ nl ++ line2 ++ nl.
Proof.
  intros s line1 line2.
  refine (proj2 (X10_writes_arrive_in_call_order
            (fst (V1_fresh (machine false))) (fst s) (snd s)
            (mkWriter (Direct Stdout) "" None)
            (mkWriter (MultiWriter [FileDev 0; Stdout]) "" None)
            LogLevelInfo LogLevelError [fmt.VString "one"] [fmt.VString "two"]
            _ _ _ _ _ _ _ _ _ _ _ _ _ _ _ _ _ _)).
  - reflexivity.
  - wf_by_run.
  - reflexivity.
  - wf_by_run.
  - reflexivity.
  - reflexivity.
  - apply NoDup_singleton.
  - intros d [<-|[]]. reflexivity.
  - reflexivity.
  - reflexivity.
  - apply NoDup_cons. split; [|apply NoDup_singleton].
    intros Hin. apply list_elem_of_In in Hin. destruct Hin as [|[]]; discriminate.
  - intros d [<-|[<-|[]]]; reflexivity.
  - vm_compute. discriminate.
  - vm_compute. discriminate.
  - vm_compute. discriminate.
  - vm_compute. discriminate.
  - discriminate.
  - discriminate.
Defined.

(** X11.  An error of the buffered writer sticks, and the logger never
    clears it.  Once the writer holds an error, every accepted write
    below Fatal reads the clock and drops its line (no byte is buffered,
    no device is touched), and [Flush] returns the same error again
    without touching a device, whether or not the device has recovered
    (both variants). *)
Theorem X11_writer_error_sticks
    (l1 : V1.LogExtended) (l2 : V2.LogExtended) (w : World) (b1 b2 : Writer)
    (e1 e2 : error) (lvl : LogLevel) (format : string) (args : list fmt.value) :
  sync.free (V1.mu l1) -> V1_wf (l1, w) ->
  sync.free (V2.mu l2) -> V2_wf (l2, w) ->
  writers w !! log.out (V1.logger l1) = Some b1 -> err b1 = Some e1 ->
  writers w !! log.out (V2.logger l2) = Some b2 -> err b2 = Some e2 ->
  V1.logLevel l1 <= lvl -> V2.logLevel l2 <= lvl -> lvl <> LogLevelFatal ->
  V1.Log lvl args (l1, w) = Returned tt (l1, emit EvNow w) /\
  V1.Logf lvl format args (l1, w) = Returned tt (l1, emit EvNow w) /\
  V1.Flush (l1, w) = Returned (Some e1) (l1, w) /\
  V2.Log lvl args (l2, w) = Returned tt (l2, emit EvNow w) /\
  V2.Logf format lvl args (l2, w) = Returned tt (l2, emit EvNow w) /\
  V2.Flush (l2, w) = Returned (Some e2) (l2, w).
Proof.
  intros Hf1 Hwf1 Hf2 Hwf2 Hb1 He1 Hb2 He2 Hge1 Hge2 Hne.
  split.
  { destruct (V1_Log_write l1 w lvl args Hf1 Hwf1 Hge1 Hne) as (r & w' & E & ->).
    rewrite (bufio_Write_sticky _ _ (emit EvNow w) b1 e1 Hb1 He1) in E.
    now injection E as _ <-. }
  split.
  { destruct (V1_Logf_write l1 w lvl format args Hf1 Hwf1 Hge1 Hne) as (r & w' & E & ->).
    rewrite (bufio_Write_sticky _ _ (emit EvNow w) b1 e1 Hb1 He1) in E.
    now injection E as _ <-. }
  split.
  { destruct (V1_Flush_spec l1 w Hf1 Hwf1) as (r & w' & E & _ & ->).
    rewrite (bufio_Flush_sticky _ w b1 e1 Hb1 He1) in E. now injection E as <- <-. }
  split.
  { destruct (V2_Log_write l2 w lvl args Hf2 Hwf2 Hge2 Hne) as (r & w' & E & ->).
    rewrite (bufio_Write_sticky _ _ (emit EvNow w) b2 e2 Hb2 He2) in E.
    now injection E as _ <-. }
  split.
  { destruct (V2_Logf_write l2 w format lvl args Hf2 Hwf2 Hge2 Hne) as (r & w' & E & ->).
    rewrite (bufio_Write_sticky _ _ (emit EvNow w) b2 e2 Hb2 He2) in E.
    now injection E as _ <-. }
  destruct (V2_Flush_spec l2 w Hf2 Hwf2) as (r & w' & E & _ & ->).
  rewrite (bufio_Flush_sticky _ w b2 e2 Hb2 He2) in E. now injection E as <- <-.
Qed.

(** The logger left by a failed redirection and a failed flush
    ([V2_redirect_twice]): an Error line is dropped. *)
Lemma X11_witness :
  let s := final (V2_redirect_twice (V2_fresh (machine false))) in
  V2.Log LogLevelError [fmt.VString "lost"] (fst s, snd s)
  = Returned tt (fst s, emit EvNow (snd s)).
Proof.
  intros s.
  refine (proj1 (proj2 (proj2 (proj2
    (X11_writer_error_sticks
       (V1.mkLogExtended sync.zero (log.New 1 "" log.Lmsgprefix) (Some 1%nat)
                         LogLevelInfo None)
       (fst s) (snd s)
       (mkWriter (MultiWriter [FileDev 0; Stdout])
                 ("[2024-03-07 12:00:00] [INFO] still here" ++ nl) (Some ErrClosed))
       (mkWriter (MultiWriter [FileDev 0; Stdout])
                 ("[2024-03-07 12:00:00] [INFO] still here" ++ nl) (Some ErrClosed))
       ErrClosed ErrClosed LogLevelError "" [fmt.VString "lost"]
       _ _ _ _ _ _ _ _ _ _ _))))).
  - reflexivity.
  - wf_by_run.
  - reflexivity.
  - wf_by_run.
  - vm_compute. reflexivity.
  - reflexivity.
  - vm_compute. reflexivity.
  - reflexivity.
  - vm_compute. discriminate.
  - vm_compute. discriminate.
  - discriminate.
Defined.

(** X12.  While the write lock is held, every method of the logger parks
    its caller before it does anything: the struct and the world are as
    they were.  This is the state a Fatal write leaves behind, so after
    it no goroutine can log, flush, redirect or close (both variants). *)
Theorem X12_held_lock_blocks_every_call
    (l1 : V1.LogExtended) (l2 : V2.LogExtended) (w : World)
    (lvl : LogLevel) (path format : string) (args : list fmt.value) :
  sync.writer_held (V1.mu l1) = true ->
  sync.writer_held (V2.mu l2) = true ->
  (V1.SetLogLevel lvl (l1, w) = Blocked (l1, w) /\
   V1.SetOutput path (l1, w) = Blocked (l1, w) /\
   V1.Flush (l1, w) = Blocked (l1, w) /\
   V1.Log lvl args (l1, w) = Blocked (l1, w) /\
   V1.Logf lvl format args (l1, w) = Blocked (l1, w)) /\
  (V2.SetLogLevel lvl (l2, w) = Blocked (l2, w) /\
   V2.SetOutput path (l2, w) = Blocked (l2, w) /\
   V2.Flush (l2, w) = Blocked (l2, w) /\
   V2.Close (l2, w) = Blocked (l2, w) /\
   V2.Log lvl args (l2, w) = Blocked (l2, w) /\
   V2.Logf format lvl args (l2, w) = Blocked (l2, w)).
Proof.
  intros H1 H2.
  destruct l1 as [[wh1 rd1] lg1 bw1 ll1 lf1], l2 as [bw2 lf2 ll2 lg2 [wh2 rd2]].
  simpl in H1, H2. subst.
  split; repeat split; reflexivity.
Qed.

(** After [Fatal("shutdown")] on a fresh logger, [Flush] parks. *)
Lemma X12_witness :
  let s := final (V2.Fatal [fmt.VString "shutdown"] (V2_fresh (machine false))) in
  V2.Flush (fst s, snd s) = Blocked (fst s, snd s).
Proof.
  intros s.
  refine (proj1 (proj2 (proj2 (proj2
    (X12_held_lock_blocks_every_call
       (V1.mkLogExtended held (log.New 0 "" log.Lmsgprefix) (Some 0%nat)
                         LogLevelInfo None)
       (fst s) (snd s) LogLevelInfo "" "" [] _ _))))).
  - reflexivity.
  - vm_compute. reflexivity.
Defined.

(** A logger that tees to [app.log] is at rest again after [Close]. *)
Lemma V2_calls_keep_invariant_witness :
  let s := V2_teeing (machine false) in
  exists r s', V2.Close (fst s, snd s) = Returned r s' /\
               V2_wf s' /\ sync.free (V2.mu (fst s')).
Proof.
  intros s.
  refine (proj1 (proj2 (proj2 (proj2
    (V2_calls_keep_invariant (fst s) (snd s) _ _))))).
  - reflexivity.
  - wf_by_run.
Defined.

(** A logger of the first variant that writes to [app.log] is at rest
    again after [Flush]. *)
Lemma V1_calls_keep_invariant_witness :
  let s := V1_on_file (machine false) in
  exists r s', V1.Flush (fst s, snd s) = Returned r s' /\
               V1_wf s' /\ sync.free (V1.mu (fst s')).
Proof.
  intros s.
  refine (proj1 (proj2 (proj2
    (V1_calls_keep_invariant (fst s) (snd s) _ _)))).
  - reflexivity.
  - wf_by_run.
Defined.

(** X15.  Each convenience method writes under its own level: when the
    threshold lets the level through, [Debug], [Info], [Warn] and [Error]
    (and the functions of package [mlog] that forward to them) write one
    line tagged DEBUG, INFO, WARNING and ERROR, with the operands
    concatenated as [fmt.Sprint] does; the [...f] methods write the
    template rendered by [fmt.Sprintf] under the same tags. *)
Theorem X15_wrappers_tag_their_level
    (l1 : V1.LogExtended) (l2 : V2.LogExtended) (w : World)
    (format : string) (args : list fmt.value) :
  sync.free (V1.mu l1) -> V1_wf (l1, w) ->
  sync.free (V2.mu l2) -> V2_wf (l2, w) ->
  let ts := time.Format (clock w) in
  (forall f k name,
     In (f, k, name) [(V1.Debug, LogLevelDebug, "DEBUG"); (V1.Info, LogLevelInfo, "INFO");
                      (V1.Warn, LogLevelWarning, "WARNING");
                      (V1.Error, LogLevelError, "ERROR")] ->
     V1.logLevel l1 <= k ->
     exists w', f args (l1, w) = Returned tt (l1, w') /\
                logged (log.out (V1.logger l1))
                       ("[" ++ ts ++ "] [" ++ name ++ "] " ++ fmt.Sprint args) w w') /\
  (forall f k name,
     In (f, k, name) [(V1.Debugf, LogLevelDebug, "DEBUG"); (V1.Infof, LogLevelInfo, "INFO");
                      (V1.Warnf, LogLevelWarning, "WARNING");
                      (V1.Errorf, LogLevelError, "ERROR")] ->
     V1.logLevel l1 <= k ->
     exists w', f format args (l1, w) = Returned tt (l1, w') /\
                logged (log.out (V1.logger l1))
                       ("[" ++ ts ++ "] [" ++ name ++ "] " ++ fmt.Sprintf format args)
                       w w') /\
  (forall f k name,
     In (f, k, name) [(V2.Debug, LogLevelDebug, "DEBUG"); (V2.Info, LogLevelInfo, "INFO");
                      (V2.Warn, LogLevelWarning, "WARNING");
                      (V2.Error, LogLevelError, "ERROR");
                      (mlog.Debug, LogLevelDebug, "DEBUG");
                      (mlog.Info, LogLevelInfo, "INFO");
                      (mlog.Warn, LogLevelWarning, "WARNING");
                      (mlog.Error, LogLevelError, "ERROR")] ->
     V2.logLevel l2 <= k ->
     exists w', f args (l2, w) = Returned tt (l2, w') /\
                logged (log.out (V2.logger l2))
                       ("[" ++ ts ++ "] [" ++ name ++ "] " ++ fmt.Sprint args) w w') /\
  (forall f k name,
     In (f, k, name) [(V2.Debugf, LogLevelDebug, "DEBUG"); (V2.Infof, LogLevelInfo, "INFO");
                      (V2.Warnf, LogLevelWarning, "WARNING");
                      (V2.Errorf, LogLevelError, "ERROR");
                      (mlog.Debugf, LogLevelDebug, "DEBUG");
                      (mlog.Infof, LogLevelInfo, "INFO");
                      (mlog.Warnf, LogLevelWarning, "WARNING");
                      (mlog.Errorf, LogLevelError, "ERROR")] ->
     V2.logLevel l2 <= k ->
     exists w', f format args (l2, w) = Returned tt (l2, w') /\
                logged (log.out (V2.logger l2))
                       ("[" ++ ts ++ "] [" ++ name ++ "] " ++ fmt.Sprintf format args)
                       w w').
Proof.
  intros Hf1 Hwf1 Hf2 Hwf2 ts.
  assert (A1 : forall k, k <> LogLevelFatal -> V1.logLevel l1 <= k ->
     exists w', V1.Log k args (l1, w) = Returned tt (l1, w') /\
                logged (log.out (V1.logger l1)) (spec_line ts k (fmt.Sprint args)) w w').
  { intros k Hk Hge. apply Z.eqb_neq in Hk.
    destruct (V1_Log_accepted l1 w k args Hf1 Hwf1 Hge) as (w' & Hlg & E).
    rewrite Hk in E. eauto. }
  assert (A2 : forall k, k <> LogLevelFatal -> V1.logLevel l1 <= k ->
     exists w', V1.Logf k format args (l1, w) = Returned tt (l1, w') /\
                logged (log.out (V1.logger l1))
                       (spec_line ts k (fmt.Sprintf format args)) w w').
  { intros k Hk Hge. apply Z.eqb_neq in Hk.
    destruct (V1_Logf_accepted l1 w k format args Hf1 Hwf1 Hge) as (w' & Hlg & E).
    rewrite Hk in E. eauto. }
  assert (A3 : forall k, k <> LogLevelFatal -> V2.logLevel l2 <= k ->
     exists w', V2.Log k args (l2, w) = Returned tt (l2, w') /\
                logged (log.out (V2.logger l2)) (spec_line ts k (fmt.Sprint args)) w w').
  { intros k Hk Hge. apply Z.eqb_neq in Hk.
    destruct (V2_Log_accepted l2 w k args Hf2 Hwf2 Hge) as (w' & Hlg & E).
    rewrite Hk in E. eauto. }
  assert (A4 : forall k, k <> LogLevelFatal -> V2.logLevel l2 <= k ->
     exists w', V2.Logf format k args (l2, w) = Returned tt (l2, w') /\
                logged (log.out (V2.logger l2))
                       (spec_line ts k (fmt.Sprintf format args)) w w').
  { intros k Hk Hge. apply Z.eqb_neq in Hk.
    destruct (V2_Logf_accepted l2 w format k args Hf2 Hwf2 Hge) as (w' & Hlg & E).
    rewrite Hk in E. eauto. }
  split; [|split; [|split]]; intros f k name Hin Hge; simpl in Hin.
  - repeat (destruct Hin as [[= <- <- <-]|Hin]; [now apply A1|]). destruct Hin.
  - repeat (destruct Hin as [[= <- <- <-]|Hin]; [now apply A2|]). destruct Hin.
  - repeat (destruct Hin as [[= <- <- <-]|Hin]; [now apply A3|]). destruct Hin.
  - repeat (destruct Hin as [[= <- <- <-]|Hin]; [now apply A4|]). destruct Hin.
Qed.

(** [mlog.Warn] on a fresh logger. *)
Lemma X15_witness :
  let s := V2_fresh (machine false) in
  exists w', mlog.Warn [fmt.VString "careful"] (fst s, snd s) = Returned tt (fst s, w') /\
             logged (log.out (V2.logger (fst s)))
                    ("[" ++ time.Format (clock (snd s)) ++ "] [" ++ "WARNING" ++ "] "
                     ++ fmt.Sprint [fmt.VString "careful"]) (snd s) w'.
Proof.
  intros s.
  destruct (X15_wrappers_tag_their_level
              (fst (V1_fresh (machine false))) (fst s) (snd s)
              "" [fmt.VString "careful"]) as (_ & _ & H & _).
  - reflexivity.
  - wf_by_computation.
  - reflexivity.
  - wf_by_computation.
  - apply (H mlog.Warn LogLevelWarning "WARNING").
    + do 6 right. left. reflexivity.
    + vm_compute. discriminate.
Defined.

Lemma bufio_Flush_None_writer (h : nat) (w w1 : World) :
  bufio.Flush h w = Returned None w1 ->
  exists b, writers w1 !! h = Some b /\ err b = None /\ buf b = "".
Proof.
  unfold bufio.Flush. destruct (writers w !! h) as [b|] eqn:Hb; [|discriminate].
  destruct (err b) eqn:Herr; [discriminate|].
  destruct (len (buf b) =? 0)%nat eqn:Hempty.
  { intros [= <-]. exists b. apply len_zero in Hempty. now repeat split. }
  pose proof (io_Write_only_wrote (wr b) (buf b) w) as [_ Hws].
  destruct (io.Write (wr b) (buf b) w) as [[e|] w']; [discriminate|].
  simpl in Hws. intros [= <-]. exists (mkWriter (wr b) "" None).
  split; [|split; reflexivity].
  apply lookup_set_writer with b. congruence.
Qed.

Lemma bufio_Flush_empty (h : nat) (w : World) (b : Writer) :
  writers w !! h = Some b -> err b = None -> buf b = "" ->
  bufio.Flush h w = Returned None w.
Proof. intros Hb He Hbuf. unfold bufio.Flush. now rewrite Hb, He, Hbuf. Qed.

(** X17.  [Flush] can be repeated.  After a [Flush] that returned no
    error, a second [Flush] returns no error and writes to no device: in
    the first variant, and in the second without a backing file, it
    changes nothing at all; with a backing file it only syncs the file
    again. *)
Theorem X17_Flush_twice
    (l1 : V1.LogExtended) (l2 : V2.LogExtended) (w wa wb : World) :
  sync.free (V1.mu l1) -> V1_wf (l1, w) ->
  sync.free (V2.mu l2) -> V2_wf (l2, w) ->
  V1.Flush (l1, w) = Returned None (l1, wa) ->
  V2.Flush (l2, w) = Returned None (l2, wb) ->
  V1.Flush (l1, wa) = Returned None (l1, wa) /\
  match V2.logFile l2 with
  | None => V2.Flush (l2, wb) = Returned None (l2, wb)
  | Some f => V2.Flush (l2, wb) = Returned None (l2, emit (EvSync f None) wb)
  end.
Proof.
  intros Hf1 Hwf1 Hf2 Hwf2 Ea Eb. split.
  - destruct (V1_Flush_spec l1 w Hf1 Hwf1) as (r & w' & E & How & EF).
    rewrite EF in Ea. injection Ea as -> ->.
    assert (Hwf' : V1_wf (l1, wa)).
    { destruct (only_wrote_lengths _ _ How). now apply wf_lengths_V1 with w. }
    destruct (V1_Flush_spec l1 wa Hf1 Hwf') as (r2 & w2 & E2 & _ & ->).
    rewrite (bufio_Flush_again _ _ _ E) in E2. now injection E2 as <- <-.
  - destruct (V2_Flush_spec l2 w Hf2 Hwf2) as (r & w' & E & How & EF).
    rewrite EF in Eb.
    destruct r as [e|]; [discriminate|].
    destruct (only_wrote_lengths _ _ How) as [Hl1 Hl2].
    destruct (bufio_Flush_None_writer _ _ _ E) as (b0 & Hb0 & He0 & Hbuf0).
    destruct (V2.logFile l2) as [f|] eqn:Hlf.
    + injection Eb as Hsync <-. rewrite Hsync.
      assert (Hwf' : V2_wf (l2, emit (EvSync f None) w')) by
        now apply wf_lengths_V2 with w.
      destruct (V2_Flush_spec l2 (emit (EvSync f None) w') Hf2 Hwf')
        as (r2 & w2 & E2 & _ & EF2).
      rewrite (bufio_Flush_empty _ (emit (EvSync f None) w') b0 Hb0 He0 Hbuf0) in E2.
      injection E2 as <- <-. rewrite Hlf in EF2.
      change (os.file_error f (emit (EvSync f None) w')) with (os.file_error f w') in EF2.
      now rewrite Hsync in EF2.
    + injection Eb as <-.
      assert (Hwf' : V2_wf (l2, w')) by now apply wf_lengths_V2 with w.
      destruct (V2_Flush_spec l2 w' Hf2 Hwf') as (r2 & w2 & E2 & _ & EF2).
      rewrite (bufio_Flush_again _ _ _ E) in E2. injection E2 as <- <-.
      now rewrite Hlf in EF2.
Qed.

(** A logger that tees to [app.log] with one line buffered: the second
    [Flush] only syncs. *)
Lemma X17_witness :
  let s := final (V2.Info [fmt.VString "hello"] (V2_teeing (machine false))) in
  let wb := snd (final (V2.Flush (fst s, snd s))) in
  V2.Flush (fst s, wb) = Returned None (fst s, emit (EvSync 0 None) wb).
Proof.
  intros s wb.
  destruct (X17_Flush_twice
              (fst (V1_fresh (machine false))) (fst s) (snd s)
              (snd (final (V1.Flush (fst (V1_fresh (machine false)), snd s)))) wb)
    as [_ H].
  - reflexivity.
  - wf_by_run.
  - reflexivity.
  - wf_by_run.
  - vm_compute. reflexivity.
  - vm_compute. reflexivity.
  - replace (V2.logFile (fst s)) with (Some 0%nat) in H by (vm_compute; reflexivity).
    exact H.
Defined.

(** [os.Close] takes no byte away from any device. *)
Lemma os_Close_keeps (f : nat) (w : World) :
  exists rc w1,
    os.Close f w = Returned rc w1 /\
    (forall d, dev_data w1 d = dev_data w d) /\
    length (files w1) = length (files w) /\
    can_open w1 = can_open w /\ writers w1 = writers w.
Proof.
  unfold os.Close. destruct (files w !! f) as [fl|] eqn:Hfl;
    [destruct (f_closed fl)|]; eexists _, _; (split; [reflexivity|]); simpl;
    (split; [|repeat split; try apply length_alter]);
    intros [|fd]; simpl; try reflexivity.
  destruct (decide (fd = f)) as [->|Hne].
  - rewrite list_lookup_alter_eq, Hfl. reflexivity.
  - rewrite list_lookup_alter_ne by congruence. reflexivity.
Qed.

(** A successful [SetOutput] as a flush followed by steps that take no
    byte away from the devices that were there. *)
Lemma V1_SetOutput_ok_data (l : V1.LogExtended) (w : World) path :
  sync.free (V1.mu l) -> V1_wf (l, w) -> can_open w path = true ->
  exists r0 w0 l1 w1,
    bufio.Flush (log.out (V1.logger l)) w = Returned r0 w0 /\
    V1.SetOutput path (l, w) = Returned None (l1, w1) /\
    console w1 = console w0 /\
    forall fd, (fd < length (files w))%nat ->
               dev_data w1 (FileDev fd) = dev_data w0 (FileDev fd).
Proof.
  intros Hfree (Hal & Hw & Hpre & Hlf) Hyes. unfold sync.free in Hfree.
  destruct l as [m lg bw ll lf]; simpl in *; subst.
  destruct (bufio_Flush_returns (log.out lg) w Hw) as (r & w0 & E & How).
  destruct (only_wrote_lengths _ _ How) as [Hlen _].
  exists r, w0. unfold_v1. simpl. rewrite E. simpl. unfold os.OpenFile.
  rewrite (ow_can_open _ _ How), Hyes. simpl.
  destruct lf as [f|]; simpl.
  - set (wo := emit (EvOpen path None)
                 (set_files (files w0 ++ [mkFile path false ""]) w0)).
    destruct (os_Close_keeps f wo) as (rc & w2 & E2 & Hd2 & _).
    rewrite E2. simpl. unfold bufio.NewWriter. simpl.
    eexists _, _; split; [reflexivity|]. split; [reflexivity|]. simpl. split.
    + apply (Hd2 Stdout).
    + intros fd Hfd. change (dev_data w2 (FileDev fd) = dev_data w0 (FileDev fd)).
      rewrite Hd2. unfold wo. simpl. rewrite lookup_app_l by lia. reflexivity.
  - unfold bufio.NewWriter. simpl.
    eexists _, _; split; [reflexivity|]. split; [reflexivity|]. simpl.
    split; [reflexivity|].
    intros fd Hfd. rewrite lookup_app_l by lia. reflexivity.
Qed.

Lemma V2_SetOutput_ok_data (l : V2.LogExtended) (w : World) path :
  sync.free (V2.mu l) -> V2_wf (l, w) -> can_open w path = true ->
  exists r0 w0 l1 w1,
    bufio.Flush (log.out (V2.logger l)) w = Returned r0 w0 /\
    V2.SetOutput path (l, w) = Returned None (l1, w1) /\
    console w1 = console w0 /\
    forall fd, (fd < length (files w))%nat ->
               dev_data w1 (FileDev fd) = dev_data w0 (FileDev fd).
Proof.
  intros Hfree (Hal & Hw & Hpre & Hlf) Hyes. unfold sync.free in Hfree.
  destruct l as [bw lf ll lg m]; simpl in *; subst.
  destruct (bufio_Flush_returns (log.out lg) w Hw) as (r & w0 & E & How).
  destruct (only_wrote_lengths _ _ How) as [Hlen _].
  exists r, w0. unfold_v2. simpl. rewrite E. simpl.
  destruct lf as [f|]; simpl.
  - destruct (os_Close_keeps f w0) as (rc & w1 & E1 & Hd1 & Hl1 & Hco & _).
    rewrite E1. simpl. unfold os.OpenFile, bufio.NewWriter. simpl.
    rewrite Hco, (ow_can_open _ _ How), Hyes. simpl.
    eexists _, _; split; [reflexivity|]. split; [reflexivity|]. simpl. split.
    + apply (Hd1 Stdout).
    + intros fd Hfd. rewrite lookup_app_l by lia. apply (Hd1 (FileDev fd)).
  - unfold os.OpenFile, bufio.NewWriter. simpl.
    rewrite (ow_can_open _ _ How), Hyes. simpl.
    eexists _, _; split; [reflexivity|]. split; [reflexivity|]. simpl.
    split; [reflexivity|].
    intros fd Hfd. rewrite lookup_app_l by lia. reflexivity.
Qed.

Lemma dev_ok_valid (w : World) (d : Dev) :
  dev_error w d = None ->
  match d with Stdout => True | FileDev fd => (fd < length (files w))%nat end.
Proof.
  destruct d as [|fd]; simpl; [trivial|]. unfold os.file_error.
  destruct (files w !! fd) eqn:H; [|discriminate].
  intros _. now apply lookup_lt_Some in H.
Qed.

(** X18.  Redirecting loses nothing that was buffered.  When the sink of
    the logger takes writes, a successful [SetOutput] first hands the
    buffered bytes to the old sink: every device of the old sink has
    received what it had plus what was buffered, before the old backing
    file is closed and the new writer, with an empty buffer, takes over
    (both variants). *)
Theorem X18_SetOutput_delivers_buffered_bytes_to_old_sink
    (l1 : V1.LogExtended) (l2 : V2.LogExtended) (w : World) (b1 b2 : Writer)
    (path : string) :
  sync.free (V1.mu l1) -> V1_wf (l1, w) ->
  sync.free (V2.mu l2) -> V2_wf (l2, w) ->
  writers w !! log.out (V1.logger l1) = Some b1 -> err b1 = None ->
  NoDup (sink_devs (wr b1)) ->
  (forall d, In d (sink_devs (wr b1)) -> dev_error w d = None) ->
  writers w !! log.out (V2.logger l2) = Some b2 -> err b2 = None ->
  NoDup (sink_devs (wr b2)) ->
  (forall d, In d (sink_devs (wr b2)) -> dev_error w d = None) ->
  can_open w path = true ->
  (exists l' w',
     V1.SetOutput path (l1, w) = Returned None (l', w') /\
     forall d, In d (sink_devs (wr b1)) -> dev_data w' d = dev_data w d ++ buf b1) /\
  (exists l' w',
     V2.SetOutput path (l2, w) = Returned None (l', w') /\
     forall d, In d (sink_devs (wr b2)) -> dev_data w' d = dev_data w d ++ buf b2).
Proof.
  intros Hf1 Hwf1 Hf2 Hwf2 Hb1 He1 Hnd1 Hok1 Hb2 He2 Hnd2 Hok2 Hopen.
  split.
  - destruct (V1_SetOutput_ok_data l1 w path Hf1 Hwf1 Hopen)
      as (r0 & w0 & l' & w' & E0 & E & Hcons & Hfiles).
    destruct (bufio_Flush_ok _ w b1 Hb1 He1 Hnd1 Hok1) as (w0' & E0' & _ & Hd).
    rewrite E0 in E0'. injection E0' as _ <-.
    exists l', w'. split; [exact E|].
    intros d Hin. rewrite <- (Hd d Hin).
    pose proof (dev_ok_valid w d (Hok1 d Hin)) as Hv.
    destruct d as [|fd]; [exact Hcons | now apply Hfiles].
  - destruct (V2_SetOutput_ok_data l2 w path Hf2 Hwf2 Hopen)
      as (r0 & w0 & l' & w' & E0 & E & Hcons & Hfiles).
    destruct (bufio_Flush_ok _ w b2 Hb2 He2 Hnd2 Hok2) as (w0' & E0' & _ & Hd).
    rewrite E0 in E0'. injection E0' as _ <-.
    exists l', w'. split; [exact E|].
    intros d Hin. rewrite <- (Hd d Hin).
    pose proof (dev_ok_valid w d (Hok2 d Hin)) as Hv.
    destruct d as [|fd]; [exact Hcons | now apply Hfiles].
Qed.

(** A fresh logger with one Info line buffered, redirected to [app.log]:
    the line is on the console. *)
Lemma X18_witness :
  let s := final (V2.Info [fmt.VString "hello"] (V2_fresh (machine false))) in
  exists l' w',
    V2.SetOutput "app.log" (fst s, snd s) = Returned None (l', w') /\
    forall d, In d [Stdout] ->
              dev_data w' d
              = dev_data (snd s) d ++ ("[2024-03-07 12:00:00] [INFO] hello" ++ nl).
Proof.
  intros s.
  refine (proj2 (X18_SetOutput_delivers_buffered_bytes_to_old_sink
            (fst (V1_fresh (machine false))) (fst s) (snd s)
            (mkWriter (Direct Stdout) ("[2024-03-07 12:00:00] [INFO] hello" ++ nl) None)
            (mkWriter (Direct Stdout) ("[2024-03-07 12:00:00] [INFO] hello" ++ nl) None)
            "app.log" _ _ _ _ _ _ _ _ _ _ _ _ _)).
  - reflexivity.
  - wf_by_run.
  - reflexivity.
  - wf_by_run.
  - vm_compute. reflexivity.
  - reflexivity.
  - apply NoDup_singleton.
  - intros d [<-|[]]. reflexivity.
  - vm_compute. reflexivity.
  - reflexivity.
  - apply NoDup_singleton.
  - intros d [<-|[]]. reflexivity.
  - reflexivity.
Defined.

(** X19.  [Close] loses nothing that was buffered.  When the sink of the
    logger takes writes, [Close] hands the buffered bytes to every device
    of the sink, leaves the buffer empty, and then closes the backing
    file; it returns no error exactly when the backing file, if there is
    one, was still open. *)
Theorem X19_Close_delivers_buffered_bytes
    (l : V2.LogExtended) (w : World) (b : Writer) :
  sync.free (V2.mu l) -> V2_wf (l, w) ->
  writers w !! log.out (V2.logger l) = Some b -> err b = None ->
  NoDup (sink_devs (wr b)) ->
  (forall d, In d (sink_devs (wr b)) -> dev_error w d = None) ->
  exists r w',
    V2.Close (l, w) = Returned r (l, w') /\
    (forall d, In d (sink_devs (wr b)) -> dev_data w' d = dev_data w d ++ buf b) /\
    writers w' !! log.out (V2.logger l) = Some (mkWriter (wr b) "" None) /\
    match V2.logFile l with
    | None => r = None
    | Some f => r = None <-> f_closed <$> files w !! f = Some false
    end.
Proof.
  intros Hfree Hwf Hb He Hnd Hok.
  destruct (V2_Close_steps l w Hfree Hwf) as (r0 & w0 & E0 & How & H).
  destruct (bufio_Flush_ok _ w b Hb He Hnd Hok) as (w0' & E0' & Hb0 & Hd).
  rewrite E0 in E0'. injection E0' as -> <-.
  destruct (V2.logFile l) as [f|] eqn:Hlf.
  - destruct H as (rc & w1 & E1 & EC).
    destruct (os_Close_keeps f w0) as (rc' & w1' & E1' & Hd1 & _ & _ & Hws).
    rewrite E1 in E1'. injection E1' as <- <-.
    destruct (os_Close_closes f w0) as (rc' & w1' & E1' & _ & _ & _ & _ & _ & Hrc).
    { eapply only_wrote_file; [exact How|]. now apply Hwf. }
    rewrite E1 in E1'. injection E1' as <- <-.
    exists (match rc with Some e => Some e | None => None end), w1.
    split; [exact EC|].
    split; [intros d Hin; now rewrite Hd1, Hd|].
    split; [now rewrite Hws|].
    assert (Hsame : f_closed <$> files w0 !! f = f_closed <$> files w !! f).
    { now rewrite <- !lookup_map, (ow_closed _ _ How). }
    rewrite <- Hsame, <- Hrc. destruct rc; split; congruence.
  - exists None, w0. split; [exact H|]. now repeat split.
Qed.

(** [Close] on a logger that tees to [app.log] with one line buffered. *)
Lemma X19_witness :
  let s := final (V2.Info [fmt.VString "hello"] (V2_teeing (machine false))) in
  exists r w',
    V2.Close (fst s, snd s) = Returned r (fst s, w') /\
    forall d, In d [FileDev 0; Stdout] ->
              dev_data w' d
              = dev_data (snd s) d ++ ("[2024-03-07 12:00:00] [INFO] hello" ++ nl).
Proof.
  intros s.
  destruct (X19_Close_delivers_buffered_bytes (fst s) (snd s)
              (mkWriter (MultiWriter [FileDev 0; Stdout])
                        ("[2024-03-07 12:00:00] [INFO] hello" ++ nl) None))
    as (r & w' & E & Hd & _).
  - reflexivity.
  - wf_by_run.
  - vm_compute. reflexivity.
  - reflexivity.
  - apply NoDup_cons. split; [|apply NoDup_singleton].
    intros Hin. apply list_elem_of_In in Hin. destruct Hin as [|[]]; discriminate.
  - intros d [<-|[<-|[]]]; reflexivity.
  - exists r, w'. split; [exact E | exact Hd].
Defined.

(** X16.  The default logger of package [mlog] starts with the threshold
    at Info: on the logger [New] returns, [mlog.Debug] and [mlog.Debugf]
    do nothing at all, while [mlog.Info], [mlog.Warn] and [mlog.Error]
    each write their line through the buffered writer on the console. *)
Theorem X16_default_logger_drops_Debug
    (w : World) (format : string) (args : list fmt.value) :
  mlog.Debug args (V2_fresh w) = Returned tt (V2_fresh w) /\
  mlog.Debugf format args (V2_fresh w) = Returned tt (V2_fresh w) /\
  forall f k,
    In (f, k) [(mlog.Info, LogLevelInfo); (mlog.Warn, LogLevelWarning);
               (mlog.Error, LogLevelError)] ->
    exists w',
      f args (V2_fresh w) = Returned tt (fst (V2_fresh w), w') /\
      logged (length (writers w))
             (spec_line (time.Format (clock w)) k (fmt.Sprint args))
             (snd (V2_fresh w)) w'.
Proof.
  destruct (V2_fresh_wf w) as [Hwf Hfree].
  split; [|split].
  - apply (V2_Log_filtered (fst (V2_fresh w)) (snd (V2_fresh w))); [exact Hfree|].
    reflexivity.
  - apply (V2_Logf_filtered (fst (V2_fresh w)) (snd (V2_fresh w))); [exact Hfree|].
    reflexivity.
  - intros f k Hin.
    assert (A : forall k, LogLevelInfo <= k -> k <> LogLevelFatal ->
              exists w',
                V2.Log k args (V2_fresh w) = Returned tt (fst (V2_fresh w), w') /\
                logged (length (writers w))
                       (spec_line (time.Format (clock w)) k (fmt.Sprint args))
                       (snd (V2_fresh w)) w').
    { intros k' Hge Hne. apply Z.eqb_neq in Hne.
      destruct (V2_Log_accepted (fst (V2_fresh w)) (snd (V2_fresh w)) k' args
                  Hfree Hwf Hge) as (w' & Hlg & E).
      rewrite Hne in E. exists w'. split; [exact E | exact Hlg]. }
    simpl in Hin.
    repeat (destruct Hin as [[= <- <-]|Hin];
            [apply A; [unfold LogLevelInfo, LogLevelWarning, LogLevelError; lia
                      | discriminate]|]).
    destruct Hin.
Qed.
